(** * alacritty-circadian: the scheduling core of [alacritty_circadian.py]

    A shallow embedding of the theme scheduler: the resolution of a time
    specifier ([get_theme_time]), the choice of the theme that is due
    ([set_appropriate_theme]), the arming of one timer per theme
    ([set_theme_switch_timers]) and the write of the colour block
    ([switch_theme]).

    Python values are modelled as follows.
    - A [datetime] is the record of its fields.  The calendar date
      (year, month, day) is represented by its proleptic Gregorian ordinal
      ([date.toordinal()]): two datetimes lie on the same calendar date
      exactly when their ordinals agree, and the next calendar day is the
      next ordinal.  [ymd2ord] (Python's [_ymd2ord]) writes dates legibly.
    - A [timedelta] is the normalised triple (days, seconds, microseconds).
    - [sys.exit(msg)] and uncaught exceptions are the two failure results
      of [outcome].
    - A TOML document is a [gmap string toml].
    - A Python [str] is the [string] of its UTF-8 bytes, as the TOML file
      holds it.
    - A schedule entry is the record [theme] of its two strings, and the
      [coordinates] are a table: the shape of [circadian.toml] that the
      program documents.  [get_theme_time_untyped] covers entries and
      coordinates of any other kind.
    - What the process reads from its surroundings (the local time zone of
      the operating system, [float] on a string, the Unicode database of
      the interpreter, the [astral] package, the file system) is collected
      in the record [Env]. *)

From Stdlib Require Import ZArith Lia Bool Ascii String.
From stdpp Require Import gmap strings list fin_maps.

Local Open Scope Z_scope.

(** ** Results: a value, [sys.exit], or an uncaught exception *)

Inductive exn : Type :=
| TypeError
| ValueError
| KeyError
| AttributeError
| UnboundLocalError
| OverflowError
| OSError.

(** TOML values, as [tomlkit] loads them: strings, integers (of TOML's
    range, 64 bits), floats (a decimal mantissa and exponent), booleans,
    the four kinds of date and time (kept as their text), arrays and
    tables.  A string holds the UTF-8 bytes of the text, as the file has
    them. *)
#[warnings="-register-all"]
Inductive toml : Type :=
| TString (s : string)
| TInteger (z : Z)
| TFloat (mantissa exponent : Z)
| TBool (b : bool)
| TDateTime (text : string)
| TArray (items : list toml)
| TTable (entries : gmap string toml).

(** The messages given to [sys.exit]; the arguments of the constructors are
    the values interpolated in the f-strings of the source.
    - [MsgCoordinates lat lon]: "[ERROR] Coordinates {s_lat}, {s_lon} not valid number(s)"
    - [MsgTimeFormat s]: "[ERROR] Unknown time format {theme['time']}"
    - [MsgNoThemeSection]: "[ERROR] Circadian config theme section not found"
    - [MsgNoThemes]: "[ERROR] No themes specified in circadian config"
    - [MsgNotInstalled name]: "[ERROR] {name} is not installed in {theme_file}"
      and "[ERROR] Theme {name} not installed in {theme_folder_path}". *)
Inductive exit_message : Type :=
| MsgCoordinates (s_lat s_lon : option toml)
| MsgTimeFormat (s : string)
| MsgNoThemeSection
| MsgNoThemes
| MsgNotInstalled (name : string).

Inductive outcome (A : Type) : Type :=
| Ok (a : A)
| SysExit (msg : exit_message)
| Raise (e : exn).

Arguments Ok {A} a.
Arguments SysExit {A} msg.
Arguments Raise {A} e.

#[global] Instance outcome_ret : MRet outcome := fun A a => Ok a.

#[global] Instance outcome_bind : MBind outcome := fun A B k m =>
  match m with
  | Ok a => k a
  | SysExit msg => SysExit msg
  | Raise e => Raise e
  end.

(** ** Dates and times *)

Record datetime : Type := mkDT {
  ordinal : Z;
  hour : Z;
  minute : Z;
  second : Z;
  microsecond : Z
}.

Record timedelta : Type := mkTD {
  td_days : Z;
  td_seconds : Z;
  td_microseconds : Z
}.

(** The field ranges that every Python [datetime] satisfies. *)
Definition valid_time (d : datetime) : Prop :=
  0 <= hour d < 24 /\ 0 <= minute d < 60 /\ 0 <= second d < 60 /\
  0 <= microsecond d < 1000000.

(** [datetime.max] is 9999-12-31; its ordinal. *)
Definition MAXORDINAL : Z := 3652059.

(** Python's [_is_leap], [_days_before_year], [_days_before_month] and
    [_ymd2ord]. *)
Definition is_leap (year : Z) : bool :=
  (year mod 4 =? 0) && (negb (year mod 100 =? 0) || (year mod 400 =? 0)).

Definition days_before_year (year : Z) : Z :=
  let y := year - 1 in y * 365 + y / 4 - y / 100 + y / 400.

Definition DAYS_BEFORE_MONTH (month : Z) : Z :=
  match month with
  | 1 => 0 | 2 => 31 | 3 => 59 | 4 => 90 | 5 => 120 | 6 => 151
  | 7 => 181 | 8 => 212 | 9 => 243 | 10 => 273 | 11 => 304 | _ => 334
  end.

Definition days_before_month (year month : Z) : Z :=
  DAYS_BEFORE_MONTH month + (if (2 <? month) && is_leap year then 1 else 0).

Definition ymd2ord (year month day : Z) : Z :=
  days_before_year year + days_before_month year month + day.

(** Microseconds since the start of ordinal day 0. *)
Definition day_seconds (d : datetime) : Z :=
  hour d * 3600 + minute d * 60 + second d.

Definition to_us (d : datetime) : Z :=
  (ordinal d * 86400 + day_seconds d) * 1000000 + microsecond d.

(** The fields of the instant [n] microseconds after the start of ordinal
    day 0: the normalisation that [datetime + timedelta] performs. *)
Definition of_us (n : Z) : datetime :=
  let s := n / 1000000 in
  let sod := s mod 86400 in
  {| ordinal := s / 86400;
     hour := sod / 3600;
     minute := (sod mod 3600) / 60;
     second := sod mod 60;
     microsecond := n mod 1000000 |}.

(** [timedelta(days, seconds, microseconds)]: the constructor normalises to
    0 <= seconds < 86400 and 0 <= microseconds < 1000000. *)
Definition timedelta_of_us (n : Z) : timedelta :=
  let s := n / 1000000 in
  {| td_days := s / 86400;
     td_seconds := s mod 86400;
     td_microseconds := n mod 1000000 |}.

Definition make_timedelta (days seconds microseconds : Z) : timedelta :=
  timedelta_of_us ((days * 86400 + seconds) * 1000000 + microseconds).

(** [a - b] for two datetimes with the same [tzinfo] (both are UTC wherever
    the source subtracts):
    [timedelta(days1 - days2, secs1 - secs2, us1 - us2)]. *)
Definition dt_sub (a b : datetime) : timedelta :=
  make_timedelta (ordinal a - ordinal b)
                 (day_seconds a - day_seconds b)
                 (microsecond a - microsecond b).

(** [timedelta.total_seconds()] rounded down to whole seconds. *)
Definition td_whole_seconds (t : timedelta) : Z :=
  td_days t * 86400 + td_seconds t.

(** [a < b] for two datetimes with the same [tzinfo]: the comparison of the
    field tuples. *)
Definition dt_ltb (a b : datetime) : bool :=
  match ordinal a ?= ordinal b with
  | Lt => true | Gt => false
  | Eq =>
    match hour a ?= hour b with
    | Lt => true | Gt => false
    | Eq =>
      match minute a ?= minute b with
      | Lt => true | Gt => false
      | Eq =>
        match second a ?= second b with
        | Lt => true | Gt => false
        | Eq => microsecond a <? microsecond b
        end
      end
    end
  end.

(** [d.replace(hour=h, minute=m, second=s, microsecond=us)] *)
Definition replace_time (d : datetime) (h m s us : Z) : datetime :=
  {| ordinal := ordinal d; hour := h; minute := m; second := s;
     microsecond := us |}.

(** [d.replace(year=o.year, month=o.month, day=o.day)] *)
Definition replace_date (d o : datetime) : datetime :=
  {| ordinal := ordinal o; hour := hour d; minute := minute d;
     second := second d; microsecond := microsecond d |}.

(** [d + timedelta(days=n)]; Python raises [OverflowError] when the result
    leaves the years 1..9999. *)
Definition add_days (d : datetime) (n : Z) : outcome datetime :=
  let o := ordinal d + n in
  if (1 <=? o) && (o <=? MAXORDINAL)
  then Ok {| ordinal := o; hour := hour d; minute := minute d;
             second := second d; microsecond := microsecond d |}
  else Raise OverflowError.

(** [d + timedelta(seconds=s)], used by the time-zone conversions. *)
Definition add_seconds (d : datetime) (s : Z) : datetime :=
  of_us (to_us d + s * 1000000).

(** ** The surroundings of the process *)

(** A schedule entry of [circadian.toml] in the configuration format the
    program documents: a table with the keys [name] and [time], both
    strings.  The model covers the configurations of this shape; a table
    without [name] or [time], or with another kind of value there (on
    which [theme["time"]] raises [KeyError] and [strptime] raises
    [TypeError]), is not represented. *)
Record theme : Type := mkTheme {
  name : string;
  time : string
}.

(** The document [circadian]: the [coordinates] table, when the key is
    present, and the [themes] list, when the key is present.  As for
    [theme], the model covers the documents in which [coordinates] is a
    table and [themes] an array of tables; the values inside [coordinates]
    are of any kind. *)
Record Circadian : Type := mkCircadian {
  coordinates : option (gmap string toml);
  themes : option (list theme)
}.

(** - [tm_gmtoff u]: the offset, in seconds east of UTC, of the local time
      zone of the operating system at POSIX time [u]
      ([time.localtime(u).tm_gmtoff]).
    - [float_accepts s]: [float(s)] on the string [s] returns a number
      (otherwise it raises [ValueError]).
    - [unicode_decimal cp]: the decimal digit value of the code point [cp]
      in the Unicode database of the interpreter ([Py_UNICODE_TODECIMAL]),
      [None] when [cp] is not a decimal digit; it is consulted for the
      code points from 128 on only.
    - [astral_sun lat lon date token]: [sun(Observer(float(lat),
      float(lon)))[token]] of the [astral] package, a UTC datetime, for
      the coordinate values [lat] and [lon] of the configuration, computed
      for the calendar date [date] (an ordinal); [None] when [astral]
      raises [ValueError] (the sun does not reach the elevation on that
      day).  [sun] is called without a date and takes today's date in UTC
      from the system clock.
    - [theme_files]: the documents of the theme folder, by theme name
      ([<theme-folder>/<name>.toml]).
    - [dest_opens]: [open(alacritty_dest, "w")] succeeds. *)
Record Env : Type := mkEnv {
  tm_gmtoff : Z -> Z;
  float_accepts : string -> bool;
  unicode_decimal : N -> option Z;
  astral_sun : toml -> toml -> Z -> string -> option datetime;
  theme_files : gmap string (gmap string toml);
  dest_opens : bool
}.

(** ** Time-zone conversion ([datetime.astimezone]) *)

(** The ordinal of 1970-01-01. *)
Definition EPOCH_ORDINAL : Z := 719163.

(** [utc_to_seconds], in seconds since the POSIX epoch (microseconds are
    dropped). *)
Definition utc_to_seconds (d : datetime) : Z :=
  (ordinal d - EPOCH_ORDINAL) * 86400 + day_seconds d.

(** [local(u)]: the local wall-clock reading at POSIX time [u], as seconds. *)
Definition local (E : Env) (u : Z) : Z := u + tm_gmtoff E u.

Definition max_fold_seconds : Z := 86400.

(** CPython's [local_to_seconds] with [fold = 0]: solve [t = local(u)] for
    [u], where [t] is the naive wall-clock reading. *)
Definition local_to_seconds (E : Env) (d : datetime) : Z :=
  let t := utc_to_seconds d in
  let a := local E t - t in
  let u1 := t - a in
  let t1 := local E u1 in
  let second_guess (b : Z) : Z :=
    let u2 := t - b in
    let t2 := local E u2 in
    if t2 =? t then u2
    else if t1 =? t then u1
    else Z.max u1 u2 in
  if t1 =? t then
    let u2 := u1 - max_fold_seconds in
    let b := local E u2 - u2 in
    if a =? b then u1 else second_guess b
  else second_guess (t1 - u1).

(** A datetime is naive or carries a fixed UTC offset in seconds. *)
Inductive tzinfo : Type :=
| Naive
| Aware (utcoffset : Z).

(** [d.astimezone(tz=None)]: a naive [d] is taken as local wall-clock time;
    the result carries the local offset at the instant it denotes. *)
Definition astimezone_local (E : Env) (d : datetime) (tz : tzinfo)
  : datetime * Z :=
  let offset :=
    match tz with
    | Naive => tm_gmtoff E (local_to_seconds E d)
    | Aware o => o
    end in
  let utc := add_seconds d (- offset) in
  let o := tm_gmtoff E (utc_to_seconds utc) in
  (add_seconds utc o, o).

(** [d.astimezone(tz=timezone.utc)] for [d] aware with offset [offset]. *)
Definition astimezone_utc (d : datetime) (offset : Z) : datetime :=
  add_seconds (add_seconds d (- offset)) 0.

(** The local wall-clock reading of a UTC datetime: [u.astimezone()]. *)
Definition to_local_wall (E : Env) (u : datetime) : datetime :=
  fst (astimezone_local E u (Aware 0)).

(** ** Parsing a clock string: [datetime.strptime(s, "%H:%M")] *)

(** A [string] holds the UTF-8 bytes of a Python [str].  [decode_utf8]
    reads the first code point off the bytes and gives the rest; [None] at
    the end of the string, and on bytes that are not UTF-8 (which a [str]
    loaded from a TOML file never holds). *)
Definition continuation_byte (c : ascii) : option N :=
  let b := N_of_ascii c in
  if ((128 <=? b) && (b <? 192))%N then Some (b - 128)%N else None.

Definition decode_utf8 (s : string) : option (N * string) :=
  match s with
  | EmptyString => None
  | String c0 r0 =>
    let b0 := N_of_ascii c0 in
    if (b0 <? 128)%N then Some (b0, r0)
    else if (b0 <? 192)%N then None
    else if (b0 <? 224)%N then
      match r0 with
      | String c1 r1 =>
        x1 ← continuation_byte c1;
        let cp := ((b0 - 192) * 64 + x1)%N in
        if (128 <=? cp)%N then Some (cp, r1) else None
      | _ => None
      end
    else if (b0 <? 240)%N then
      match r0 with
      | String c1 (String c2 r2) =>
        x1 ← continuation_byte c1;
        x2 ← continuation_byte c2;
        let cp := ((b0 - 224) * 4096 + x1 * 64 + x2)%N in
        if ((2048 <=? cp) && negb ((55296 <=? cp) && (cp <? 57344)))%N
        then Some (cp, r2) else None
      | _ => None
      end
    else if (b0 <? 248)%N then
      match r0 with
      | String c1 (String c2 (String c3 r3)) =>
        x1 ← continuation_byte c1;
        x2 ← continuation_byte c2;
        x3 ← continuation_byte c3;
        let cp := ((b0 - 240) * 262144 + x1 * 4096 + x2 * 64 + x3)%N in
        if ((65536 <=? cp) && (cp <? 1114112))%N
        then Some (cp, r3) else None
      | _ => None
      end
    else None
  end.

(** The value of an ASCII digit, [0] to [9]. *)
Definition digit_value (c : ascii) : option Z :=
  let n := Z.of_N (N_of_ascii c) in
  if (48 <=? n) && (n <=? 57) then Some (n - 48) else None.

(** The class [\d] of a [str] pattern, and the value that [int] gives the
    character: the decimal digits of Unicode, which below 128 are the ten
    ASCII digits. *)
Definition code_point_decimal (E : Env) (cp : N) : option Z :=
  if (cp <? 128)%N then digit_value (ascii_of_N cp)
  else
    match unicode_decimal E cp with
    | Some d => if (0 <=? d) && (d <=? 9) then Some d else None
    | None => None
    end.

(** [\d]: one decimal digit at the start of the string. *)
Definition match_digit (E : Env) (s : string) : option (Z * string) :=
  '(cp, rest) ← decode_utf8 s;
  d ← code_point_decimal E cp;
  Some (d, rest).

(** A literal character of the pattern. *)
Definition match_char (c : ascii) (s : string) : option string :=
  match s with
  | String c0 rest => if Ascii.eqb c0 c then Some rest else None
  | EmptyString => None
  end.

(** A set [[0-n]] of the pattern: one ASCII digit up to [n]. *)
Definition match_digit_upto (n : Z) (s : string) : option (Z * string) :=
  match s with
  | String c rest =>
    match digit_value c with
    | Some d => if d <=? n then Some (d, rest) else None
    | None => None
    end
  | EmptyString => None
  end.

(** The alternatives of the directive [%H], the regular expression
    [2[0-3]|[0-1]\d|\d], in the order the matcher tries them; each gives the
    value that [int] reads from the matched text, and the rest of the
    string. *)
Definition match_H (E : Env) (s : string) : list (Z * string) :=
  option_list (r ← match_char "2" s;
               '(d, rest) ← match_digit_upto 3 r;
               Some (20 + d, rest)) ++
  option_list ('(d1, r) ← match_digit_upto 1 s;
               '(d2, rest) ← match_digit E r;
               Some (10 * d1 + d2, rest)) ++
  option_list (match_digit E s).

(** The alternatives of [%M], the regular expression [[0-5]\d|\d]. *)
Definition match_M (E : Env) (s : string) : list (Z * string) :=
  option_list ('(d1, r) ← match_digit_upto 5 s;
               '(d2, rest) ← match_digit E r;
               Some (10 * d1 + d2, rest)) ++
  option_list (match_digit E s).

(** The literal [:] between the two directives. *)
Definition match_colon (s : string) : list string :=
  option_list (match_char ":" s).

(** [format_regex.match(data_string)]: the first way, with backtracking, to
    match [%H:%M] at the start of the string; the unmatched rest is kept. *)
Definition regex_match_HM (E : Env) (s : string) : option (Z * Z * string) :=
  head (hr ← match_H E s;
        r ← match_colon hr.2;
        mr ← match_M E r;
        [(hr.1, mr.1, mr.2)]).

(** [datetime.strptime(s, "%H:%M")]: [ValueError] when the string does not
    match or when unconverted data remains; otherwise the naive datetime
    1900-01-01 H:M:00. *)
Definition strptime_HM (E : Env) (s : string) : outcome datetime :=
  match regex_match_HM E s with
  | Some (h, m, EmptyString) => Ok (mkDT (ymd2ord 1900 1 1) h m 0 0)
  | _ => Raise ValueError
  end.

(** ** Resolving a time specifier: [get_theme_time] *)

Definition times_of_sun : gset string :=
  {[ "dawn"; "sunrise"; "noon"; "sunset"; "dusk" ]}.

(** [float(v)] on a coordinate: [None] (the key is absent), a date or time,
    an array and a table raise [TypeError]; a string raises [ValueError]
    unless it is a number; an integer, a float and a boolean (which
    [tomlkit] hands over as a Python [bool]) convert.  ([float] raises
    [OverflowError] on an integer only from 2^1024 on, far beyond the 64
    bits of a TOML integer.) *)
Definition py_float (E : Env) (v : option toml) : outcome toml :=
  match v with
  | None => Raise TypeError
  | Some (TString s) =>
    if float_accepts E s then Ok (TString s) else Raise ValueError
  | Some (TInteger z) => Ok (TInteger z)
  | Some (TFloat m e) => Ok (TFloat m e)
  | Some (TBool b) => Ok (TBool b)
  | Some (TDateTime text) => Raise TypeError
  | Some (TArray items) => Raise TypeError
  | Some (TTable t) => Raise TypeError
  end.

(** The loop [for k, v in d.items(): try: d[k] = float(v) except ValueError:
    ok = False]: a [ValueError] is caught and clears [ok]; any other
    exception leaves the loop. *)
Fixpoint convert_coordinates (E : Env) (d : list (option toml)) (ok : bool)
  : outcome (list (option toml) * bool) :=
  match d with
  | [] => Ok ([], ok)
  | v :: rest =>
    match py_float E v with
    | Ok f =>
      r ← convert_coordinates E rest ok; Ok (Some f :: r.1, r.2)
    | Raise ValueError =>
      r ← convert_coordinates E rest false; Ok (v :: r.1, r.2)
    | Raise e => Raise e
    | SysExit msg => SysExit msg
    end
  end.

(** [get_theme_time(theme, now_time)].  [now_time] is the reading of the
    UTC clock that the caller took just before the call; the date that
    [sun(obs)] reads from the same clock is taken to be the date of
    [now_time]. *)
Definition get_theme_time (E : Env) (circadian : Circadian) (th : theme)
    (now_time : datetime) : outcome datetime :=
  let theme_time_str := time th in
  parsed ←
    (if bool_decide (theme_time_str ∈ times_of_sun) then
       let s_lat := default ∅ (coordinates circadian) !! "latitude" in
       let s_lon := default ∅ (coordinates circadian) !! "longitude" in
       conv ← convert_coordinates E [s_lat; s_lon] true;
       if negb conv.2 then SysExit (MsgCoordinates s_lat s_lon)
       else
         match conv.1 with
         | [Some lat; Some lon] =>
           match astral_sun E lat lon (ordinal now_time) theme_time_str with
           | Some t => Ok (t, Aware 0)
           | None => Raise ValueError
           end
         | _ => Raise TypeError
         end
     else
       match strptime_HM E (time th) with
       | Ok t => Ok (t, Naive)
       | Raise ValueError => SysExit (MsgTimeFormat (time th))
       | Raise e => Raise e
       | SysExit msg => SysExit msg
       end);
  let theme_time := replace_date parsed.1 now_time in
  let localized := astimezone_local E theme_time parsed.2 in
  let theme_time := astimezone_utc localized.1 localized.2 in
  Ok theme_time.

(** ** Writing the colour block: [switch_theme] *)

(** An armed [threading.Timer]: its delay in seconds and the theme data
    given to [thread_switch_theme]. *)
Record timer : Type := mkTimer {
  interval : Z;
  timer_args : gmap string toml
}.

(** The mutable globals: the document [config], the contents of the file
    [alacritty_dest] ([None] while it does not exist) and [thread_list]. *)
Record State : Type := mkState {
  config : gmap string toml;
  dest_file : option (gmap string toml);
  thread_list : list timer
}.

(** [config["colors"] = theme_data["colors"]], then the dump of [config] to
    the destination.  A theme without [colors] raises [KeyError] before
    anything changes; a destination that cannot be opened raises after
    [config] has changed. *)
Definition switch_theme (E : Env) (theme_data : gmap string toml) (st : State)
  : outcome unit * State :=
  match theme_data !! "colors" with
  | None => (Raise KeyError, st)
  | Some colors =>
    let config' := <["colors" := colors]> (config st) in
    if dest_opens E
    then (Ok (), mkState config' (Some config') (thread_list st))
    else (Raise OSError, mkState config' (dest_file st) (thread_list st))
  end.

(** ** Choosing the theme that is due: [set_appropriate_theme] *)

(** The body of the loop after the resolution:
    [switch_time = now_time.replace(hour=theme_time.hour,
    minute=theme_time.minute, second=0, microsecond=0)],
    [delta_t = now_time - switch_time], [seconds = delta_t.seconds + 1]. *)
Definition candidate (theme_time now_time : datetime) : datetime :=
  replace_time now_time (hour theme_time) (minute theme_time) 0 0.

Definition elapsed_seconds (theme_time now_time : datetime) : Z :=
  let switch_time := candidate theme_time now_time in
  let delta_t := dt_sub now_time switch_time in
  td_seconds delta_t + 1.

(** The loop over the themes; [diff] starts at -1 and [preferred_theme] is
    unbound ([None]) until the first assignment. *)
Fixpoint select_loop (E : Env) (circadian : Circadian) (now_time : datetime)
    (ths : list theme) (diff : Z) (preferred_theme : option theme)
  : outcome (Z * option theme) :=
  match ths with
  | [] => Ok (diff, preferred_theme)
  | th :: rest =>
    theme_time ← get_theme_time E circadian th now_time;
    let seconds := elapsed_seconds theme_time now_time in
    if (0 <? seconds) && ((seconds <? diff) || (diff =? -1))
    then select_loop E circadian now_time rest seconds (Some th)
    else select_loop E circadian now_time rest diff preferred_theme
  end.

(** The part of [set_appropriate_theme] that picks [preferred_theme]; the
    read of an unbound [preferred_theme] raises [UnboundLocalError]. *)
Definition select_theme (E : Env) (circadian : Circadian)
    (now_time : datetime) : outcome theme :=
  match themes circadian with
  | None => SysExit MsgNoThemeSection
  | Some [] => SysExit MsgNoThemes
  | Some ths =>
    r ← select_loop E circadian now_time ths (-1) None;
    match r.2 with
    | Some preferred_theme => Ok preferred_theme
    | None => Raise UnboundLocalError
    end
  end.

Definition set_appropriate_theme (E : Env) (circadian : Circadian)
    (now_time : datetime) (st : State) : outcome unit * State :=
  match select_theme E circadian now_time with
  | Ok preferred_theme =>
    match theme_files E !! name preferred_theme with
    | None => (SysExit (MsgNotInstalled (name preferred_theme)), st)
    | Some theme_data => switch_theme E theme_data st
    end
  | SysExit msg => (SysExit msg, st)
  | Raise e => (Raise e, st)
  end.

(** ** Arming the timers: one pass of the loop of [set_theme_switch_timers] *)

(** From the resolved [theme_time] to [switch_time] and the delay given to
    [Timer]. *)
Definition arm_entry (theme_time now_time : datetime)
  : outcome (datetime * Z) :=
  switch_time ←
    (if dt_ltb theme_time now_time then
       let switch_time :=
         replace_time now_time (hour theme_time) (minute theme_time) 0 0 in
       add_days switch_time 1
     else
       Ok (replace_time now_time (hour theme_time) (minute theme_time) 0 0));
  let delta_t := dt_sub switch_time now_time in
  let seconds := td_seconds delta_t + 1 in
  Ok (switch_time, seconds).

(** [for theme in circadian["themes"]: ...]; every timer is appended to
    [thread_list] and stays there when a later entry fails. *)
Fixpoint arm_timers (E : Env) (circadian : Circadian) (now_time : datetime)
    (ths : list theme) (st : State) : outcome unit * State :=
  match ths with
  | [] => (Ok (), st)
  | th :: rest =>
    match theme_files E !! name th with
    | None => (SysExit (MsgNotInstalled (name th)), st)
    | Some theme_data =>
      match theme_time ← get_theme_time E circadian th now_time;
            arm_entry theme_time now_time with
      | Ok (switch_time, seconds) =>
        let timer_thread := mkTimer seconds theme_data in
        arm_timers E circadian now_time rest
          (mkState (config st) (dest_file st)
                   (thread_list st ++ [timer_thread]))
      | SysExit msg => (SysExit msg, st)
      | Raise e => (Raise e, st)
      end
    end
  end.

Definition arm_cycle (E : Env) (circadian : Circadian) (now_time : datetime)
    (st : State) : outcome unit * State :=
  match themes circadian with
  | None => (Raise KeyError, st)
  | Some ths => arm_timers E circadian now_time ths st
  end.

(** ** Sample surroundings *)

(** [float] on ASCII strings of the shape [digits] or [digits.digits] with
    an optional sign; enough for the coordinates of the examples. *)
Fixpoint all_digits (s : string) : bool :=
  match s with
  | EmptyString => true
  | String c rest => bool_decide (is_Some (digit_value c)) && all_digits rest
  end.

Fixpoint split_at_dot (s : string) : string * option string :=
  match s with
  | EmptyString => (EmptyString, None)
  | String c rest =>
    if Ascii.eqb c "."%char then (EmptyString, Some rest)
    else let r := split_at_dot rest in (String c r.1, r.2)
  end.

Definition decimal_literal (s : string) : bool :=
  let body :=
    match s with
    | String c rest =>
      if Ascii.eqb c "-"%char || Ascii.eqb c "+"%char then rest else s
    | EmptyString => s
    end in
  match split_at_dot body with
  | (ip, None) => negb (String.eqb ip "") && all_digits ip
  | (ip, Some fp) =>
    negb (String.eqb ip "" && String.eqb fp "") && all_digits ip && all_digits fp
  end.

(** The decimal digits of Unicode 14.0 beyond ASCII: 65 runs of ten
    consecutive code points with the values 0 to 9, given by their zeros
    (U+0660 ARABIC-INDIC DIGIT ZERO is 1632, U+FF10 FULLWIDTH DIGIT ZERO is
    65296). *)
Definition decimal_zeros : list N :=
  [1632; 1776; 1984; 2406; 2534; 2662; 2790; 2918; 3046; 3174; 3302;
   3430; 3558; 3664; 3792; 3872; 4160; 4240; 6112; 6160; 6470; 6608;
   6784; 6800; 6992; 7088; 7232; 7248; 42528; 43216; 43264; 43472; 43504;
   43600; 44016; 65296; 66720; 68912; 69734; 69872; 69942; 70096; 70384;
   70736; 70864; 71248; 71360; 71472; 71904; 72016; 72784; 73040; 73120;
   92768; 92864; 93008; 120782; 120792; 120802; 120812; 120822; 123200;
   123632; 125264; 130032]%N.

Definition sample_unicode_decimal (cp : N) : option Z :=
  z ← find (fun z => (z <=? cp) && (cp <? z + 10))%N decimal_zeros;
  Some (Z.of_N (cp - z)).

(** An almanac for the examples, whatever the coordinates: the times of
    the five events of a summer day for the dates from 2024-03-20 to
    2024-09-21, and those of a winter day for the other dates. *)
Definition sample_sun (lat lon : toml) (date : Z) (token : string)
  : option datetime :=
  let at_ (h m s h' m' s' : Z) :=
    Some (if (ymd2ord 2024 3 20 <=? date) && (date <? ymd2ord 2024 9 22)
          then mkDT date h m s 0 else mkDT date h' m' s' 0) in
  if String.eqb token "dawn" then at_ 2 55 27 7 24 6
  else if String.eqb token "sunrise" then at_ 3 43 8 8 4 11
  else if String.eqb token "noon" then at_ 12 2 12 11 58 20
  else if String.eqb token "sunset" then at_ 20 21 33 15 53 2
  else if String.eqb token "dusk" then at_ 21 9 11 16 33 9
  else None.

(** A theme folder with three themes. *)
Definition colors_of (bg : string) : gmap string toml :=
  {[ "colors" := TTable {[ "background" := TString bg ]} ]}.

Definition sample_themes : gmap string (gmap string toml) :=
  {[ "A" := colors_of "#fdf6e3";
     "B" := colors_of "#002b36";
     "C" := colors_of "#000000" ]}.

(** A zone of constant offset [c] (seconds east of UTC). *)
Definition fixed_zone (c : Z) : Env :=
  mkEnv (fun _ => c) decimal_literal sample_unicode_decimal sample_sun
        sample_themes true.

Definition utc_zone : Env := fixed_zone 0.

(** America/New_York around 2024-03-10: UTC-5 until 07:00:00 UTC of that
    day (POSIX time 1710054000), UTC-4 from then on. *)
Definition new_york_2024 : Env :=
  mkEnv (fun u => if u <? 1710054000 then -18000 else -14400)
        decimal_literal sample_unicode_decimal sample_sun sample_themes true.

(** America/Sao_Paulo around 2018-11-04: UTC-3 until 03:00:00 UTC of that
    day (POSIX time 1541300400, midnight in local time), UTC-2 from then
    on: the hour from 00:00 to 01:00 of that day is skipped. *)
Definition sao_paulo_2018 : Env :=
  mkEnv (fun u => if u <? 1541300400 then -10800 else -7200)
        decimal_literal sample_unicode_decimal sample_sun sample_themes true.

Definition ABC : list theme :=
  [mkTheme "A" "10:00"; mkTheme "B" "14:00"; mkTheme "C" "18:00"].

Definition circadian_ABC : Circadian := mkCircadian None (Some ABC).

(** ** The selector as the specification words it *)

(** [elapsedSeconds = now - candidate], in seconds truncated toward zero,
    plus one. *)
Definition spec_elapsed (cand now_time : datetime) : Z :=
  Z.quot (to_us now_time - to_us cand) 1000000 + 1.

(** Among the candidates with [elapsedSeconds > 0], the smallest; a tie
    keeps the earlier entry. *)
Fixpoint spec_select_loop (cands : list (theme * Z))
    (best : option (theme * Z)) : option (theme * Z) :=
  match cands with
  | [] => best
  | (th, e) :: rest =>
    if 0 <? e then
      match best with
      | Some (_, b) =>
        spec_select_loop rest (if e <? b then Some (th, e) else best)
      | None => spec_select_loop rest (Some (th, e))
      end
    else spec_select_loop rest best
  end.

Fixpoint spec_candidates (E : Env) (circadian : Circadian)
    (now_time : datetime) (ths : list theme) : option (list (theme * Z)) :=
  match ths with
  | [] => Some []
  | th :: rest =>
    match get_theme_time E circadian th now_time with
    | Ok theme_time =>
      option_map
        (cons (th, spec_elapsed (candidate theme_time now_time) now_time))
        (spec_candidates E circadian now_time rest)
    | _ => None
    end
  end.

Definition spec_select (E : Env) (circadian : Circadian)
    (now_time : datetime) : option theme :=
  ths ← themes circadian;
  cands ← spec_candidates E circadian now_time ths;
  fst <$> spec_select_loop cands None.

(** ** Vocabulary of the statements *)

(** The value of [seconds] that the loop of [set_appropriate_theme]
    computes for an entry. *)
Definition resolve_elapsed (E : Env) (circadian : Circadian)
    (now_time : datetime) (th : theme) : outcome Z :=
  theme_time ← get_theme_time E circadian th now_time;
  Ok (elapsed_seconds theme_time now_time).

(** Entry [p], at index [i], has the least value [s] of [el], and no entry
    before index [i] reaches it. *)
Definition first_minimum (el : theme -> outcome Z) (ths : list theme)
    (i : nat) (p : theme) (s : Z) : Prop :=
  ths !! i = Some p /\ el p = Ok s /\
  forall (j : nat) (q : theme) (sq : Z),
    ths !! j = Some q -> el q = Ok sq -> s <= sq /\ ((j < i)%nat -> s < sq).

Definition all_resolve (E : Env) (circadian : Circadian)
    (now_time : datetime) (ths : list theme) : Prop :=
  Forall (fun th => exists theme_time,
            get_theme_time E circadian th now_time = Ok theme_time) ths.

(** The invariant of the loop of [set_appropriate_theme] after the entries
    [seen]. *)
Definition loop_inv (el : theme -> outcome Z) (seen : list theme)
    (diff : Z) (preferred_theme : option theme) : Prop :=
  match preferred_theme with
  | None => seen = [] /\ diff = -1
  | Some p => 1 <= diff /\ exists i, first_minimum el seen i p diff
  end.

Definition circadian_6_18 : Circadian :=
  mkCircadian None (Some [mkTheme "A" "06:00"; mkTheme "B" "18:00"]).

(** ** Shapes of clock strings *)

(** One or two ASCII digits and the number they denote. *)
Inductive digits_value : string -> Z -> Prop :=
| digits_one c d :
    digit_value c = Some d -> digits_value (String c EmptyString) d
| digits_two c1 c2 d1 d2 :
    digit_value c1 = Some d1 -> digit_value c2 = Some d2 ->
    digits_value (String c1 (String c2 EmptyString)) (10 * d1 + d2).

(** The clock strings of ASCII characters: an hour of one or two digits up
    to 23, a colon, a minute of one or two digits up to 59. *)
Definition clock_string (s : string) (h m : Z) : Prop :=
  exists hs ms,
    s = String.append hs (String ":"%char ms) /\
    digits_value hs h /\ digits_value ms m /\ h <= 23 /\ m <= 59.

(** The shape the specification asks for: two digits, a colon, two digits. *)
Definition two_digit_colon_two_digit (s : string) : bool :=
  match s with
  | String c1 (String c2 (String c3 (String c4 (String c5 EmptyString)))) =>
    bool_decide (is_Some (digit_value c1)) &&
    bool_decide (is_Some (digit_value c2)) &&
    Ascii.eqb c3 ":"%char &&
    bool_decide (is_Some (digit_value c4)) &&
    bool_decide (is_Some (digit_value c5))
  | _ => false
  end.

(** The number of colons of a string. *)
Fixpoint colons (s : string) : nat :=
  match s with
  | EmptyString => 0%nat
  | String c rest => ((if Ascii.eqb c ":"%char then 1 else 0) + colons rest)%nat
  end.

(** One decimal digit of Unicode, in UTF-8, and its value. *)
Definition decimal_digit (E : Env) (ds : string) (d : Z) : Prop :=
  exists cp, decode_utf8 ds = Some (cp, EmptyString) /\
             code_point_decimal E cp = Some d.

(** An hour that [%H] reads: one decimal digit; the ASCII digit 0 or 1 and
    one decimal digit; or the ASCII digit 2 and an ASCII digit up to 3. *)
Inductive hour_text (E : Env) : string -> Z -> Prop :=
| hour_digit ds d :
    decimal_digit E ds d -> hour_text E ds d
| hour_tens c1 ds d1 d2 :
    digit_value c1 = Some d1 -> d1 <= 1 -> decimal_digit E ds d2 ->
    hour_text E (String c1 ds) (10 * d1 + d2)
| hour_twenties c2 d2 :
    digit_value c2 = Some d2 -> d2 <= 3 ->
    hour_text E (String "2"%char (String c2 EmptyString)) (20 + d2).

(** A minute that [%M] reads: one decimal digit, or an ASCII digit up to 5
    and one decimal digit. *)
Inductive minute_text (E : Env) : string -> Z -> Prop :=
| minute_digit ds d :
    decimal_digit E ds d -> minute_text E ds d
| minute_tens c1 ds d1 d2 :
    digit_value c1 = Some d1 -> d1 <= 5 -> decimal_digit E ds d2 ->
    minute_text E (String c1 ds) (10 * d1 + d2).

(** What [strptime] accepts for [%H:%M]: an hour, a colon, a minute. *)
Definition clock_text (E : Env) (s : string) (h m : Z) : Prop :=
  exists hs ms,
    s = String.append hs (String ":"%char ms) /\
    hour_text E hs h /\ minute_text E ms m.

(** The strings of ASCII characters. *)
Fixpoint is_ascii (s : string) : bool :=
  match s with
  | EmptyString => true
  | String c rest => (N_of_ascii c <? 128)%N && is_ascii rest
  end.

(** The steps of [get_theme_time] after the parse of a clock string: the
    date of [now_time], then local time, then UTC. *)
Definition resolve_clock (E : Env) (parsed now_time : datetime) : datetime :=
  let theme_time := replace_date parsed now_time in
  let localized := astimezone_local E theme_time Naive in
  astimezone_utc localized.1 localized.2.

(** The UTC offset that [astimezone] gives the naive wall-clock reading
    [d]: the offset of the local zone at the instant that [mktime] finds
    for [d]. *)
Definition chosen_offset (E : Env) (d : datetime) : Z :=
  tm_gmtoff E (local_to_seconds E d).

(** The wall-clock reading [d] exists in the local zone: the instant that
    [mktime] finds for [d] reads [d] in local time.  A reading that a clock
    change skips does not exist. *)
Definition wall_clock_exists (E : Env) (d : datetime) : Prop :=
  local E (local_to_seconds E d) = utc_to_seconds d.

(** By how many seconds the local reading of the instant resolved for [d]
    is ahead of [d]. *)
Definition reading_shift (E : Env) (d : datetime) : Z :=
  tm_gmtoff E (utc_to_seconds d - chosen_offset E d) - chosen_offset E d.

(** A schedule with solar tokens and its coordinates. *)
Definition circadian_solar : Circadian :=
  mkCircadian
    (Some {[ "latitude" := TFloat 515 (-1); "longitude" := TFloat (-1) (-1) ]})
    (Some [mkTheme "A" "sunrise"; mkTheme "B" "sunset"]).

(** A schedule with a clock entry before a solar entry, once with a
    latitude that is not a number and once without coordinates. *)
Definition clock_then_solar : list theme :=
  [mkTheme "A" "10:00"; mkTheme "B" "sunset"].

Definition circadian_bad_latitude : Circadian :=
  mkCircadian
    (Some {[ "latitude" := TString "abc"; "longitude" := TFloat (-1) (-1) ]})
    (Some clock_then_solar).

Definition circadian_no_coordinates : Circadian :=
  mkCircadian None (Some clock_then_solar).

(** [get_theme_time] on a schedule entry and a [coordinates] value of any
    kind.  [theme["time"]] raises [KeyError] when the entry has no [time];
    for a [time] that is not a string, [theme_time_str in times_of_sun] is
    false or raises [TypeError] (a value that cannot be hashed), and
    [strptime] raises [TypeError], which [except ValueError] does not
    catch; for a solar token, [.get("latitude")] on a [coordinates] value
    that is not a table raises [AttributeError].  On an entry with a
    string [time] and with [coordinates] absent or a table this is
    [get_theme_time] above, which reads nothing else of the entry and of
    the configuration. *)
Definition get_theme_time_untyped (E : Env) (coords : option toml)
    (entry : gmap string toml) (now_time : datetime) : outcome datetime :=
  match entry !! "time" with
  | None => Raise KeyError
  | Some (TString s) =>
    let th := mkTheme "" s in
    if bool_decide (s ∈ times_of_sun) then
      match coords with
      | None => get_theme_time E (mkCircadian None None) th now_time
      | Some (TTable t) =>
        get_theme_time E (mkCircadian (Some t) None) th now_time
      | Some _ => Raise AttributeError
      end
    else get_theme_time E (mkCircadian None None) th now_time
  | Some _ => Raise TypeError
  end.

(** The value that [circadian.get("coordinates", {}).get(k)] reads. *)
Definition coordinate (coords : option toml) (k : string) : option toml :=
  match coords with
  | Some (TTable t) => t !! k
  | _ => None
  end.

(** A coordinate that [float] cannot take: the key is absent ([None]) or the
    value is a date or time, an array or a table. *)
Definition unconvertible (v : option toml) : Prop :=
  match v with
  | None | Some (TDateTime _) | Some (TArray _) | Some (TTable _) => True
  | Some (TString _) | Some (TInteger _) | Some (TFloat _ _)
  | Some (TBool _) => False
  end.

(** The [n]-th occurrence day of the hour and minute of [theme_time]: that
    hour and minute, with zero seconds, on the day of ordinal [day]. *)
Definition occurrence (theme_time : datetime) (day : Z) : datetime :=
  mkDT day (hour theme_time) (minute theme_time) 0 0.

(** The start of [set_theme_switch_timers]: [set_appropriate_theme] at the
    instant [now0], then the first pass of the loop at the instant [now1]
    (the clock is read again); an exit or an exception of the first step
    ends the function. *)
Definition set_theme_switch_timers_first_pass (E : Env) (circadian : Circadian)
    (now0 now1 : datetime) (st : State) : outcome unit * State :=
  match set_appropriate_theme E circadian now0 st with
  | (Ok _, st1) => arm_cycle E circadian now1 st1
  | (SysExit msg, st1) => (SysExit msg, st1)
  | (Raise e, st1) => (Raise e, st1)
  end.

(** Two results of [astral] agree in the time of day: both fail, or both
    give the same hour, minute, second and microsecond. *)
Definition same_time_of_day (a b : option datetime) : Prop :=
  match a, b with
  | Some x, Some y =>
    hour x = hour y /\ minute x = minute y /\ second x = second y /\
    microsecond x = microsecond y
  | None, None => True
  | _, _ => False
  end.

(** An entry can be armed: its theme file is there, its time resolves and
    the next day, where needed, exists. *)
Definition armable (E : Env) (circadian : Circadian) (now_time : datetime)
    (th : theme) : Prop :=
  is_Some (theme_files E !! name th) /\
  exists theme_time switch_time seconds,
    get_theme_time E circadian th now_time = Ok theme_time /\
    arm_entry theme_time now_time = Ok (switch_time, seconds).

(** Surroundings whose theme folder lacks the theme C. *)
Definition folder_without_C : Env :=
  mkEnv (fun _ => 0) decimal_literal sample_unicode_decimal sample_sun
        {[ "A" := colors_of "#fdf6e3"; "B" := colors_of "#002b36" ]} true.

(** * Properties *)

(** ** Arithmetic of datetimes *)

Lemma to_us_of_us (n : Z) : to_us (of_us n) = n.
Proof.
  unfold to_us, of_us, day_seconds; cbn [ordinal hour minute second microsecond].
  set (s := n / 1000000).
  pose proof (Z.div_mod n 1000000 ltac:(lia)) as Hn. fold s in Hn.
  pose proof (Z.div_mod s 86400 ltac:(lia)) as Hs.
  set (sod := s mod 86400) in *.
  pose proof (Z.mod_pos_bound s 86400 ltac:(lia)) as Hb. fold sod in Hb.
  pose proof (Z.div_mod sod 3600 ltac:(lia)) as H1.
  pose proof (Z.div_mod (sod mod 3600) 60 ltac:(lia)) as H2.
  assert (H3 : (sod mod 3600) mod 60 = sod mod 60).
  { apply Z.mod_mod_divide. exists 60. lia. }
  rewrite H3 in H2. lia.
Qed.

Lemma of_us_valid (n : Z) : valid_time (of_us n).
Proof.
  unfold valid_time, of_us; cbn [hour minute second microsecond].
  set (sod := (n / 1000000) mod 86400).
  pose proof (Z.mod_pos_bound (n / 1000000) 86400 ltac:(lia)) as Hb.
  fold sod in Hb.
  pose proof (Z.mod_pos_bound sod 3600 ltac:(lia)).
  pose proof (Z.mod_pos_bound sod 60 ltac:(lia)).
  pose proof (Z.mod_pos_bound n 1000000 ltac:(lia)).
  repeat split; try lia.
  - apply Z.div_pos; lia.
  - apply Z.div_lt_upper_bound; lia.
  - apply Z.div_pos; lia.
  - apply Z.div_lt_upper_bound; lia.
Qed.

Lemma of_us_to_us (d : datetime) : valid_time d -> of_us (to_us d) = d.
Proof.
  intros (Hh & Hm & Hs & Hu). destruct d as [o h m s u]; cbn in *.
  unfold of_us, to_us, day_seconds; cbn [ordinal hour minute second microsecond].
  assert (E1 : ((o * 86400 + (h * 3600 + m * 60 + s)) * 1000000 + u) / 1000000
               = o * 86400 + (h * 3600 + m * 60 + s)).
  { symmetry. apply (Z.div_unique _ _ _ u); lia. }
  assert (E2 : ((o * 86400 + (h * 3600 + m * 60 + s)) * 1000000 + u) mod 1000000
               = u).
  { symmetry. apply (Z.mod_unique _ _ (o * 86400 + (h * 3600 + m * 60 + s))); lia. }
  rewrite E1, E2.
  assert (E3 : (o * 86400 + (h * 3600 + m * 60 + s)) / 86400 = o).
  { symmetry. apply (Z.div_unique _ _ _ (h * 3600 + m * 60 + s)); lia. }
  assert (E4 : (o * 86400 + (h * 3600 + m * 60 + s)) mod 86400
               = h * 3600 + m * 60 + s).
  { symmetry. apply (Z.mod_unique _ _ o); lia. }
  rewrite E3, E4.
  assert (E5 : (h * 3600 + m * 60 + s) / 3600 = h).
  { symmetry. apply (Z.div_unique _ _ _ (m * 60 + s)); lia. }
  assert (E6 : (h * 3600 + m * 60 + s) mod 3600 = m * 60 + s).
  { symmetry. apply (Z.mod_unique _ _ h); lia. }
  assert (E7 : (m * 60 + s) / 60 = m).
  { symmetry. apply (Z.div_unique _ _ _ s); lia. }
  assert (E8 : (h * 3600 + m * 60 + s) mod 60 = s).
  { symmetry. apply (Z.mod_unique _ _ (h * 60 + m)); lia. }
  rewrite E5, E6, E7, E8. reflexivity.
Qed.

Lemma to_us_inj (a b : datetime) :
  valid_time a -> valid_time b -> to_us a = to_us b -> a = b.
Proof.
  intros Ha Hb E. rewrite <- (of_us_to_us a Ha), <- (of_us_to_us b Hb).
  now rewrite E.
Qed.

Lemma add_seconds_add_seconds (d : datetime) (x y : Z) :
  add_seconds (add_seconds d x) y = add_seconds d (x + y).
Proof.
  unfold add_seconds. rewrite to_us_of_us. f_equal. lia.
Qed.

Lemma add_seconds_0 (d : datetime) : valid_time d -> add_seconds d 0 = d.
Proof.
  intros H. unfold add_seconds. rewrite Z.add_0_r. now apply of_us_to_us.
Qed.

Lemma add_seconds_valid (d : datetime) (x : Z) : valid_time (add_seconds d x).
Proof. apply of_us_valid. Qed.

(** [delta.seconds] always lies in [0, 86399]. *)
Lemma td_seconds_range (a b : datetime) :
  0 <= td_seconds (dt_sub a b) < 86400.
Proof.
  unfold dt_sub, make_timedelta, timedelta_of_us; cbn [td_seconds].
  apply Z.mod_pos_bound. lia.
Qed.

Lemma dt_sub_to_us (a b : datetime) :
  dt_sub a b = timedelta_of_us (to_us a - to_us b).
Proof.
  unfold dt_sub, make_timedelta, to_us. f_equal. lia.
Qed.

Lemma td_whole_seconds_of_us (n : Z) :
  td_whole_seconds (timedelta_of_us n) = n / 1000000.
Proof.
  unfold td_whole_seconds, timedelta_of_us; cbn [td_days td_seconds].
  pose proof (Z.div_mod (n / 1000000) 86400 ltac:(lia)). lia.
Qed.

Lemma dt_ltb_to_us (a b : datetime) :
  valid_time a -> valid_time b -> dt_ltb a b = (to_us a <? to_us b).
Proof.
  intros (Hh & Hm & Hs & Hu) (Hh' & Hm' & Hs' & Hu').
  unfold dt_ltb, to_us, day_seconds.
  destruct (Z.compare_spec (ordinal a) (ordinal b));
    [destruct (Z.compare_spec (hour a) (hour b));
      [destruct (Z.compare_spec (minute a) (minute b));
        [destruct (Z.compare_spec (second a) (second b)) | |] | |] | |];
    symmetry; try (apply Z.ltb_lt; lia); try (apply Z.ltb_ge; lia).
  destruct (Z.ltb_spec (microsecond a) (microsecond b));
    [apply Z.ltb_lt | apply Z.ltb_ge]; lia.
Qed.

(** ** The selection loop *)

Lemma elapsed_seconds_range (theme_time now_time : datetime) :
  1 <= elapsed_seconds theme_time now_time <= 86400.
Proof.
  unfold elapsed_seconds.
  pose proof (td_seconds_range now_time (candidate theme_time now_time)). lia.
Qed.

Lemma get_theme_time_valid E circadian th now_time theme_time :
  get_theme_time E circadian th now_time = Ok theme_time ->
  valid_time theme_time.
Proof.
  unfold get_theme_time. intros H.
  match type of H with (mbind _ ?m) = _ => destruct m as [parsed | |] end;
    cbn in H; try discriminate.
  injection H as <-. apply add_seconds_valid.
Qed.

Lemma py_float_raises E v e :
  py_float E v = Raise e -> e = TypeError \/ e = ValueError.
Proof.
  destruct v as [[s | z | m x | b | text | items | t] |]; cbn;
    try destruct (float_accepts E s); intros [=]; auto.
Qed.

Lemma py_float_no_exit E v msg : py_float E v <> SysExit msg.
Proof.
  destruct v as [[s | z | m x | b | text | items | t] |]; cbn;
    try destruct (float_accepts E s); discriminate.
Qed.

Lemma convert_coordinates_raises E d ok e :
  convert_coordinates E d ok = Raise e -> e = TypeError.
Proof.
  revert ok. induction d as [| v rest IH]; intros ok H; cbn in H.
  - discriminate.
  - destruct (py_float E v) as [f | msg | e'] eqn:P.
    + destruct (convert_coordinates E rest ok) eqn:R; cbn in H;
        try discriminate. injection H as <-. eauto.
    + discriminate.
    + destruct (py_float_raises _ _ _ P) as [-> | ->].
      * congruence.
      * destruct (convert_coordinates E rest false) eqn:R; cbn in H;
          try discriminate. injection H as <-. eauto.
Qed.

Lemma strptime_HM_raises E s e : strptime_HM E s = Raise e -> e = ValueError.
Proof.
  unfold strptime_HM.
  destruct (regex_match_HM E s) as [[[h m] [| c r]] |]; congruence.
Qed.

Lemma strptime_HM_no_exit E s msg : strptime_HM E s <> SysExit msg.
Proof.
  unfold strptime_HM.
  destruct (regex_match_HM E s) as [[[h m] [| c r]] |]; congruence.
Qed.

(** [get_theme_time] lets only [TypeError] and [ValueError] escape. *)
Lemma get_theme_time_raises E circadian th now_time e :
  get_theme_time E circadian th now_time = Raise e ->
  e = TypeError \/ e = ValueError.
Proof.
  unfold get_theme_time. intros H.
  destruct (bool_decide (time th ∈ times_of_sun)).
  - destruct (convert_coordinates E _ true) as [[l ok] | |] eqn:C; cbn in H.
    + destruct ok; cbn in H; [| discriminate].
      destruct l as [| [lat |] [| [lon |] [| ? ?]]]; cbn in H;
        try (injection H as <-; auto).
      destruct (astral_sun E lat lon (ordinal now_time) (time th)); cbn in H;
        [discriminate | injection H as <-; auto].
    + discriminate.
    + injection H as <-. left. eapply convert_coordinates_raises; eauto.
  - destruct (strptime_HM E (time th)) as [t | msg | e'] eqn:P; cbn in H.
    + discriminate.
    + discriminate.
    + pose proof (strptime_HM_raises _ _ _ P) as ->. discriminate.
Qed.

Lemma select_loop_inv E circadian now_time ths :
  forall seen diff preferred_theme,
    all_resolve E circadian now_time ths ->
    loop_inv (resolve_elapsed E circadian now_time) seen diff preferred_theme ->
    exists diff' preferred',
      select_loop E circadian now_time ths diff preferred_theme
        = Ok (diff', preferred') /\
      loop_inv (resolve_elapsed E circadian now_time) (seen ++ ths)
               diff' preferred'.
Proof.
  induction ths as [| th rest IH]; intros seen diff pref Hall Hinv.
  - exists diff, pref. rewrite app_nil_r. split; [reflexivity | assumption].
  - inversion Hall as [| ? ? [tt Htt] Hrest]; subst.
    cbn [select_loop]. rewrite Htt. cbn.
    pose proof (elapsed_seconds_range tt now_time) as Hr.
    set (seconds := elapsed_seconds tt now_time) in *.
    assert (Hel : resolve_elapsed E circadian now_time th = Ok seconds).
    { unfold resolve_elapsed. rewrite Htt. reflexivity. }
    replace (seen ++ th :: rest) with ((seen ++ [th]) ++ rest)
      by (rewrite <- app_assoc; reflexivity).
    destruct (0 <? seconds) eqn:Hpos; [| apply Z.ltb_ge in Hpos; lia].
    destruct ((seconds <? diff) || (diff =? -1)) eqn:Hc; cbn [andb].
    + apply IH; [assumption |]. cbn. split; [lia |].
      exists (length seen). repeat split.
      * rewrite lookup_app_r by lia. now rewrite Nat.sub_diag.
      * assumption.
      * destruct (decide (j < length seen)%nat) as [Hj | Hj].
        -- rewrite lookup_app_l in H by assumption.
           destruct pref as [p |]; cbn in Hinv.
           ++ destruct Hinv as (Hd & i & _ & _ & Hmin).
              destruct (Hmin j q sq H H0) as [Hle _].
              apply orb_true_iff in Hc as [Hc | Hc];
                [apply Z.ltb_lt in Hc | apply Z.eqb_eq in Hc]; lia.
           ++ destruct Hinv as [-> _]. cbn in Hj. lia.
        -- rewrite lookup_app_r in H by lia.
           destruct (j - length seen)%nat eqn:Hn; cbn in H; [| discriminate].
           injection H as <-. rewrite Hel in H0. injection H0 as <-. lia.
      * intros Hj. rewrite lookup_app_l in H by assumption.
        destruct pref as [p |]; cbn in Hinv.
        -- destruct Hinv as (Hd & i & _ & _ & Hmin).
           destruct (Hmin j q sq H H0) as [Hle _].
           apply orb_true_iff in Hc as [Hc | Hc];
             [apply Z.ltb_lt in Hc | apply Z.eqb_eq in Hc]; lia.
        -- destruct Hinv as [-> _]. cbn in Hj. lia.
    + apply orb_false_iff in Hc as [Hlt Hne].
      apply Z.ltb_ge in Hlt. apply Z.eqb_neq in Hne.
      apply IH; [assumption |].
      destruct pref as [p |]; cbn in Hinv |- *; [| lia].
      destruct Hinv as (Hd & i & Hi & Hp & Hmin). split; [assumption |].
      exists i. repeat split.
      * rewrite lookup_app_l; [assumption |]. eapply lookup_lt_Some; eauto.
      * assumption.
      * destruct (decide (j < length seen)%nat) as [Hj | Hj].
        -- rewrite lookup_app_l in H by assumption.
           now destruct (Hmin j q sq H H0).
        -- rewrite lookup_app_r in H by lia.
           destruct (j - length seen)%nat eqn:Hn; cbn in H; [| discriminate].
           injection H as <-. rewrite Hel in H0. injection H0 as <-. lia.
      * intros Hj. apply lookup_lt_Some in Hi.
        rewrite lookup_app_l in H by lia.
        destruct (Hmin j q sq H H0) as [_ Hs]. now apply Hs.
Qed.

Lemma elapsed_seconds_mod (theme_time now_time : datetime) :
  valid_time now_time ->
  elapsed_seconds theme_time now_time
  = (day_seconds now_time - day_seconds (candidate theme_time now_time))
      mod 86400 + 1.
Proof.
  intros (_ & _ & _ & Hu). unfold elapsed_seconds.
  rewrite dt_sub_to_us. unfold timedelta_of_us; cbn [td_seconds].
  f_equal. f_equal.
  unfold to_us, candidate, replace_time, day_seconds;
    cbn [ordinal hour minute second microsecond].
  symmetry. apply (Z.div_unique _ _ _ (microsecond now_time)); lia.
Qed.

Lemma elapsed_seconds_future (theme_time now_time : datetime) :
  valid_time now_time -> valid_time theme_time ->
  dt_ltb now_time (candidate theme_time now_time) = true ->
  elapsed_seconds theme_time now_time
  = day_seconds now_time - day_seconds (candidate theme_time now_time) + 86401.
Proof.
  intros Hn Ht Hlt. rewrite elapsed_seconds_mod by assumption.
  assert (Hc : valid_time (candidate theme_time now_time)).
  { destruct Ht as (? & ? & _). unfold valid_time, candidate; cbn. lia. }
  rewrite dt_ltb_to_us in Hlt by assumption. apply Z.ltb_lt in Hlt.
  destruct Hn as (Hh & Hm & Hs & Hu). destruct Ht as (Hh' & Hm' & _).
  unfold to_us, candidate, replace_time, day_seconds in *;
    cbn [ordinal hour minute second microsecond] in *.
  set (a := hour now_time * 3600 + minute now_time * 60 + second now_time) in *.
  set (b := hour theme_time * 3600 + minute theme_time * 60 + 0) in *.
  assert (E : (a - b) mod 86400 = a - b + 86400).
  { symmetry. apply (Z.mod_unique _ _ (-1)); lia. }
  lia.
Qed.

(** The loop never ends with [preferred_theme] unbound after at least one
    entry, and only lets [TypeError] and [ValueError] escape. *)
Lemma select_loop_result E circadian now_time ths :
  forall diff preferred_theme,
    (preferred_theme = None -> diff = -1) ->
    match select_loop E circadian now_time ths diff preferred_theme with
    | Ok (_, preferred') =>
      preferred' = None -> ths = [] /\ preferred_theme = None
    | SysExit _ => True
    | Raise e => e = TypeError \/ e = ValueError
    end.
Proof.
  induction ths as [| th rest IH]; intros diff pref Hd; cbn [select_loop].
  - auto.
  - destruct (get_theme_time E circadian th now_time) as [tt | msg | e] eqn:G;
      cbn.
    + pose proof (elapsed_seconds_range tt now_time) as Hr.
      set (seconds := elapsed_seconds tt now_time) in *.
      destruct (0 <? seconds) eqn:Hpos; [| apply Z.ltb_ge in Hpos; lia].
      destruct ((seconds <? diff) || (diff =? -1)) eqn:Hc; cbn [andb].
      * specialize (IH seconds (Some th) ltac:(discriminate)).
        destruct (select_loop E circadian now_time rest seconds (Some th))
          as [[d' p'] | |]; auto.
        intros Hp. destruct (IH Hp) as [_ ?]. discriminate.
      * apply orb_false_iff in Hc as [_ Hne]. apply Z.eqb_neq in Hne.
        specialize (IH diff pref Hd).
        destruct (select_loop E circadian now_time rest diff pref)
          as [[d' p'] | |]; auto.
        intros Hp. destruct (IH Hp) as [_ ->]. specialize (Hd eq_refl). lia.
    + exact I.
    + eapply get_theme_time_raises; eauto.
Qed.

Lemma select_theme_never_unbound E circadian now_time :
  select_theme E circadian now_time <> Raise UnboundLocalError.
Proof.
  unfold select_theme.
  destruct (themes circadian) as [[| th rest] |]; try discriminate.
  pose proof (select_loop_result E circadian now_time (th :: rest) (-1) None
                ltac:(reflexivity)) as H.
  destruct (select_loop E circadian now_time (th :: rest) (-1) None)
    as [[d p] | msg | e]; cbn.
  - destruct p; [discriminate |]. destruct (H eq_refl). discriminate.
  - discriminate.
  - destruct H as [-> | ->]; discriminate.
Qed.

Lemma select_theme_first_minimum E circadian now_time ths :
  themes circadian = Some ths -> ths <> [] ->
  all_resolve E circadian now_time ths ->
  exists i p s,
    select_theme E circadian now_time = Ok p /\
    first_minimum (resolve_elapsed E circadian now_time) ths i p s.
Proof.
  intros Hth Hne Hall. unfold select_theme. rewrite Hth.
  destruct (select_loop_inv E circadian now_time ths [] (-1) None Hall)
    as (d & p & Hloop & Hinv); [split; reflexivity |].
  destruct ths as [| th rest]; [congruence |].
  rewrite Hloop. cbn. cbn in Hinv.
  destruct p as [p |]; cbn in Hinv.
  - destruct Hinv as (_ & i & Hmin). exists i, p, d. split; [reflexivity | exact Hmin].
  - destruct Hinv as [? _]. discriminate.
Qed.

Lemma all_resolve_elem E circadian now_time ths th :
  all_resolve E circadian now_time ths -> th ∈ ths ->
  exists theme_time, get_theme_time E circadian th now_time = Ok theme_time.
Proof.
  intros Hall Hin. unfold all_resolve in Hall.
  rewrite Forall_forall in Hall. now apply Hall.
Qed.

Lemma first_minimum_elem el ths i p s :
  first_minimum el ths i p s -> p ∈ ths.
Proof.
  intros (Hi & _). apply list_elem_of_lookup. eauto.
Qed.

(** ** C1: the selector *)

(** C1, as the code has it: for every non-empty schedule whose entries all
    resolve, the value [seconds] of an entry is the number of whole seconds
    of [now - candidate] reduced modulo 86400, plus one; it lies between 1
    and 86400, so every entry passes the test [seconds > 0], whether its
    candidate is in the past or in the future; the selector returns the
    entry with the least [seconds], the earliest such entry in list order;
    and over A 10:00, B 14:00, C 18:00 at 15:00 it returns B. *)
Theorem C1_selector_least_wrapped_elapsed E circadian now_time ths :
  themes circadian = Some ths -> ths <> [] ->
  all_resolve E circadian now_time ths ->
  (forall th theme_time,
      th ∈ ths -> get_theme_time E circadian th now_time = Ok theme_time ->
      ordinal (candidate theme_time now_time) = ordinal now_time /\
      elapsed_seconds theme_time now_time
      = td_whole_seconds (dt_sub now_time (candidate theme_time now_time))
          mod 86400 + 1 /\
      1 <= elapsed_seconds theme_time now_time <= 86400) /\
  (exists i p s,
      select_theme E circadian now_time = Ok p /\
      first_minimum (resolve_elapsed E circadian now_time) ths i p s) /\
  select_theme utc_zone circadian_ABC (mkDT (ymd2ord 2024 6 15) 15 0 0 0)
  = Ok (mkTheme "B" "14:00").
Proof.
  intros Hth Hne Hall. split; [| split].
  - intros th tt _ _. split; [reflexivity |].
    split; [| apply elapsed_seconds_range].
    unfold elapsed_seconds. f_equal.
    unfold td_whole_seconds, dt_sub, make_timedelta, timedelta_of_us;
      cbn [td_days td_seconds].
    set (s := _ / 1000000).
    pose proof (Z.div_mod s 86400 ltac:(lia)) as Hs.
    replace (s / 86400 * 86400 + s mod 86400) with s by lia.
    reflexivity.
  - now apply select_theme_first_minimum.
  - vm_compute. reflexivity.
Qed.

Lemma C1_selector_witness :
  exists i p s,
    select_theme utc_zone circadian_ABC (mkDT (ymd2ord 2024 6 15) 15 0 0 0)
    = Ok p /\
    first_minimum
      (resolve_elapsed utc_zone circadian_ABC
         (mkDT (ymd2ord 2024 6 15) 15 0 0 0)) ABC i p s.
Proof.
  refine (proj1 (proj2 (C1_selector_least_wrapped_elapsed utc_zone
            circadian_ABC (mkDT (ymd2ord 2024 6 15) 15 0 0 0) ABC
            eq_refl _ _))).
  - discriminate.
  - repeat constructor; eexists; vm_compute; reflexivity.
Defined.

(** C1 as stated fails: at 09:00, before every entry of A 10:00, B 14:00,
    C 18:00, no candidate is in the past, so the selector of the
    specification has no qualifying entry; the code gives C 18:00 the value
    54001 and returns it. *)
Lemma C1_counterexample :
  let now_time := mkDT (ymd2ord 2024 6 15) 9 0 0 0 in
  spec_select utc_zone circadian_ABC now_time = None /\
  select_theme utc_zone circadian_ABC now_time = Ok (mkTheme "C" "18:00") /\
  resolve_elapsed utc_zone circadian_ABC now_time (mkTheme "C" "18:00")
  = Ok 54001.
Proof. vm_compute. repeat split. Qed.

(** ** C2 and C3: entries that all lie in the future *)

(** C2, as the code has it: when the candidate of every entry is strictly
    after [now], every entry still has a positive [seconds], namely the
    whole seconds of [now - candidate] plus 86400 plus one, so the selector
    returns an entry of the schedule and no unbound-variable error occurs;
    at 00:01 with entries at 06:00 and 18:00 it returns the 18:00 entry. *)
Theorem C2_all_future_returns_theme E circadian now_time ths :
  themes circadian = Some ths -> ths <> [] ->
  valid_time now_time ->
  (forall th, th ∈ ths ->
     exists theme_time,
       get_theme_time E circadian th now_time = Ok theme_time /\
       dt_ltb now_time (candidate theme_time now_time) = true) ->
  (forall th theme_time,
      th ∈ ths -> get_theme_time E circadian th now_time = Ok theme_time ->
      0 < elapsed_seconds theme_time now_time /\
      elapsed_seconds theme_time now_time
      = td_whole_seconds (dt_sub now_time (candidate theme_time now_time))
        + 86400 + 1) /\
  (exists p, select_theme E circadian now_time = Ok p /\ p ∈ ths) /\
  select_theme utc_zone circadian_6_18 (mkDT (ymd2ord 2024 6 15) 0 1 0 0)
  = Ok (mkTheme "B" "18:00").
Proof.
  intros Hth Hne Hv Hfut. split; [| split].
  - intros th tt Hin Hg. destruct (Hfut th Hin) as (tt' & Hg' & Hlt).
    rewrite Hg in Hg'. injection Hg' as <-.
    pose proof (elapsed_seconds_range tt now_time). split; [lia |].
    rewrite (elapsed_seconds_future tt now_time Hv
               (get_theme_time_valid _ _ _ _ _ Hg) Hlt).
    rewrite dt_sub_to_us, td_whole_seconds_of_us.
    destruct Hv as (_ & _ & _ & Hu).
    unfold to_us, candidate, replace_time, day_seconds;
      cbn [ordinal hour minute second microsecond].
    match goal with |- _ = ?x / _ + _ + _ =>
      rewrite <- (Z.div_unique x 1000000
        (hour now_time * 3600 + minute now_time * 60 + second now_time
         - (hour tt * 3600 + minute tt * 60 + 0)) (microsecond now_time))
    end; lia.
  - destruct (select_theme_first_minimum E circadian now_time ths Hth Hne)
      as (i & p & s & Hsel & Hmin).
    + apply Forall_forall. intros th Hin.
      destruct (Hfut th Hin) as (tt & Hg & _). eauto.
    + exists p. split; [assumption |]. eapply first_minimum_elem; eauto.
  - vm_compute. reflexivity.
Qed.

Lemma C2_all_future_witness :
  exists p,
    select_theme utc_zone circadian_6_18 (mkDT (ymd2ord 2024 6 15) 0 1 0 0)
    = Ok p /\
    p ∈ [mkTheme "A" "06:00"; mkTheme "B" "18:00"].
Proof.
  refine (proj1 (proj2 (C2_all_future_returns_theme utc_zone circadian_6_18
            (mkDT (ymd2ord 2024 6 15) 0 1 0 0) _ eq_refl _ _ _))).
  - discriminate.
  - unfold valid_time; cbn; lia.
  - intros th Hin.
    apply elem_of_cons in Hin as [-> | Hin];
      [| apply elem_of_cons in Hin as [-> | Hin]];
      [eexists; split; vm_compute; reflexivity ..|].
    inversion Hin.
Defined.

(** C2 as stated fails: no surroundings, configuration and reference
    instant make the selection end in the unbound-variable error. *)
Lemma C2_counterexample :
  ~ exists E circadian now_time,
      select_theme E circadian now_time = Raise UnboundLocalError.
Proof.
  intros (E & circadian & now_time & H).
  exact (select_theme_never_unbound E circadian now_time H).
Qed.

Lemma future_occurrence_candidate theme_time now_time :
  valid_time now_time -> valid_time theme_time ->
  to_us now_time < to_us (occurrence theme_time (ordinal now_time)) ->
  dt_ltb now_time (candidate theme_time now_time) = true.
Proof.
  intros Hn Ht Hlt. rewrite dt_ltb_to_us.
  - apply Z.ltb_lt. exact Hlt.
  - exact Hn.
  - destruct Ht as (? & ? & _). unfold valid_time, candidate; cbn. lia.
Qed.

(** C3: for every non-empty themes list and every reference instant the
    selection never reads an unbound [preferred_theme]; [seconds] is at
    least 1 for every candidate, also one in the future; when all entries
    resolve the loop binds an entry of the list, and when moreover the
    hour and minute of every entry, on the date of [now], lie after [now],
    the entry chosen has the latest time of day (hour and minute) of the
    entries.  At 09:00 the schedule A 10:00, B 14:00, C 18:00 gives C. *)
Theorem C3_preferred_theme_always_bound E circadian now_time ths :
  themes circadian = Some ths -> ths <> [] ->
  select_theme E circadian now_time <> Raise UnboundLocalError /\
  (forall theme_time, 1 <= elapsed_seconds theme_time now_time) /\
  (all_resolve E circadian now_time ths ->
   exists p theme_time_p,
     select_theme E circadian now_time = Ok p /\ p ∈ ths /\
     get_theme_time E circadian p now_time = Ok theme_time_p /\
     (valid_time now_time ->
      (forall q theme_time_q,
          q ∈ ths -> get_theme_time E circadian q now_time = Ok theme_time_q ->
          to_us now_time
          < to_us (occurrence theme_time_q (ordinal now_time))) ->
      forall q theme_time_q,
        q ∈ ths -> get_theme_time E circadian q now_time = Ok theme_time_q ->
        hour theme_time_q * 3600 + minute theme_time_q * 60
        <= hour theme_time_p * 3600 + minute theme_time_p * 60)) /\
  select_theme utc_zone circadian_ABC (mkDT (ymd2ord 2024 6 15) 9 0 0 0)
  = Ok (mkTheme "C" "18:00").
Proof.
  intros Hth Hne. split; [| split; [| split]].
  - apply select_theme_never_unbound.
  - intros tt. apply elapsed_seconds_range.
  - intros Hall.
    destruct (select_theme_first_minimum E circadian now_time ths Hth Hne Hall)
      as (i & p & s & Hsel & Hmin).
    pose proof (first_minimum_elem _ _ _ _ _ Hmin) as Hin.
    destruct (all_resolve_elem _ _ _ _ _ Hall Hin) as (tp & Hp).
    exists p, tp. repeat split; try assumption.
    intros Hv Hfut q tq Hq Hgq.
    destruct Hmin as (Hi & Hs & Hmin).
    destruct (list_elem_of_lookup_1 _ _ Hq) as (j & Hj).
    unfold resolve_elapsed in Hs. rewrite Hp in Hs. cbn in Hs.
    injection Hs as <-.
    destruct (Hmin j q (elapsed_seconds tq now_time) Hj) as [Hle _].
    { unfold resolve_elapsed. rewrite Hgq. reflexivity. }
    pose proof (get_theme_time_valid _ _ _ _ _ Hp) as Hvp.
    pose proof (get_theme_time_valid _ _ _ _ _ Hgq) as Hvq.
    rewrite (elapsed_seconds_future tp now_time Hv Hvp
               (future_occurrence_candidate _ _ Hv Hvp (Hfut p tp Hin Hp)))
      in Hle.
    rewrite (elapsed_seconds_future tq now_time Hv Hvq
               (future_occurrence_candidate _ _ Hv Hvq (Hfut q tq Hq Hgq)))
      in Hle.
    unfold day_seconds, candidate, replace_time in Hle;
      cbn [hour minute second] in Hle.
    lia.
  - vm_compute. reflexivity.
Qed.

(** At 09:00 every entry of A 10:00, B 14:00, C 18:00 lies ahead, and the
    selector returns C 18:00, the entry with the latest time of day. *)
Lemma C3_preferred_theme_witness :
  let now_time := mkDT (ymd2ord 2024 6 15) 9 0 0 0 in
  select_theme utc_zone circadian_ABC now_time <> Raise UnboundLocalError /\
  select_theme utc_zone circadian_ABC now_time = Ok (mkTheme "C" "18:00") /\
  exists p theme_time_p,
    select_theme utc_zone circadian_ABC now_time = Ok p /\
    get_theme_time utc_zone circadian_ABC p now_time = Ok theme_time_p /\
    forall q theme_time_q,
      q ∈ ABC ->
      get_theme_time utc_zone circadian_ABC q now_time = Ok theme_time_q ->
      hour theme_time_q * 3600 + minute theme_time_q * 60
      <= hour theme_time_p * 3600 + minute theme_time_p * 60.
Proof.
  intros now_time.
  destruct (C3_preferred_theme_always_bound utc_zone circadian_ABC now_time
              ABC eq_refl ltac:(discriminate)) as (Hnever & _ & Hsel & Hc).
  split; [exact Hnever |]. split; [exact Hc |].
  destruct Hsel as (p & tp & Hp & _ & Hg & Hmax).
  - repeat constructor; eexists; vm_compute; reflexivity.
  - exists p, tp. split; [exact Hp |]. split; [exact Hg |].
    apply Hmax.
    + unfold valid_time; cbn; lia.
    + intros q tq Hq Hgq.
      apply elem_of_cons in Hq as [-> | Hq];
        [| apply elem_of_cons in Hq as [-> | Hq];
           [| apply elem_of_cons in Hq as [-> | Hq]; [| inversion Hq]]];
        vm_compute in Hgq; injection Hgq as <-; reflexivity.
Defined.

(** ** C4 and C10: arming a timer *)

Lemma dt_sub_seconds_whole (a b : datetime) :
  td_seconds (dt_sub a b) = td_whole_seconds (dt_sub a b) mod 86400.
Proof.
  unfold td_whole_seconds, dt_sub, make_timedelta, timedelta_of_us;
    cbn [td_days td_seconds].
  set (s := _ / 1000000).
  rewrite Z.add_comm, Z.mod_add by lia.
  now rewrite Z.mod_mod by lia.
Qed.

(** C4, as the code has it: when the resolved instant is strictly before
    [now], the armed occurrence is its hour and minute on the calendar day
    after the date of [now]; otherwise it is that hour and minute on the
    date of [now]; seconds and microseconds are zero in both cases.  The
    delay is the seconds component of [switch_time - now], that is its
    whole seconds reduced modulo 86400, plus one; it is the whole seconds
    of [switch_time - now] plus one whenever that difference lies between
    zero and one day. *)
Theorem C4_armed_occurrence_and_delay theme_time now_time :
  1 <= ordinal now_time < MAXORDINAL ->
  exists switch_time seconds,
    arm_entry theme_time now_time = Ok (switch_time, seconds) /\
    (dt_ltb theme_time now_time = true ->
     switch_time
     = mkDT (ordinal now_time + 1) (hour theme_time) (minute theme_time) 0 0) /\
    (dt_ltb theme_time now_time = false ->
     switch_time
     = mkDT (ordinal now_time) (hour theme_time) (minute theme_time) 0 0) /\
    seconds = td_whole_seconds (dt_sub switch_time now_time) mod 86400 + 1 /\
    (0 <= to_us switch_time - to_us now_time < 86400 * 1000000 ->
     seconds = td_whole_seconds (dt_sub switch_time now_time) + 1).
Proof.
  intros Ho. unfold arm_entry, add_days.
  cbn [replace_time ordinal hour minute second microsecond].
  destruct (dt_ltb theme_time now_time).
  - assert (Hr : (1 <=? ordinal now_time + 1)
                 && (ordinal now_time + 1 <=? MAXORDINAL) = true).
    { apply andb_true_intro. split; apply Z.leb_le; lia. }
    rewrite Hr. cbn -[dt_sub td_whole_seconds to_us].
    eexists _, _. split; [reflexivity |].
    split; [reflexivity |]. split; [discriminate |].
    split; [now rewrite dt_sub_seconds_whole |].
    intros Hd. rewrite dt_sub_seconds_whole. f_equal.
    rewrite dt_sub_to_us, td_whole_seconds_of_us.
    apply Z.mod_small. split.
    + apply Z.div_pos; lia.
    + apply Z.div_lt_upper_bound; lia.
  - cbn -[dt_sub td_whole_seconds to_us]. eexists _, _. split; [reflexivity |].
    split; [discriminate |]. split; [reflexivity |].
    split; [now rewrite dt_sub_seconds_whole |].
    intros Hd. rewrite dt_sub_seconds_whole. f_equal.
    rewrite dt_sub_to_us, td_whole_seconds_of_us.
    apply Z.mod_small. split.
    + apply Z.div_pos; lia.
    + apply Z.div_lt_upper_bound; lia.
Qed.

Lemma C4_armed_occurrence_witness :
  exists switch_time seconds,
    arm_entry (mkDT (ymd2ord 2024 6 15) 10 0 0 0)
              (mkDT (ymd2ord 2024 6 15) 15 0 0 0)
    = Ok (switch_time, seconds) /\
    switch_time = mkDT (ymd2ord 2024 6 15 + 1) 10 0 0 0 /\
    seconds = 68401.
Proof.
  destruct (C4_armed_occurrence_and_delay
              (mkDT (ymd2ord 2024 6 15) 10 0 0 0)
              (mkDT (ymd2ord 2024 6 15) 15 0 0 0))
    as (sw & sec & Harm & Hlt & _ & _ & Hdelay).
  - vm_compute. split; [discriminate | reflexivity].
  - exists sw, sec. split; [exact Harm |].
    specialize (Hlt eq_refl). subst sw. split; [reflexivity |].
    rewrite Hdelay; [reflexivity |]. vm_compute. split; [discriminate | reflexivity].
Defined.

(** C4 as stated fails in its last clause: in a zone two hours east of UTC,
    at 12:00 UTC, the entry 01:00 resolves to 23:00 UTC of the day before,
    which is before [now]; the armed occurrence is 23:00 UTC of the next
    day, 35 hours ahead, and the delay is 39601 seconds, not the 126001
    seconds of [switch_time - now] plus one. *)
Lemma C4_counterexample :
  let now_time := mkDT (ymd2ord 2024 6 15) 12 0 0 0 in
  let theme_time := mkDT (ymd2ord 2024 6 14) 23 0 0 0 in
  let switch_time := mkDT (ymd2ord 2024 6 16) 23 0 0 0 in
  get_theme_time (fixed_zone 7200) circadian_ABC (mkTheme "A" "01:00") now_time
  = Ok theme_time /\
  dt_ltb theme_time now_time = true /\
  arm_entry theme_time now_time = Ok (switch_time, 39601) /\
  td_whole_seconds (dt_sub switch_time now_time) + 1 = 126001.
Proof. vm_compute. repeat split. Qed.

Lemma arm_entry_delay_range theme_time now_time :
  match arm_entry theme_time now_time with
  | Ok (_, seconds) => 1 <= seconds <= 86400
  | Raise e =>
    e = OverflowError /\ dt_ltb theme_time now_time = true /\
    ~ (1 <= ordinal now_time + 1 <= MAXORDINAL)
  | SysExit _ => False
  end.
Proof.
  unfold arm_entry, add_days.
  cbn [replace_time ordinal hour minute second microsecond].
  destruct (dt_ltb theme_time now_time).
  - destruct ((1 <=? ordinal now_time + 1)
              && (ordinal now_time + 1 <=? MAXORDINAL)) eqn:Hr; cbn -[dt_sub].
    + match goal with |- context [dt_sub ?a ?b] =>
        pose proof (td_seconds_range a b) end. lia.
    + repeat split. intros [H1 H2].
      apply andb_false_iff in Hr as [Hr | Hr]; apply Z.leb_gt in Hr; lia.
  - cbn -[dt_sub]. match goal with |- context [dt_sub ?a ?b] =>
      pose proof (td_seconds_range a b) end. lia.
Qed.

(** C10: the delay given to every timer armed by the loop lies between 1
    and 86400 seconds: it is the seconds component of a [timedelta], which
    lies in [0, 86399], plus one.  [arm_entry] fails only where the next
    calendar day does not exist, and then arms nothing. *)
Theorem C10_timer_delay_between_1_and_86400 :
  (forall theme_time now_time,
      match arm_entry theme_time now_time with
      | Ok (_, seconds) => 1 <= seconds <= 86400
      | Raise e =>
        e = OverflowError /\ dt_ltb theme_time now_time = true /\
        ~ (1 <= ordinal now_time + 1 <= MAXORDINAL)
      | SysExit _ => False
      end) /\
  (forall E circadian now_time ths st,
      exists armed,
        thread_list (arm_timers E circadian now_time ths st).2
        = thread_list st ++ armed /\
        Forall (fun t => 1 <= interval t <= 86400) armed).
Proof.
  split; [exact arm_entry_delay_range |].
  intros E circadian now_time ths.
  induction ths as [| th rest IH]; intros st; cbn [arm_timers].
  - exists []. rewrite app_nil_r. split; [reflexivity | constructor].
  - destruct (theme_files E !! name th) as [theme_data |];
      [| exists []; rewrite app_nil_r; split; [reflexivity | constructor]].
    destruct (get_theme_time E circadian th now_time) as [tt | |]; cbn;
      try (exists []; rewrite app_nil_r; split; [reflexivity | constructor]).
    pose proof (arm_entry_delay_range tt now_time) as Hr.
    destruct (arm_entry tt now_time) as [[sw seconds] | |];
      try (exists []; rewrite app_nil_r; split; [reflexivity | constructor]).
    destruct (IH (mkState (config st) (dest_file st)
                    (thread_list st ++ [mkTimer seconds theme_data])))
      as (armed & Heq & Hall).
    exists (mkTimer seconds theme_data :: armed). split.
    + rewrite Heq. cbn [thread_list]. now rewrite <- app_assoc.
    + constructor; assumption.
Qed.

(** ** C5: the write of the colour block *)

(** C5, as the code has it: applying a theme never alters a key outside
    [colors] of the configuration document held in memory.  A theme
    without a colour block raises [KeyError] and changes nothing; with a
    colour block, [switch_theme] replaces the value of the [colors] key by
    the colour block of the theme and leaves the value of every other key
    as it was.  The destination is then overwritten with the whole
    updated configuration: a key outside [colors] keeps the value it had
    in the destination exactly when the destination agreed with the
    configuration on that key, as it does for every key when the
    destination held the configuration. *)
Theorem C5_switch_theme_touches_only_colors E theme_data st :
  let result := switch_theme E theme_data st in
  (theme_data !! "colors" = None -> result = (Raise KeyError, st)) /\
  (forall colors,
      theme_data !! "colors" = Some colors ->
      config result.2 = <["colors" := colors]> (config st) /\
      config result.2 !! "colors" = Some colors /\
      (forall k, k <> "colors" -> config result.2 !! k = config st !! k) /\
      thread_list result.2 = thread_list st /\
      (dest_opens E = true ->
       result.1 = Ok () /\ dest_file result.2 = Some (config result.2) /\
       (forall d d' k,
           dest_file st = Some d -> dest_file result.2 = Some d' ->
           k <> "colors" ->
           (d' !! k = d !! k <-> config st !! k = d !! k)) /\
       (dest_file st = Some (config st) ->
        forall d' k,
          dest_file result.2 = Some d' -> k <> "colors" ->
          d' !! k = config st !! k)) /\
      (dest_opens E = false ->
       result.1 = Raise OSError /\ dest_file result.2 = dest_file st)).
Proof.
  cbn zeta. unfold switch_theme. split.
  - intros ->. reflexivity.
  - intros colors ->.
    assert (Hframe : forall k, k <> "colors" ->
               <["colors" := colors]> (config st) !! k = config st !! k)
      by (intros k Hk; now apply lookup_insert_ne).
    destruct (dest_opens E); cbn [fst snd config dest_file thread_list].
    + split; [reflexivity |]. split; [apply lookup_insert_eq |].
      split; [exact Hframe |]. split; [reflexivity |].
      split; [| discriminate]. intros _.
      split; [reflexivity |]. split; [reflexivity |]. split.
      * intros d d' k _ [= <-] Hk. now rewrite (Hframe k Hk).
      * intros _ d' k [= <-] Hk. exact (Hframe k Hk).
    + split; [reflexivity |]. split; [apply lookup_insert_eq |].
      split; [exact Hframe |]. split; [reflexivity |].
      split; [discriminate |]. intros _. split; reflexivity.
Qed.

(** The example of the specification, with the destination holding the
    configuration: {font: mono, colors: old} with the theme {colors: new}
    gives {font: mono, colors: new}, in memory and in the destination. *)
Lemma C5_switch_theme_witness :
  let old := TTable {[ "background" := TString "#ffffff" ]} in
  let new := TTable {[ "background" := TString "#002b36" ]} in
  let doc : gmap string toml := {[ "font" := TString "mono"; "colors" := old ]} in
  let st := mkState doc (Some doc) [] in
  let result := switch_theme utc_zone {[ "colors" := new ]} st in
  config result.2 = {[ "font" := TString "mono"; "colors" := new ]} /\
  dest_file result.2 = Some {[ "font" := TString "mono"; "colors" := new ]}.
Proof.
  intros old new doc st result.
  destruct (proj2 (C5_switch_theme_touches_only_colors utc_zone
                     {[ "colors" := new ]} st) new
                  (lookup_singleton_eq "colors" new))
    as (Hc & _ & _ & _ & Hd & _).
  destruct (Hd eq_refl) as (_ & Hf & _).
  fold result in Hc, Hf. rewrite Hf, Hc.
  split; vm_compute; reflexivity.
Defined.

(** C5 as stated fails on the destination document: with a destination
    {font: serif, colors: old} that differs from the configuration
    {font: mono, colors: old}, applying the theme {colors: new} leaves
    {font: mono, colors: new} in the destination: the key [font], outside
    [colors], has changed there. *)
Lemma C5_counterexample :
  let old := TTable {[ "background" := TString "#ffffff" ]} in
  let new := TTable {[ "background" := TString "#002b36" ]} in
  let st :=
    mkState {[ "font" := TString "mono"; "colors" := old ]}
            (Some {[ "font" := TString "serif"; "colors" := old ]}) [] in
  let result := switch_theme utc_zone {[ "colors" := new ]} st in
  result.1 = Ok () /\
  default ∅ (dest_file st) !! "font" = Some (TString "serif") /\
  default ∅ (dest_file result.2) !! "font" = Some (TString "mono") /\
  ~ (forall k, k <> "colors" ->
       default ∅ (dest_file result.2) !! k = default ∅ (dest_file st) !! k).
Proof.
  intros old new st result.
  assert (H1 : default ∅ (dest_file st) !! "font" = Some (TString "serif"))
    by (vm_compute; reflexivity).
  assert (H2 : default ∅ (dest_file result.2) !! "font"
               = Some (TString "mono")) by (vm_compute; reflexivity).
  split; [reflexivity |]. split; [exact H1 |]. split; [exact H2 |].
  intros H. specialize (H "font" ltac:(discriminate)).
  rewrite H1, H2 in H. discriminate.
Qed.

(** ** C6: the clock strings that [strptime] accepts *)

Ltac string_app :=
  repeat (change (String.append (String ?a ?b) ?c)
            with (String a (String.append b c)));
  repeat (change (String.append EmptyString ?c) with c).

Lemma decode_utf8_split s cp rest :
  decode_utf8 s = Some (cp, rest) ->
  exists front,
    s = String.append front rest /\
    decode_utf8 front = Some (cp, EmptyString).
Proof.
  unfold decode_utf8. destruct s as [| c0 r0]; [discriminate |].
  destruct (N_of_ascii c0 <? 128)%N eqn:B1.
  { intros [= <- <-]. exists (String c0 EmptyString).
    split; [reflexivity |]. now rewrite B1. }
  destruct (N_of_ascii c0 <? 192)%N eqn:B2; [discriminate |].
  destruct (N_of_ascii c0 <? 224)%N eqn:B3.
  { destruct r0 as [| c1 r1]; [discriminate |].
    destruct (continuation_byte c1) as [x1 |] eqn:C1; [| discriminate].
    cbn [mbind option_bind].
    destruct (128 <=? _)%N eqn:V; [| discriminate].
    intros [= <- <-]. exists (String c0 (String c1 EmptyString)).
    split; [reflexivity |]. rewrite B1, B2, B3, C1. cbn [mbind option_bind].
    now rewrite V. }
  destruct (N_of_ascii c0 <? 240)%N eqn:B4.
  { destruct r0 as [| c1 [| c2 r2]]; try discriminate.
    destruct (continuation_byte c1) as [x1 |] eqn:C1; [| discriminate].
    destruct (continuation_byte c2) as [x2 |] eqn:C2; [| discriminate].
    cbn [mbind option_bind].
    match goal with |- (if ?b then _ else _) = _ -> _ =>
      destruct b eqn:V; [| discriminate] end.
    intros [= <- <-]. exists (String c0 (String c1 (String c2 EmptyString))).
    split; [reflexivity |]. rewrite B1, B2, B3, B4, C1, C2.
    cbn [mbind option_bind]. now rewrite V. }
  destruct (N_of_ascii c0 <? 248)%N eqn:B5; [| discriminate].
  destruct r0 as [| c1 [| c2 [| c3 r3]]]; try discriminate.
  destruct (continuation_byte c1) as [x1 |] eqn:C1; [| discriminate].
  destruct (continuation_byte c2) as [x2 |] eqn:C2; [| discriminate].
  destruct (continuation_byte c3) as [x3 |] eqn:C3; [| discriminate].
  cbn [mbind option_bind].
  match goal with |- (if ?b then _ else _) = _ -> _ =>
    destruct b eqn:V; [| discriminate] end.
  intros [= <- <-].
  exists (String c0 (String c1 (String c2 (String c3 EmptyString)))).
  split; [reflexivity |]. rewrite B1, B2, B3, B4, B5, C1, C2, C3.
  cbn [mbind option_bind]. now rewrite V.
Qed.

Lemma decode_utf8_app front cp rest :
  decode_utf8 front = Some (cp, EmptyString) ->
  decode_utf8 (String.append front rest) = Some (cp, rest).
Proof.
  destruct front as [| c0 r0]; [discriminate |].
  string_app. unfold decode_utf8. cbv beta iota zeta.
  destruct (N_of_ascii c0 <? 128)%N eqn:B1.
  { intros [= <- ->]. reflexivity. }
  destruct (N_of_ascii c0 <? 192)%N eqn:B2; [discriminate |].
  destruct (N_of_ascii c0 <? 224)%N eqn:B3.
  { destruct r0 as [| c1 r1]; [discriminate |]. string_app.
    cbv beta iota zeta.
    destruct (continuation_byte c1) as [x1 |] eqn:C1; [| discriminate].
    cbn [mbind option_bind].
    destruct (128 <=? _)%N eqn:V; [| discriminate].
    intros [= <- ->]. reflexivity. }
  destruct (N_of_ascii c0 <? 240)%N eqn:B4.
  { destruct r0 as [| c1 [| c2 r2]]; try discriminate. string_app.
    cbv beta iota zeta.
    destruct (continuation_byte c1) as [x1 |] eqn:C1; [| discriminate].
    destruct (continuation_byte c2) as [x2 |] eqn:C2; [| discriminate].
    cbn [mbind option_bind].
    match goal with |- (if ?b then _ else _) = _ -> _ =>
      destruct b eqn:V; [| discriminate] end.
    intros [= <- ->]. reflexivity. }
  destruct (N_of_ascii c0 <? 248)%N eqn:B5; [| discriminate].
  destruct r0 as [| c1 [| c2 [| c3 r3]]]; try discriminate. string_app.
  cbv beta iota zeta.
  destruct (continuation_byte c1) as [x1 |] eqn:C1; [| discriminate].
  destruct (continuation_byte c2) as [x2 |] eqn:C2; [| discriminate].
  destruct (continuation_byte c3) as [x3 |] eqn:C3; [| discriminate].
  cbn [mbind option_bind].
  match goal with |- (if ?b then _ else _) = _ -> _ =>
    destruct b eqn:V; [| discriminate] end.
  intros [= <- ->]. reflexivity.
Qed.

(** The first byte of an encoded code point: the code point itself below
    128, a lead byte from 192 on otherwise. *)
Lemma decode_utf8_first c0 r cp rest :
  decode_utf8 (String c0 r) = Some (cp, rest) ->
  ((N_of_ascii c0 < 128)%N /\ cp = N_of_ascii c0 /\ rest = r) \/
  ((192 <= N_of_ascii c0)%N /\ (128 <= cp)%N).
Proof.
  unfold decode_utf8.
  destruct (N.ltb_spec (N_of_ascii c0) 128).
  { intros [= <- <-]. left. auto. }
  destruct (N.ltb_spec (N_of_ascii c0) 192); [discriminate |].
  intros Hd. right. split; [assumption |].
  destruct (N_of_ascii c0 <? 224)%N.
  { destruct r as [| c1 r1]; [discriminate |].
    destruct (continuation_byte c1) as [x1 |]; [| discriminate].
    cbn [mbind option_bind] in Hd.
    destruct (N.leb_spec 128 ((N_of_ascii c0 - 192) * 64 + x1));
      [| discriminate]. now injection Hd as <- _. }
  destruct (N_of_ascii c0 <? 240)%N.
  { destruct r as [| c1 [| c2 r2]]; try discriminate.
    destruct (continuation_byte c1) as [x1 |]; [| discriminate].
    destruct (continuation_byte c2) as [x2 |]; [| discriminate].
    cbn [mbind option_bind] in Hd.
    match type of Hd with (if ?b && _ then _ else _) = _ =>
      destruct (N.leb_spec 2048 ((N_of_ascii c0 - 224) * 4096 + x1 * 64 + x2));
      [| discriminate] end.
    match type of Hd with (if ?b then _ else _) = _ =>
      destruct b; [| discriminate] end.
    injection Hd as <- _. lia. }
  destruct (N_of_ascii c0 <? 248)%N; [| discriminate].
  destruct r as [| c1 [| c2 [| c3 r3]]]; try discriminate.
  destruct (continuation_byte c1) as [x1 |]; [| discriminate].
  destruct (continuation_byte c2) as [x2 |]; [| discriminate].
  destruct (continuation_byte c3) as [x3 |]; [| discriminate].
  cbn [mbind option_bind] in Hd.
  match type of Hd with (if ?b && _ then _ else _) = _ =>
    destruct (N.leb_spec 65536
      ((N_of_ascii c0 - 240) * 262144 + x1 * 4096 + x2 * 64 + x3));
    [| discriminate] end.
  match type of Hd with (if ?b then _ else _) = _ =>
    destruct b; [| discriminate] end.
  injection Hd as <- _. lia.
Qed.

Lemma digit_value_range c d : digit_value c = Some d -> 0 <= d <= 9.
Proof.
  unfold digit_value.
  destruct ((48 <=? Z.of_N (N_of_ascii c)) && (Z.of_N (N_of_ascii c) <=? 57))
    eqn:Hr; [| discriminate].
  apply andb_true_iff in Hr as [H1 H2].
  apply Z.leb_le in H1. apply Z.leb_le in H2.
  intros [= <-]. lia.
Qed.

Lemma digit_value_byte c d :
  digit_value c = Some d -> N_of_ascii c = Z.to_N (48 + d).
Proof.
  unfold digit_value.
  destruct ((48 <=? Z.of_N (N_of_ascii c)) && (Z.of_N (N_of_ascii c) <=? 57))
    eqn:Hr; [| discriminate].
  apply andb_true_iff in Hr as [H1 H2].
  apply Z.leb_le in H1. apply Z.leb_le in H2.
  intros [= <-]. lia.
Qed.

Lemma digit_value_char c d :
  digit_value c = Some d -> c = ascii_of_N (Z.to_N (48 + d)).
Proof.
  intros H. rewrite <- (digit_value_byte _ _ H).
  now rewrite ascii_N_embedding.
Qed.

Lemma digit_not_colon c d :
  digit_value c = Some d -> Ascii.eqb c ":"%char = false.
Proof.
  intros H. destruct (Ascii.eqb_spec c ":"%char) as [-> |]; [| reflexivity].
  vm_compute in H. discriminate.
Qed.

Lemma code_point_decimal_range E cp d :
  code_point_decimal E cp = Some d -> 0 <= d <= 9.
Proof.
  unfold code_point_decimal. destruct (cp <? 128)%N.
  - apply digit_value_range.
  - destruct (unicode_decimal E cp) as [d' |]; [| discriminate].
    destruct ((0 <=? d') && (d' <=? 9)) eqn:R; [| discriminate].
    intros [= <-]. apply andb_true_iff in R as [R1 R2].
    apply Z.leb_le in R1. apply Z.leb_le in R2. lia.
Qed.

Lemma decimal_digit_range E ds d : decimal_digit E ds d -> 0 <= d <= 9.
Proof. intros (cp & _ & H). eapply code_point_decimal_range; eauto. Qed.

(** A decimal digit is an ASCII digit alone, or starts with a lead byte. *)
Lemma decimal_digit_first E ds d :
  decimal_digit E ds d ->
  exists c0 r,
    ds = String c0 r /\
    ((digit_value c0 = Some d /\ r = EmptyString) \/
     (digit_value c0 = None /\ (192 <= N_of_ascii c0)%N)).
Proof.
  intros (cp & Hd & Hv). destruct ds as [| c0 r]; [discriminate |].
  exists c0, r. split; [reflexivity |].
  apply decode_utf8_first in Hd as [(Hlt & -> & <-) | (Hge & Hcp)].
  - left. split; [| reflexivity]. unfold code_point_decimal in Hv.
    apply N.ltb_lt in Hlt. rewrite Hlt in Hv.
    now rewrite ascii_N_embedding in Hv.
  - right. split; [| assumption]. unfold digit_value.
    destruct (Z.leb_spec (Z.of_N (N_of_ascii c0)) 57);
      [lia | now rewrite andb_false_r].
Qed.

Lemma digit_value_decimal_digit E c d :
  digit_value c = Some d -> decimal_digit E (String c EmptyString) d.
Proof.
  intros H. pose proof (digit_value_range _ _ H) as R.
  pose proof (digit_value_byte _ _ H) as B.
  assert (Hlt : (N_of_ascii c <? 128)%N = true) by (apply N.ltb_lt; lia).
  exists (N_of_ascii c). unfold decode_utf8, code_point_decimal.
  rewrite Hlt. split; [reflexivity |]. now rewrite ascii_N_embedding.
Qed.

Lemma match_digit_split E s d rest :
  match_digit E s = Some (d, rest) ->
  exists ds, s = String.append ds rest /\ decimal_digit E ds d.
Proof.
  unfold match_digit.
  destruct (decode_utf8 s) as [[cp r] |] eqn:D; [| discriminate].
  cbn [mbind option_bind].
  destruct (code_point_decimal E cp) as [d' |] eqn:V; [| discriminate].
  intros [= <- <-].
  apply decode_utf8_split in D as (front & -> & D).
  exists front. split; [reflexivity |]. exists cp. auto.
Qed.

Lemma match_digit_app E ds d rest :
  decimal_digit E ds d ->
  match_digit E (String.append ds rest) = Some (d, rest).
Proof.
  intros (cp & D & V). unfold match_digit.
  rewrite (decode_utf8_app _ _ rest D). cbn [mbind option_bind].
  now rewrite V.
Qed.

Lemma match_digit_colon E rest : match_digit E (String ":"%char rest) = None.
Proof. reflexivity. Qed.

Lemma match_digit_empty E : match_digit E EmptyString = None.
Proof. reflexivity. Qed.

Lemma string_app_assoc (a b c : string) :
  String.append (String.append a b) c = String.append a (String.append b c).
Proof.
  induction a as [| x a IH]; [reflexivity |].
  change (String x (String.append (String.append a b) c)
          = String x (String.append a (String.append b c))).
  now rewrite IH.
Qed.

Lemma string_app_nil_r (a : string) : String.append a EmptyString = a.
Proof.
  induction a as [| x a IH]; [reflexivity |].
  change (String x (String.append a EmptyString) = String x a).
  now rewrite IH.
Qed.

Lemma match_char_elem c s rest : match_char c s = Some rest -> s = String c rest.
Proof.
  unfold match_char. destruct s as [| c0 r]; [discriminate |].
  destruct (Ascii.eqb_spec c0 c) as [-> |]; [| discriminate].
  now intros [= ->].
Qed.

Lemma match_digit_upto_elem n s d rest :
  match_digit_upto n s = Some (d, rest) ->
  exists c, s = String c rest /\ digit_value c = Some d /\ d <= n.
Proof.
  unfold match_digit_upto. destruct s as [| c r]; [discriminate |].
  destruct (digit_value c) as [d' |] eqn:D; [| discriminate].
  destruct (Z.leb_spec d' n); [| discriminate].
  intros [= <- <-]. eauto.
Qed.

Lemma option_list_elem {A : Type} (mx : option A) (x : A) :
  x ∈ option_list mx -> mx = Some x.
Proof.
  destruct mx as [y |]; cbn; intros H; [| inversion H].
  apply list_elem_of_singleton in H. now subst.
Qed.

Lemma match_H_elem E s h rest :
  (h, rest) ∈ match_H E s ->
  exists hs, s = String.append hs rest /\ hour_text E hs h.
Proof.
  unfold match_H. intros H.
  apply elem_of_app in H as [H | H]; [| apply elem_of_app in H as [H | H]];
    apply option_list_elem in H.
  - destruct (match_char "2" s) as [r |] eqn:M; [| discriminate].
    cbn [mbind option_bind] in H.
    destruct (match_digit_upto 3 r) as [[d rest'] |] eqn:U; [| discriminate].
    cbn [mbind option_bind] in H. injection H as <- <-.
    apply match_char_elem in M as ->.
    apply match_digit_upto_elem in U as (c & -> & D & L).
    exists (String "2"%char (String c EmptyString)).
    split; [reflexivity | now constructor].
  - destruct (match_digit_upto 1 s) as [[d1 r] |] eqn:U; [| discriminate].
    cbn [mbind option_bind] in H.
    destruct (match_digit E r) as [[d2 rest'] |] eqn:M; [| discriminate].
    cbn [mbind option_bind] in H. injection H as <- <-.
    apply match_digit_upto_elem in U as (c & -> & D & L).
    apply match_digit_split in M as (ds & -> & Hd).
    exists (String c ds). split; [reflexivity | now constructor].
  - apply match_digit_split in H as (ds & -> & Hd).
    exists ds. split; [reflexivity | now constructor].
Qed.

Lemma match_M_elem E s m rest :
  (m, rest) ∈ match_M E s ->
  exists ms, s = String.append ms rest /\ minute_text E ms m.
Proof.
  unfold match_M. intros H.
  apply elem_of_app in H as [H | H]; apply option_list_elem in H.
  - destruct (match_digit_upto 5 s) as [[d1 r] |] eqn:U; [| discriminate].
    cbn [mbind option_bind] in H.
    destruct (match_digit E r) as [[d2 rest'] |] eqn:M; [| discriminate].
    cbn [mbind option_bind] in H. injection H as <- <-.
    apply match_digit_upto_elem in U as (c & -> & D & L).
    apply match_digit_split in M as (ds & -> & Hd).
    exists (String c ds). split; [reflexivity | now constructor].
  - apply match_digit_split in H as (ds & -> & Hd).
    exists ds. split; [reflexivity | now constructor].
Qed.

Lemma match_colon_elem s rest :
  rest ∈ match_colon s -> s = String ":"%char rest.
Proof.
  unfold match_colon. intros H. apply option_list_elem in H.
  now apply match_char_elem.
Qed.

(** Every match of the regular expression reads a clock text off the front
    of the input. *)
Lemma regex_match_HM_sound E s h m rest :
  regex_match_HM E s = Some (h, m, rest) ->
  exists front, s = String.append front rest /\ clock_text E front h m.
Proof.
  unfold regex_match_HM. intros H. apply head_Some_elem_of in H.
  apply list_elem_of_bind in H as ([h' r1] & H & Hh).
  apply list_elem_of_bind in H as (r2 & H & Hc).
  apply list_elem_of_bind in H as ([m' r3] & H & Hm).
  apply list_elem_of_singleton in H. cbn in H, Hc. injection H as -> -> ->.
  apply match_H_elem in Hh as (hs & -> & Hhs).
  apply match_colon_elem in Hc as ->.
  apply match_M_elem in Hm as (ms & -> & Hms).
  exists (String.append hs (String ":"%char ms)). split.
  - rewrite string_app_assoc. reflexivity.
  - exists hs, ms. repeat split; assumption.
Qed.

Lemma strptime_HM_sound E s t :
  strptime_HM E s = Ok t ->
  exists h m, t = mkDT (ymd2ord 1900 1 1) h m 0 0 /\ clock_text E s h m.
Proof.
  unfold strptime_HM.
  destruct (regex_match_HM E s) as [[[h m] [| c r]] |] eqn:R; try discriminate.
  intros [= <-]. exists h, m. split; [reflexivity |].
  apply regex_match_HM_sound in R as (front & -> & Hc).
  now rewrite string_app_nil_r.
Qed.

Lemma match_digit_exact E ds d :
  decimal_digit E ds d -> match_digit E ds = Some (d, EmptyString).
Proof.
  intros H. rewrite <- (string_app_nil_r ds) at 1. now apply match_digit_app.
Qed.

Lemma decimal_digit_not_colon E ds d rest :
  decimal_digit E ds d -> match_colon (String.append ds rest) = [].
Proof.
  intros H. apply decimal_digit_first in H as (c0 & r & -> & H).
  string_app. unfold match_colon, match_char.
  destruct (Ascii.eqb_spec c0 ":"%char) as [-> |]; [| reflexivity].
  destruct H as [[H _] | [_ H]]; [discriminate | vm_compute in H].
  now contradiction H.
Qed.

Lemma digit_value_colon : digit_value ":"%char = None.
Proof. reflexivity. Qed.

Lemma digit_not_colon_match c d rest :
  digit_value c = Some d -> match_colon (String c rest) = [].
Proof.
  intros H. unfold match_colon, match_char.
  now rewrite (digit_not_colon _ _ H).
Qed.

(** The first alternative of [%M] that matches a minute text reads all of
    it. *)
Lemma match_M_head E ms m :
  minute_text E ms m -> exists others, match_M E ms = (m, EmptyString) :: others.
Proof.
  intros [ds d Hd | c1 ds d1 d2 D1 L1 Hd]; unfold match_M.
  - rewrite (match_digit_exact _ _ _ Hd).
    apply decimal_digit_first in Hd as (c0 & r & -> & [[D ->] | [D _]]);
      unfold match_digit_upto; rewrite D.
    + destruct (d <=? 5); cbn -[match_digit];
        rewrite ?match_digit_empty; cbn; eauto.
    + cbn. eauto.
  - unfold match_digit_upto. rewrite D1.
    destruct (Z.leb_spec d1 5); [| lia]. cbn [mbind option_bind].
    rewrite (match_digit_exact _ _ _ Hd). cbn. eauto.
Qed.

(** Of the alternatives of [%H] on an hour text followed by a colon, the
    one that reads the hour text is the only one a colon follows. *)
Lemma match_H_colon {A : Type} E hs h ms (k : Z -> string -> list A) :
  hour_text E hs h ->
  (hr ← match_H E (String.append hs (String ":"%char ms));
   r ← match_colon hr.2; k hr.1 r) = k h ms.
Proof.
  intros [ds d Hd | c1 ds d1 d2 D1 L1 Hd | c2 d2 D2 L2]; unfold match_H.
  - rewrite (match_digit_app _ _ _ (String ":"%char ms) Hd).
    apply decimal_digit_first in Hd as (c0 & r & -> & [[D ->] | [D _]]);
      string_app; unfold match_char, match_digit_upto; rewrite D.
    + destruct (Ascii.eqb c0 "2"), (d <=? 1); cbn -[match_digit digit_value];
        rewrite ?match_digit_colon, ?digit_value_colon; cbn;
        now rewrite ?app_nil_r.
    + destruct (Ascii.eqb_spec c0 "2"%char) as [-> |]; [discriminate |].
      cbn. now rewrite ?app_nil_r.
  - string_app. unfold match_char, match_digit_upto. rewrite D1.
    destruct (Ascii.eqb_spec c1 "2"%char) as [-> |].
    { vm_compute in D1. injection D1 as <-. lia. }
    destruct (Z.leb_spec d1 1); [| lia]. cbn [mbind option_bind].
    rewrite (match_digit_app _ _ _ (String ":"%char ms) Hd).
    change (String c1 (String.append ds (String ":"%char ms)))
      with (String.append (String c1 EmptyString)
              (String.append ds (String ":"%char ms))).
    rewrite (match_digit_app _ _ _ _ (digit_value_decimal_digit E _ _ D1)).
    cbn -[match_digit]. rewrite (decimal_digit_not_colon _ _ _ _ Hd). cbn.
    now rewrite ?app_nil_r.
  - string_app. unfold match_char.
    change (Ascii.eqb "2"%char "2"%char) with true.
    cbn [mbind option_bind]. unfold match_digit_upto. rewrite D2.
    destruct (Z.leb_spec d2 3); [| lia].
    change (digit_value "2"%char) with (Some 2).
    change (match_digit E (String "2"%char (String c2 (String ":"%char ms))))
      with (Some (2, String c2 (String ":"%char ms))).
    cbn -[match_digit]. rewrite (digit_not_colon_match _ _ _ D2). cbn.
    now rewrite ?app_nil_r.
Qed.

Lemma strptime_HM_text E s h m :
  clock_text E s h m ->
  strptime_HM E s = Ok (mkDT (ymd2ord 1900 1 1) h m 0 0).
Proof.
  intros (hs & ms & -> & Hh & Hm).
  unfold strptime_HM, regex_match_HM.
  rewrite (match_H_colon E hs h ms
             (fun h r => mr ← match_M E r; [(h, mr.1, mr.2)]) Hh).
  destruct (match_M_head _ _ _ Hm) as (others & ->). reflexivity.
Qed.

(** [strptime] accepts exactly the clock texts. *)
Lemma strptime_HM_accepts E s h m :
  strptime_HM E s = Ok (mkDT (ymd2ord 1900 1 1) h m 0 0) <-> clock_text E s h m.
Proof.
  split; [| apply strptime_HM_text].
  intros H. apply strptime_HM_sound in H as (h' & m' & [= -> ->] & H).
  exact H.
Qed.

Lemma strptime_HM_rejects E s :
  strptime_HM E s = Raise ValueError <-> ~ exists h m, clock_text E s h m.
Proof.
  split.
  - intros H (h & m & Hc). apply strptime_HM_text in Hc. congruence.
  - intros H. destruct (strptime_HM E s) as [t | msg | e] eqn:P.
    + exfalso. apply H. apply strptime_HM_sound in P as (h & m & _ & Hc). eauto.
    + exfalso. eapply strptime_HM_no_exit; eauto.
    + f_equal. eapply strptime_HM_raises; eauto.
Qed.

Lemma colons_app (a b : string) :
  colons (String.append a b) = (colons a + colons b)%nat.
Proof.
  induction a as [| x a IH]; [reflexivity |].
  change (((if Ascii.eqb x ":"%char then 1 else 0)
           + colons (String.append a b))%nat
          = ((if Ascii.eqb x ":"%char then 1 else 0) + colons a + colons b)%nat).
  rewrite IH. lia.
Qed.

Lemma high_byte_not_colon c :
  (128 <= N_of_ascii c)%N -> Ascii.eqb c ":"%char = false.
Proof.
  intros H. destruct (Ascii.eqb_spec c ":"%char) as [-> |]; [| reflexivity].
  vm_compute in H. now contradiction H.
Qed.

Lemma continuation_not_colon c x :
  continuation_byte c = Some x -> Ascii.eqb c ":"%char = false.
Proof.
  unfold continuation_byte. intros H. apply high_byte_not_colon.
  destruct (N.leb_spec 128 (N_of_ascii c)); [assumption | discriminate].
Qed.

(** The bytes of an encoded code point from 128 on hold no colon. *)
Lemma decode_utf8_colons ds cp :
  decode_utf8 ds = Some (cp, EmptyString) -> (128 <= cp)%N ->
  colons ds = 0%nat.
Proof.
  unfold decode_utf8. destruct ds as [| c0 r0]; [discriminate |].
  destruct (N.ltb_spec (N_of_ascii c0) 128) as [B1 | B1].
  { intros [= <- ->] Hcp. lia. }
  pose proof (high_byte_not_colon _ B1) as H0.
  destruct (N_of_ascii c0 <? 192)%N; [discriminate |].
  destruct (N_of_ascii c0 <? 224)%N.
  { destruct r0 as [| c1 r1]; [discriminate |].
    destruct (continuation_byte c1) as [x1 |] eqn:C1; [| discriminate].
    cbn [mbind option_bind].
    destruct (128 <=? _)%N; [| discriminate].
    intros [= _ ->] _. cbn.
    now rewrite H0, (continuation_not_colon _ _ C1). }
  destruct (N_of_ascii c0 <? 240)%N.
  { destruct r0 as [| c1 [| c2 r2]]; try discriminate.
    destruct (continuation_byte c1) as [x1 |] eqn:C1; [| discriminate].
    destruct (continuation_byte c2) as [x2 |] eqn:C2; [| discriminate].
    cbn [mbind option_bind].
    match goal with |- (if ?b then _ else _) = _ -> _ =>
      destruct b; [| discriminate] end.
    intros [= _ ->] _. cbn.
    now rewrite H0, (continuation_not_colon _ _ C1),
      (continuation_not_colon _ _ C2). }
  destruct (N_of_ascii c0 <? 248)%N; [| discriminate].
  destruct r0 as [| c1 [| c2 [| c3 r3]]]; try discriminate.
  destruct (continuation_byte c1) as [x1 |] eqn:C1; [| discriminate].
  destruct (continuation_byte c2) as [x2 |] eqn:C2; [| discriminate].
  destruct (continuation_byte c3) as [x3 |] eqn:C3; [| discriminate].
  cbn [mbind option_bind].
  match goal with |- (if ?b then _ else _) = _ -> _ =>
    destruct b; [| discriminate] end.
  intros [= _ ->] _. cbn.
  now rewrite H0, (continuation_not_colon _ _ C1),
    (continuation_not_colon _ _ C2), (continuation_not_colon _ _ C3).
Qed.

Lemma decimal_digit_colons E ds d : decimal_digit E ds d -> colons ds = 0%nat.
Proof.
  intros H. pose proof H as (cp & Hd & Hv).
  apply decimal_digit_first in H as (c0 & r & -> & [[D ->] | [D Hb]]).
  - cbn. now rewrite (digit_not_colon _ _ D).
  - apply (decode_utf8_colons _ cp Hd).
    apply decode_utf8_first in Hd as [(Hlt & _) | (_ & Hcp)]; [lia | exact Hcp].
Qed.

Lemma hour_text_colons E hs h : hour_text E hs h -> colons hs = 0%nat.
Proof.
  intros [ds d Hd | c1 ds d1 d2 D1 L1 Hd | c2 d2 D2 L2].
  - eapply decimal_digit_colons; eauto.
  - cbn. now rewrite (digit_not_colon _ _ D1), (decimal_digit_colons _ _ _ Hd).
  - cbn. now rewrite (digit_not_colon _ _ D2).
Qed.

Lemma minute_text_colons E ms m : minute_text E ms m -> colons ms = 0%nat.
Proof.
  intros [ds d Hd | c1 ds d1 d2 D1 L1 Hd].
  - eapply decimal_digit_colons; eauto.
  - cbn. now rewrite (digit_not_colon _ _ D1), (decimal_digit_colons _ _ _ Hd).
Qed.

Lemma clock_text_colons E s h m : clock_text E s h m -> colons s = 1%nat.
Proof.
  intros (hs & ms & -> & Hh & Hm). rewrite colons_app. cbn.
  now rewrite (hour_text_colons _ _ _ Hh), (minute_text_colons _ _ _ Hm).
Qed.

Lemma clock_text_range E s h m :
  clock_text E s h m -> 0 <= h <= 23 /\ 0 <= m <= 59.
Proof.
  intros (hs & ms & _ & Hh & Hm). split.
  - destruct Hh as [ds d Hd | c1 ds d1 d2 D1 L1 Hd | c2 d2 D2 L2].
    + pose proof (decimal_digit_range _ _ _ Hd). lia.
    + pose proof (decimal_digit_range _ _ _ Hd).
      pose proof (digit_value_range _ _ D1). lia.
    + pose proof (digit_value_range _ _ D2). lia.
  - destruct Hm as [ds d Hd | c1 ds d1 d2 D1 L1 Hd].
    + pose proof (decimal_digit_range _ _ _ Hd). lia.
    + pose proof (decimal_digit_range _ _ _ Hd).
      pose proof (digit_value_range _ _ D1). lia.
Qed.

(** No clock text starts with [24:]. *)
Lemma clock_text_not_24 E rest h m :
  ~ clock_text E (String.append "24:" rest) h m.
Proof.
  intros (hs & ms & Hs & Hh & _).
  destruct Hh as [ds d Hd | c1 ds d1 d2 D1 L1 Hd | c2 d2 D2 L2].
  - apply decimal_digit_first in Hd as (c0 & r & -> & [[D ->] | [D Hb]]).
    + cbn in Hs. injection Hs as _ Hs. discriminate.
    + cbn in Hs. injection Hs as <- _. discriminate.
  - cbn in Hs. injection Hs as <- _. vm_compute in D1.
    injection D1 as <-. lia.
  - cbn in Hs. injection Hs as <- _. vm_compute in D2.
    injection D2 as <-. lia.
Qed.

(** The ASCII clock strings are clock texts. *)
Lemma clock_string_text E s h m : clock_string s h m -> clock_text E s h m.
Proof.
  intros (hs & ms & -> & Hh & Hm & Hh23 & Hm59).
  exists hs, ms. split; [reflexivity |]. split.
  - destruct Hh as [c d D | c1 c2 d1 d2 D1 D2].
    + constructor. now apply digit_value_decimal_digit.
    + pose proof (digit_value_range _ _ D1). pose proof (digit_value_range _ _ D2).
      destruct (Z.le_gt_cases d1 1).
      * constructor; [assumption | assumption |].
        now apply digit_value_decimal_digit.
      * assert (d1 = 2) as -> by lia.
        rewrite (digit_value_char _ _ D1).
        change (ascii_of_N (Z.to_N (48 + 2))) with "2"%char.
        replace (10 * 2 + d2) with (20 + d2) by lia.
        constructor; [assumption | lia].
  - destruct Hm as [c d D | c1 c2 d1 d2 D1 D2].
    + constructor. now apply digit_value_decimal_digit.
    + pose proof (digit_value_range _ _ D1). pose proof (digit_value_range _ _ D2).
      constructor; [assumption | lia |]. now apply digit_value_decimal_digit.
Qed.

Lemma strptime_HM_complete E s h m :
  clock_string s h m ->
  strptime_HM E s = Ok (mkDT (ymd2ord 1900 1 1) h m 0 0).
Proof. intros H. apply strptime_HM_text. now apply clock_string_text. Qed.

Lemma is_ascii_app (a b : string) :
  is_ascii (String.append a b) = is_ascii a && is_ascii b.
Proof.
  induction a as [| x a IH]; [reflexivity |].
  string_app. cbn [is_ascii]. rewrite IH. now rewrite andb_assoc.
Qed.

Lemma decimal_digit_ascii E ds d :
  decimal_digit E ds d -> is_ascii ds = true ->
  exists c, ds = String c EmptyString /\ digit_value c = Some d.
Proof.
  intros H Ha.
  apply decimal_digit_first in H as (c0 & r & -> & [[D ->] | [D Hb]]).
  - eauto.
  - cbn [is_ascii] in Ha. apply andb_true_iff in Ha as [Ha _].
    apply N.ltb_lt in Ha. lia.
Qed.

(** On strings of ASCII characters the clock texts are the clock strings. *)
Lemma clock_text_ascii E s h m :
  is_ascii s = true -> clock_text E s h m -> clock_string s h m.
Proof.
  intros Ha Hc. pose proof (clock_text_range _ _ _ _ Hc) as [R1 R2].
  destruct Hc as (hs & ms & -> & Hh & Hm).
  rewrite is_ascii_app in Ha. apply andb_true_iff in Ha as [Ha1 Ha2].
  cbn [is_ascii] in Ha2. apply andb_true_iff in Ha2 as [_ Ha2].
  exists hs, ms. split; [reflexivity |].
  split; [| split; [| lia]].
  - destruct Hh as [ds d Hd | c1 ds d1 d2 D1 L1 Hd | c2 d2 D2 L2].
    + destruct (decimal_digit_ascii _ _ _ Hd Ha1) as (c & -> & D).
      now constructor.
    + cbn [is_ascii] in Ha1. apply andb_true_iff in Ha1 as [_ Ha1].
      destruct (decimal_digit_ascii _ _ _ Hd Ha1) as (c & -> & D).
      now constructor.
    + replace (20 + d2) with (10 * 2 + d2) by lia. now constructor.
  - destruct Hm as [ds d Hd | c1 ds d1 d2 D1 L1 Hd].
    + destruct (decimal_digit_ascii _ _ _ Hd Ha2) as (c & -> & D).
      now constructor.
    + cbn [is_ascii] in Ha2. apply andb_true_iff in Ha2 as [_ Ha2].
      destruct (decimal_digit_ascii _ _ _ Hd Ha2) as (c & -> & D).
      now constructor.
Qed.

Lemma get_theme_time_clock E circadian th now_time :
  time th ∉ times_of_sun ->
  get_theme_time E circadian th now_time
  = match strptime_HM E (time th) with
    | Ok t => Ok (resolve_clock E t now_time)
    | _ => SysExit (MsgTimeFormat (time th))
    end.
Proof.
  intros Hn. unfold get_theme_time.
  rewrite (bool_decide_eq_false_2 _ Hn).
  destruct (strptime_HM E (time th)) as [t | msg | e] eqn:P; cbn.
  - reflexivity.
  - exfalso. eapply strptime_HM_no_exit; eauto.
  - now rewrite (strptime_HM_raises _ _ _ P).
Qed.

Lemma get_theme_time_clock_string E circadian th now_time h m :
  time th ∉ times_of_sun -> clock_string (time th) h m ->
  get_theme_time E circadian th now_time
  = Ok (resolve_clock E (mkDT (ymd2ord 1900 1 1) h m 0 0) now_time).
Proof.
  intros Hn Hc. rewrite (get_theme_time_clock _ _ _ _ Hn).
  now rewrite (strptime_HM_complete E _ _ _ Hc).
Qed.

(** C6, as the code has it: for every time specifier that is not a solar
    token the resolver ends with the format error exactly when the string
    is not a clock text, that is an hour, a colon and a minute, where the
    hour is one decimal digit, or the ASCII digit 0 or 1 and a decimal
    digit, or the ASCII digit 2 and an ASCII digit up to 3, the minute is
    one decimal digit, or an ASCII digit up to 5 and a decimal digit, and a
    decimal digit is any decimal digit of Unicode; every clock text
    resolves, to the hour and minute it denotes.  On a string of ASCII
    characters the clock texts are: one or two digits of value up to 23, a
    colon, one or two digits of value up to 59.  So a string with a second
    colon (seconds) and every string that starts with [24:] are rejected,
    while single-digit fields are accepted.  With the decimal digits of
    Unicode 14.0, the Arabic-Indic text nine, colon, five is read as 9:05,
    and 2 followed by the Arabic-Indic three is no hour. *)
Theorem C6_format_error_iff_not_clock_string E circadian th now_time :
  time th ∉ times_of_sun ->
  (get_theme_time E circadian th now_time = SysExit (MsgTimeFormat (time th))
   <-> ~ exists h m, clock_text E (time th) h m) /\
  (forall h m,
      clock_text E (time th) h m <->
      strptime_HM E (time th) = Ok (mkDT (ymd2ord 1900 1 1) h m 0 0)) /\
  (forall h m, clock_text E (time th) h m ->
     get_theme_time E circadian th now_time
     = Ok (resolve_clock E (mkDT (ymd2ord 1900 1 1) h m 0 0) now_time)) /\
  (is_ascii (time th) = true ->
   forall h m, clock_text E (time th) h m <-> clock_string (time th) h m) /\
  ((2 <= colons (time th))%nat ->
   get_theme_time E circadian th now_time = SysExit (MsgTimeFormat (time th))) /\
  (forall rest, time th = String.append "24:" rest ->
   get_theme_time E circadian th now_time = SysExit (MsgTimeFormat (time th))) /\
  strptime_HM utc_zone "٩:٥" = Ok (mkDT (ymd2ord 1900 1 1) 9 5 0 0) /\
  strptime_HM utc_zone "2٣:00" = Raise ValueError.
Proof.
  intros Hn. rewrite (get_theme_time_clock _ _ _ _ Hn).
  assert (Hrej : (~ exists h m, clock_text E (time th) h m) ->
                 match strptime_HM E (time th) with
                 | Ok t => Ok (resolve_clock E t now_time)
                 | _ => SysExit (MsgTimeFormat (time th))
                 end = SysExit (MsgTimeFormat (time th))).
  { intros H. apply strptime_HM_rejects in H. now rewrite H. }
  split; [| split; [| split; [| split; [| split; [| split; [| split]]]]]];
    [| | | | | | vm_compute; reflexivity | vm_compute; reflexivity].
  - split; [| exact Hrej].
    intros H (h & m & Hc). apply strptime_HM_text in Hc.
    rewrite Hc in H. discriminate.
  - intros h m. symmetry. apply strptime_HM_accepts.
  - intros h m Hc. now rewrite (strptime_HM_text _ _ _ _ Hc).
  - intros Ha h m. split; [now apply clock_text_ascii |].
    apply clock_string_text.
  - intros H2. apply Hrej. intros (h & m & Hc).
    apply clock_text_colons in Hc. lia.
  - intros rest Hr. apply Hrej. intros (h & m & Hc).
    rewrite Hr in Hc. exact (clock_text_not_24 _ _ _ _ Hc).
Qed.

(** Instances: "24:00" is rejected; the text of the Arabic-Indic digits
    nine, colon, five resolves to 09:05. *)
Lemma C6_format_error_witness :
  get_theme_time utc_zone circadian_ABC (mkTheme "A" "24:00")
                 (mkDT (ymd2ord 2024 6 15) 15 0 0 0)
  = SysExit (MsgTimeFormat "24:00") /\
  get_theme_time utc_zone circadian_ABC (mkTheme "A" "٩:٥")
                 (mkDT (ymd2ord 2024 6 15) 15 0 0 0)
  = Ok (mkDT (ymd2ord 2024 6 15) 9 5 0 0).
Proof.
  assert (Hn : forall s, bool_decide (s ∈ times_of_sun) = false ->
                         s ∉ times_of_sun).
  { intros s Hs H. apply (bool_decide_eq_true_2 _) in H. congruence. }
  split.
  - destruct (C6_format_error_iff_not_clock_string
                utc_zone circadian_ABC (mkTheme "A" "24:00")
                (mkDT (ymd2ord 2024 6 15) 15 0 0 0))
      as (_ & _ & _ & _ & _ & H24 & _).
    + apply Hn. vm_compute. reflexivity.
    + exact (H24 "00" eq_refl).
  - destruct (C6_format_error_iff_not_clock_string
                utc_zone circadian_ABC (mkTheme "A" "٩:٥")
                (mkDT (ymd2ord 2024 6 15) 15 0 0 0))
      as (_ & _ & Hok & _).
    + apply Hn. vm_compute. reflexivity.
    + refine (Hok 9 5 _).
      exists "٩", "٥". split; [reflexivity |].
      split; constructor; eexists; split; reflexivity.
Defined.

(** C6 as stated fails: "9:05" is not two digits, a colon and two digits,
    yet it is not rejected: it resolves to 09:05. *)
Lemma C6_counterexample :
  two_digit_colon_two_digit "9:05" = false /\
  get_theme_time utc_zone circadian_ABC (mkTheme "A" "9:05")
                 (mkDT (ymd2ord 2024 6 15) 15 0 0 0)
  = Ok (mkDT (ymd2ord 2024 6 15) 9 5 0 0).
Proof. vm_compute. split; reflexivity. Qed.

(** ** C7 and C9: the date and the clock time of the resolved instant *)

Lemma of_us_seconds (n : Z) :
  ordinal (of_us n) * 86400 + day_seconds (of_us n) = n / 1000000.
Proof.
  pose proof (to_us_of_us n) as H. unfold to_us in H.
  pose proof (Z.div_mod n 1000000 ltac:(lia)) as Hn.
  assert (Hm : microsecond (of_us n) = n mod 1000000) by reflexivity.
  lia.
Qed.

Lemma utc_to_seconds_add_seconds (d : datetime) (x : Z) :
  0 <= microsecond d < 1000000 ->
  utc_to_seconds (add_seconds d x) = utc_to_seconds d + x.
Proof.
  intros Hu. unfold utc_to_seconds, add_seconds.
  pose proof (of_us_seconds (to_us d + x * 1000000)) as H.
  assert (E : (to_us d + x * 1000000) / 1000000
              = ordinal d * 86400 + day_seconds d + x).
  { symmetry. apply (Z.div_unique _ _ _ (microsecond d)); [lia |].
    unfold to_us. lia. }
  lia.
Qed.

Lemma digits_value_nonneg s n : digits_value s n -> 0 <= n.
Proof.
  intros [c d D | c1 c2 d1 d2 D1 D2].
  - pose proof (digit_value_range _ _ D). lia.
  - pose proof (digit_value_range _ _ D1).
    pose proof (digit_value_range _ _ D2). lia.
Qed.

Lemma clock_string_range s h m :
  clock_string s h m -> 0 <= h <= 23 /\ 0 <= m <= 59.
Proof.
  intros (hs & ms & _ & Hh & Hm & ? & ?).
  apply digits_value_nonneg in Hh. apply digits_value_nonneg in Hm. lia.
Qed.

(** Where the offset of the local zone is the constant [c] for two days on
    either side of the wall-clock reading [d], [local_to_seconds] finds the
    instant [d - c]. *)
Lemma local_to_seconds_constant E d c :
  -86400 < c < 86400 ->
  (forall u, utc_to_seconds d - 172800 <= u <= utc_to_seconds d + 172800 ->
             tm_gmtoff E u = c) ->
  local_to_seconds E d = utc_to_seconds d - c.
Proof.
  intros Hc Hw. unfold local_to_seconds, local, max_fold_seconds.
  set (t := utc_to_seconds d) in *.
  rewrite (Hw t) by lia.
  replace (t + c - t) with c by lia.
  rewrite (Hw (t - c)) by lia.
  replace (t - c + c) with t by lia.
  rewrite Z.eqb_refl.
  rewrite (Hw (t - c - 86400)) by lia.
  replace (t - c - 86400 + c - (t - c - 86400)) with c by lia.
  now rewrite Z.eqb_refl.
Qed.

Lemma resolve_clock_constant E parsed now_time c :
  valid_time parsed ->
  -86400 < c < 86400 ->
  (forall u,
      utc_to_seconds (replace_date parsed now_time) - 172800 <= u
      <= utc_to_seconds (replace_date parsed now_time) + 172800 ->
      tm_gmtoff E u = c) ->
  resolve_clock E parsed now_time
  = add_seconds (replace_date parsed now_time) (- c) /\
  to_local_wall E (resolve_clock E parsed now_time)
  = replace_date parsed now_time.
Proof.
  intros Hv Hc Hw.
  set (d := replace_date parsed now_time) in *.
  assert (Hd : valid_time d) by exact Hv.
  assert (Hu : 0 <= microsecond d < 1000000) by apply Hd.
  assert (R : resolve_clock E parsed now_time = add_seconds d (- c)).
  { unfold resolve_clock, astimezone_local, astimezone_utc. fold d.
    cbn [fst snd].
    rewrite (local_to_seconds_constant E d c Hc Hw).
    rewrite (Hw (utc_to_seconds d - c)) by lia.
    rewrite (utc_to_seconds_add_seconds d (- c) Hu).
    replace (utc_to_seconds d + - c) with (utc_to_seconds d - c) by lia.
    rewrite (Hw (utc_to_seconds d - c)) by lia.
    rewrite !add_seconds_add_seconds. f_equal. lia. }
  split; [exact R |].
  rewrite R. unfold to_local_wall, astimezone_local. cbn [fst].
  rewrite !add_seconds_add_seconds.
  rewrite (utc_to_seconds_add_seconds d _ Hu).
  replace (utc_to_seconds d + (- c + - 0)) with (utc_to_seconds d - c) by lia.
  rewrite (Hw (utc_to_seconds d - c)) by lia.
  match goal with |- add_seconds d ?x = d =>
    replace x with 0 by lia end.
  now apply add_seconds_0.
Qed.

(** A solar result keeps its instant through the two conversions. *)
Lemma astimezone_aware_round_trip E d :
  valid_time d ->
  let localized := astimezone_local E d (Aware 0) in
  astimezone_utc localized.1 localized.2 = d.
Proof.
  intros Hv. unfold astimezone_local, astimezone_utc. cbn [fst snd].
  rewrite !add_seconds_add_seconds.
  match goal with |- add_seconds d ?x = d =>
    replace x with 0 by lia end.
  now apply add_seconds_0.
Qed.

Lemma get_theme_time_solar E circadian th now_time lat lon t :
  time th ∈ times_of_sun ->
  py_float E (default ∅ (coordinates circadian) !! "latitude") = Ok lat ->
  py_float E (default ∅ (coordinates circadian) !! "longitude") = Ok lon ->
  astral_sun E lat lon (ordinal now_time) (time th) = Some t ->
  valid_time t ->
  get_theme_time E circadian th now_time = Ok (replace_date t now_time).
Proof.
  intros Hin Hlat Hlon Hsun Hv. unfold get_theme_time.
  rewrite (bool_decide_eq_true_2 _ Hin).
  cbn [convert_coordinates]. rewrite Hlat, Hlon. cbn. rewrite Hsun. cbn.
  f_equal. now apply (astimezone_aware_round_trip E (replace_date t now_time)).
Qed.

Lemma get_theme_time_clock_text E circadian th now_time h m :
  time th ∉ times_of_sun -> clock_text E (time th) h m ->
  get_theme_time E circadian th now_time
  = Ok (resolve_clock E (mkDT (ymd2ord 1900 1 1) h m 0 0) now_time).
Proof.
  intros Hn Hc. rewrite (get_theme_time_clock _ _ _ _ Hn).
  now rewrite (strptime_HM_text _ _ _ _ Hc).
Qed.

(** The resolved instant is the wall-clock reading less the offset that
    [astimezone] chose for it; its local reading is the wall-clock reading
    moved by [reading_shift]. *)
Lemma resolve_clock_reading E parsed now_time :
  valid_time parsed ->
  let d := replace_date parsed now_time in
  resolve_clock E parsed now_time = add_seconds d (- chosen_offset E d) /\
  to_local_wall E (resolve_clock E parsed now_time)
  = add_seconds d (reading_shift E d).
Proof.
  intros Hv d.
  assert (Hu : 0 <= microsecond d < 1000000) by apply Hv.
  assert (R : resolve_clock E parsed now_time
              = add_seconds d (- chosen_offset E d)).
  { unfold resolve_clock, astimezone_local, astimezone_utc. fold d.
    cbn [fst snd]. fold (chosen_offset E d).
    rewrite !add_seconds_add_seconds. f_equal. lia. }
  split; [exact R |].
  rewrite R. unfold to_local_wall, astimezone_local. cbn [fst].
  rewrite !add_seconds_add_seconds.
  rewrite (utc_to_seconds_add_seconds d _ Hu).
  unfold reading_shift. f_equal.
  replace (utc_to_seconds d + (- chosen_offset E d + - 0))
    with (utc_to_seconds d - chosen_offset E d) by lia.
  lia.
Qed.

Lemma reading_shift_exists E d :
  wall_clock_exists E d -> reading_shift E d = 0.
Proof.
  unfold wall_clock_exists, reading_shift, chosen_offset, local. intros H.
  replace (utc_to_seconds d - tm_gmtoff E (local_to_seconds E d))
    with (local_to_seconds E d) by lia.
  lia.
Qed.

(** A wall-clock reading exists as soon as the zone has the same offset at
    the two instants that [mktime] probes first: the reading taken as UTC,
    and that instant less its offset. *)
Lemma wall_clock_exists_two_probes E d :
  tm_gmtoff E (utc_to_seconds d - tm_gmtoff E (utc_to_seconds d))
  = tm_gmtoff E (utc_to_seconds d) ->
  wall_clock_exists E d.
Proof.
  unfold wall_clock_exists, local_to_seconds, local, max_fold_seconds.
  set (t := utc_to_seconds d). intros H.
  replace (t + tm_gmtoff E t - t) with (tm_gmtoff E t) by lia.
  rewrite H.
  replace (t - tm_gmtoff E t + tm_gmtoff E t) with t by lia.
  rewrite Z.eqb_refl.
  repeat match goal with
         | |- context [Z.eqb ?a ?b] => destruct (Z.eqb_spec a b)
         end; lia.
Qed.

(** The date of a wall-clock reading moved by [s] seconds. *)
Lemma ordinal_add_seconds (o h m s : Z) :
  ordinal (add_seconds (mkDT o h m 0 0) s)
  = o + (h * 3600 + m * 60 + s) / 86400.
Proof.
  unfold add_seconds, to_us, day_seconds. cbn [ordinal hour minute second
    microsecond].
  replace ((o * 86400 + (h * 3600 + m * 60 + 0)) * 1000000 + 0 + s * 1000000)
    with ((o * 86400 + (h * 3600 + m * 60 + s)) * 1000000) by lia.
  unfold of_us. cbn [ordinal]. rewrite Z.div_mul by lia.
  rewrite Z.add_comm, Z.div_add by lia. lia.
Qed.

(** In the zone of the New York example the wall-clock readings that do not
    exist are those of the skipped hour, from 02:00 to 03:00 on 10 March
    2024. *)
Lemma wall_clock_exists_new_york d :
  wall_clock_exists new_york_2024 d <->
  ~ (1710036000 <= utc_to_seconds d < 1710039600).
Proof.
  unfold wall_clock_exists, local_to_seconds, local, max_fold_seconds,
    new_york_2024. cbn [tm_gmtoff].
  set (t := utc_to_seconds d).
  repeat match goal with
         | |- context [Z.ltb ?a ?b] => destruct (Z.ltb_spec a b)
         | |- context [Z.eqb ?a ?b] => destruct (Z.eqb_spec a b)
         end; lia.
Qed.

(** C7, as the code has it: the resolver builds the instant on the UTC
    calendar date of the reference instant.  For a clock text, the local
    reading of the returned instant is the requested wall-clock time on
    that date moved by the reading shift of the zone; it lies on the UTC
    calendar date of the reference instant exactly when the moved time of
    day stays within the day; where the requested wall-clock time exists
    in the local zone the shift is zero, and the local reading is the
    requested time on that date.  For a solar token the returned instant
    is the result of [astral] moved to that date, in UTC. *)
Theorem C7_resolved_on_utc_date_of_reference E circadian th now_time :
  (forall h m,
      time th ∉ times_of_sun -> clock_text E (time th) h m ->
      let d := mkDT (ordinal now_time) h m 0 0 in
      exists r,
        get_theme_time E circadian th now_time = Ok r /\
        to_local_wall E r = add_seconds d (reading_shift E d) /\
        (ordinal (to_local_wall E r) = ordinal now_time <->
         0 <= h * 3600 + m * 60 + reading_shift E d < 86400) /\
        (wall_clock_exists E d -> to_local_wall E r = d)) /\
  (forall lat lon t,
      time th ∈ times_of_sun ->
      py_float E (default ∅ (coordinates circadian) !! "latitude") = Ok lat ->
      py_float E (default ∅ (coordinates circadian) !! "longitude") = Ok lon ->
      astral_sun E lat lon (ordinal now_time) (time th) = Some t ->
      valid_time t ->
      exists r,
        get_theme_time E circadian th now_time = Ok r /\
        ordinal r = ordinal now_time /\
        hour r = hour t /\ minute r = minute t /\ second r = second t).
Proof.
  split.
  - intros h m Hn Hc d.
    exists (resolve_clock E (mkDT (ymd2ord 1900 1 1) h m 0 0) now_time).
    split; [now apply get_theme_time_clock_text |].
    pose proof (clock_text_range _ _ _ _ Hc) as [Hh Hm].
    assert (Hv : valid_time (mkDT (ymd2ord 1900 1 1) h m 0 0))
      by (unfold valid_time; cbn; lia).
    destruct (resolve_clock_reading E _ now_time Hv) as [_ R].
    change (replace_date (mkDT (ymd2ord 1900 1 1) h m 0 0) now_time)
      with d in R.
    split; [exact R |]. split.
    + rewrite R. unfold d. rewrite ordinal_add_seconds.
      set (y := h * 3600 + m * 60 + _).
      split; intros H.
      * assert (H0 : y / 86400 = 0) by lia.
        apply Z.div_small_iff in H0; lia.
      * rewrite Z.div_small by lia. lia.
    + intros Hex. rewrite R, (reading_shift_exists _ _ Hex).
      apply add_seconds_0. unfold valid_time, d; cbn. lia.
  - intros lat lon t Hin Hlat Hlon Hsun Hv.
    exists (replace_date t now_time).
    split; [| repeat split].
    apply (get_theme_time_solar E circadian th now_time lat lon t); assumption.
Qed.

(** Instances: in New York on 10 March 2024, the day of a clock change, the
    entry 10:00 resolves to an instant that reads 10:00 of that day in
    local time; in Sao Paulo on 4 November 2018, where the clocks go from
    00:00 to 01:00, the entry 00:30 resolves to an instant that reads
    23:30 of 3 November; a sunset entry keeps the time that [astral]
    gives. *)
Lemma C7_resolved_date_witness :
  (exists r,
      get_theme_time new_york_2024 circadian_ABC (mkTheme "A" "10:00")
                     (mkDT (ymd2ord 2024 3 10) 23 0 0 0) = Ok r /\
      to_local_wall new_york_2024 r = mkDT (ymd2ord 2024 3 10) 10 0 0 0) /\
  (exists r,
      get_theme_time sao_paulo_2018 circadian_ABC (mkTheme "A" "00:30")
                     (mkDT (ymd2ord 2018 11 4) 12 0 0 0) = Ok r /\
      to_local_wall sao_paulo_2018 r = mkDT (ymd2ord 2018 11 3) 23 30 0 0 /\
      ordinal (to_local_wall sao_paulo_2018 r) <> ymd2ord 2018 11 4) /\
  (exists r,
      get_theme_time utc_zone circadian_solar (mkTheme "B" "sunset")
                     (mkDT (ymd2ord 2024 1 1) 23 0 0 0) = Ok r /\
      ordinal r = ymd2ord 2024 1 1 /\
      hour r = 15 /\ minute r = 53 /\ second r = 2).
Proof.
  split; [| split].
  - destruct (proj1 (C7_resolved_on_utc_date_of_reference new_york_2024
              circadian_ABC (mkTheme "A" "10:00")
              (mkDT (ymd2ord 2024 3 10) 23 0 0 0)) 10 0)
      as (r & Hr & _ & _ & Hex).
    + intros H. apply (bool_decide_eq_true_2 _) in H. vm_compute in H.
      discriminate.
    + apply clock_string_text. exists "10", "00". repeat split.
      * exact (digits_two "1" "0" 1 0 eq_refl eq_refl).
      * exact (digits_two "0" "0" 0 0 eq_refl eq_refl).
      * lia.
      * lia.
    + exists r. split; [exact Hr |]. apply Hex. reflexivity.
  - destruct (proj1 (C7_resolved_on_utc_date_of_reference sao_paulo_2018
              circadian_ABC (mkTheme "A" "00:30")
              (mkDT (ymd2ord 2018 11 4) 12 0 0 0)) 0 30)
      as (r & Hr & Hread & Hiff & _).
    + intros H. apply (bool_decide_eq_true_2 _) in H. vm_compute in H.
      discriminate.
    + apply clock_string_text. exists "00", "30". repeat split.
      * exact (digits_two "0" "0" 0 0 eq_refl eq_refl).
      * exact (digits_two "3" "0" 3 0 eq_refl eq_refl).
      * lia.
      * lia.
    + exists r. split; [exact Hr |]. split.
      * rewrite Hread. vm_compute. reflexivity.
      * intros H. apply Hiff in H. vm_compute in H.
        destruct H as [H _]. now apply H.
  - refine (proj2 (C7_resolved_on_utc_date_of_reference utc_zone
              circadian_solar (mkTheme "B" "sunset")
              (mkDT (ymd2ord 2024 1 1) 23 0 0 0))
              (TFloat 515 (-1)) (TFloat (-1) (-1))
              (mkDT (ymd2ord 2024 1 1) 15 53 2 0) _ _ _ _ _).
    + apply (bool_decide_eq_true_1 _). vm_compute. reflexivity.
    + vm_compute. reflexivity.
    + vm_compute. reflexivity.
    + vm_compute. reflexivity.
    + unfold valid_time; cbn; lia.
Defined.

(** C7 as stated fails: in a zone two hours east of UTC, at 23:00 UTC of
    1 January (01:00 of 2 January in local time), the entry 10:00 resolves
    to 08:00 UTC of 1 January, which is 10:00 of 1 January in local time:
    the UTC date of the reference instant, not its local date. *)
Lemma C7_counterexample :
  let E := fixed_zone 7200 in
  let now_time := mkDT (ymd2ord 2024 1 1) 23 0 0 0 in
  let r := mkDT (ymd2ord 2024 1 1) 8 0 0 0 in
  get_theme_time E circadian_ABC (mkTheme "A" "10:00") now_time = Ok r /\
  ordinal (to_local_wall E now_time) = ymd2ord 2024 1 2 /\
  ordinal (to_local_wall E r) = ymd2ord 2024 1 1 /\
  ordinal (to_local_wall E r) <> ordinal (to_local_wall E now_time).
Proof. vm_compute. repeat split. discriminate. Qed.

(** C9, as the code has it: for every clock text that the parser accepts
    and every reference instant, where the requested wall-clock time exists
    in the local zone on the UTC date of the reference instant, resolving
    the string and reading the result back as local wall-clock time gives
    the hour and minute of the string. *)
Theorem C9_clock_round_trip_existing_time E circadian th now_time h m :
  time th ∉ times_of_sun -> clock_text E (time th) h m ->
  wall_clock_exists E (mkDT (ordinal now_time) h m 0 0) ->
  exists r,
    get_theme_time E circadian th now_time = Ok r /\
    hour (to_local_wall E r) = h /\ minute (to_local_wall E r) = m.
Proof.
  intros Hn Hc Hex.
  exists (resolve_clock E (mkDT (ymd2ord 1900 1 1) h m 0 0) now_time).
  split; [now apply get_theme_time_clock_text |].
  pose proof (clock_text_range _ _ _ _ Hc) as [Hh Hm].
  assert (Hv : valid_time (mkDT (ymd2ord 1900 1 1) h m 0 0))
    by (unfold valid_time; cbn; lia).
  destruct (resolve_clock_reading E _ now_time Hv) as [_ R].
  change (replace_date (mkDT (ymd2ord 1900 1 1) h m 0 0) now_time)
    with (mkDT (ordinal now_time) h m 0 0) in R.
  rewrite R, (reading_shift_exists _ _ Hex), add_seconds_0;
    [split; reflexivity |].
  unfold valid_time; cbn. lia.
Qed.

(** Instances on the day of the clock change in New York, 10 March 2024:
    03:30, the first half hour after the skipped one, and 10:00 keep their
    hour and minute. *)
Lemma C9_clock_round_trip_witness :
  (exists r,
      get_theme_time new_york_2024 circadian_ABC (mkTheme "A" "03:30")
                     (mkDT (ymd2ord 2024 3 10) 12 0 0 0) = Ok r /\
      hour (to_local_wall new_york_2024 r) = 3 /\
      minute (to_local_wall new_york_2024 r) = 30) /\
  (exists r,
      get_theme_time new_york_2024 circadian_ABC (mkTheme "A" "10:00")
                     (mkDT (ymd2ord 2024 3 10) 12 0 0 0) = Ok r /\
      hour (to_local_wall new_york_2024 r) = 10 /\
      minute (to_local_wall new_york_2024 r) = 0).
Proof.
  split.
  - refine (C9_clock_round_trip_existing_time new_york_2024
              circadian_ABC (mkTheme "A" "03:30")
              (mkDT (ymd2ord 2024 3 10) 12 0 0 0) 3 30 _ _ _).
    + intros H. apply (bool_decide_eq_true_2 _) in H. vm_compute in H.
      discriminate.
    + apply clock_string_text. exists "03", "30". repeat split.
      * exact (digits_two "0" "3" 0 3 eq_refl eq_refl).
      * exact (digits_two "3" "0" 3 0 eq_refl eq_refl).
      * lia.
      * lia.
    + reflexivity.
  - refine (C9_clock_round_trip_existing_time new_york_2024
              circadian_ABC (mkTheme "A" "10:00")
              (mkDT (ymd2ord 2024 3 10) 12 0 0 0) 10 0 _ _ _).
    + intros H. apply (bool_decide_eq_true_2 _) in H. vm_compute in H.
      discriminate.
    + apply clock_string_text. exists "10", "00". repeat split.
      * exact (digits_two "1" "0" 1 0 eq_refl eq_refl).
      * exact (digits_two "0" "0" 0 0 eq_refl eq_refl).
      * lia.
      * lia.
    + reflexivity.
Defined.

(** C9 as stated fails where the wall-clock time does not exist: in New
    York on 10 March 2024 the clocks go from 02:00 to 03:00, the entry
    02:30 resolves to 06:30 UTC, and 06:30 UTC reads 01:30 in local time. *)
Lemma C9_counterexample :
  let now_time := mkDT (ymd2ord 2024 3 10) 12 0 0 0 in
  let r := mkDT (ymd2ord 2024 3 10) 6 30 0 0 in
  clock_string "02:30" 2 30 /\
  get_theme_time new_york_2024 circadian_ABC (mkTheme "A" "02:30") now_time
  = Ok r /\
  hour (to_local_wall new_york_2024 r) = 1 /\
  minute (to_local_wall new_york_2024 r) = 30.
Proof.
  split; [| vm_compute; repeat split].
  exists "02", "30". repeat split; try lia.
  - exact (digits_two "0" "2" 0 2 eq_refl eq_refl).
  - exact (digits_two "3" "0" 3 0 eq_refl eq_refl).
Qed.

(** ** C8: coordinates that are not numbers *)

(** C8, as the code has it: whenever an entry uses a solar token and a
    configured coordinate is a string that [float] rejects, while neither
    coordinate is of a kind [float] cannot take, the resolution of that
    entry ends the process with the message naming both coordinates.  The
    check is part of every such call of the resolver, whatever the
    reference instant; the resolution of a clock string does not look at
    the coordinates at all. *)
Theorem C8_bad_coordinates_exit_on_each_call E circadian th now_time :
  (time th ∈ times_of_sun ->
   let s_lat := default ∅ (coordinates circadian) !! "latitude" in
   let s_lon := default ∅ (coordinates circadian) !! "longitude" in
   py_float E s_lat = Raise ValueError \/ py_float E s_lon = Raise ValueError ->
   py_float E s_lat <> Raise TypeError ->
   py_float E s_lon <> Raise TypeError ->
   get_theme_time E circadian th now_time
   = SysExit (MsgCoordinates s_lat s_lon)) /\
  (time th ∉ times_of_sun ->
   forall coords,
     get_theme_time E (mkCircadian coords (themes circadian)) th now_time
     = get_theme_time E circadian th now_time).
Proof.
  split.
  - intros Hin s_lat s_lon Hbad Hlat Hlon. unfold get_theme_time.
    rewrite (bool_decide_eq_true_2 _ Hin). fold s_lat s_lon.
    cbn [convert_coordinates].
    assert (Hno : forall v e, py_float E v = Raise e -> e <> TypeError ->
                              e = ValueError).
    { intros v e Hv Hne.
      destruct (py_float_raises _ _ _ Hv); congruence. }
    assert (Hex : forall v msg, py_float E v <> SysExit msg)
      by apply py_float_no_exit.
    destruct (py_float E s_lat) as [lat | msg | e1] eqn:P1;
      [| exfalso; eapply Hex; eauto |];
      (destruct (py_float E s_lon) as [lon | msg | e2] eqn:P2;
       [| exfalso; eapply Hex; eauto |]).
    + destruct Hbad; discriminate.
    + assert (e2 = ValueError) as -> by (apply (Hno s_lon); congruence).
      reflexivity.
    + assert (e1 = ValueError) as -> by (apply (Hno s_lat); congruence).
      reflexivity.
    + assert (e1 = ValueError) as -> by (apply (Hno s_lat); congruence).
      assert (e2 = ValueError) as -> by (apply (Hno s_lon); congruence).
      reflexivity.
  - intros Hn coords. now rewrite !(get_theme_time_clock _ _ _ _ Hn).
Qed.

Lemma C8_bad_coordinates_witness :
  get_theme_time utc_zone circadian_bad_latitude (mkTheme "B" "sunset")
                 (mkDT (ymd2ord 2024 6 15) 15 0 0 0)
  = SysExit (MsgCoordinates (Some (TString "abc")) (Some (TFloat (-1) (-1)))).
Proof.
  refine (proj1 (C8_bad_coordinates_exit_on_each_call utc_zone
            circadian_bad_latitude (mkTheme "B" "sunset")
            (mkDT (ymd2ord 2024 6 15) 15 0 0 0)) _ _ _ _).
  - apply (bool_decide_eq_true_1 _). vm_compute. reflexivity.
  - left. vm_compute. reflexivity.
  - vm_compute. discriminate.
  - vm_compute. discriminate.
Defined.

(** C8 as stated fails.  With a latitude that is not a number and a solar
    entry in the schedule, the clock entry before it is resolved first and
    resolves: nothing is checked before the first resolution, and the
    process only ends when the loop reaches the solar entry.  Without
    coordinates the resolution of the solar entry raises [TypeError], which
    no handler catches. *)
Lemma C8_counterexample :
  let now_time := mkDT (ymd2ord 2024 6 15) 15 0 0 0 in
  get_theme_time utc_zone circadian_bad_latitude (mkTheme "A" "10:00") now_time
  = Ok (mkDT (ymd2ord 2024 6 15) 10 0 0 0) /\
  select_theme utc_zone circadian_bad_latitude now_time
  = SysExit (MsgCoordinates (Some (TString "abc")) (Some (TFloat (-1) (-1)))) /\
  get_theme_time utc_zone circadian_no_coordinates (mkTheme "B" "sunset")
                 now_time
  = Raise TypeError.
Proof. vm_compute. repeat split. Qed.

(** * Further properties of the code *)

(** ** The outcomes of [get_theme_time] *)

Lemma py_float_type_error E v :
  py_float E v = Raise TypeError <-> unconvertible v.
Proof.
  destruct v as [[x | z | a b | bb | text | items | t] |]; cbn;
    try destruct (float_accepts E x); split;
    try discriminate; try (intros []); auto.
Qed.

Lemma py_float_outcomes E v :
  match py_float E v with
  | Ok f => v = Some f
  | SysExit _ => False
  | Raise e => e = TypeError \/ e = ValueError
  end.
Proof.
  destruct v as [[x | z | a b | bb | text | items | t] |]; cbn;
    try destruct (float_accepts E x); auto.
Qed.

Lemma get_theme_time_outcomes E circadian th now_time :
  match get_theme_time E circadian th now_time with
  | Ok r => valid_time r
  | SysExit msg =>
    (time th ∈ times_of_sun /\
     msg = MsgCoordinates (default ∅ (coordinates circadian) !! "latitude")
                          (default ∅ (coordinates circadian) !! "longitude")) \/
    ((time th ∉ times_of_sun) /\ msg = MsgTimeFormat (time th))
  | Raise e => time th ∈ times_of_sun /\ (e = TypeError \/ e = ValueError)
  end.
Proof.
  destruct (get_theme_time E circadian th now_time) as [r | msg | e] eqn:G.
  - eapply get_theme_time_valid; eauto.
  - destruct (decide (time th ∈ times_of_sun)) as [Hin | Hn].
    + left. split; [assumption |]. unfold get_theme_time in G.
      rewrite (bool_decide_eq_true_2 _ Hin) in G.
      destruct (convert_coordinates E _ true) as [[l ok] | m' | e'] eqn:C;
        cbn in G.
      * destruct ok; cbn in G; [| congruence].
        destruct l as [| [lat |] [| [lon |] [| ? ?]]]; cbn in G;
          try discriminate.
        destruct (astral_sun E lat lon (ordinal now_time) (time th)); discriminate.
      * exfalso. cbn in C.
        pose proof (py_float_outcomes E
          (default ∅ (coordinates circadian) !! "latitude")) as H1.
        pose proof (py_float_outcomes E
          (default ∅ (coordinates circadian) !! "longitude")) as H2.
        destruct (py_float E (default ∅ (coordinates circadian) !! "latitude"))
          as [? | ? | e1]; try contradiction;
          [| destruct H1 as [-> | ->]; try discriminate];
          (destruct (py_float E
                       (default ∅ (coordinates circadian) !! "longitude"))
             as [? | ? | e2]; try contradiction;
           [| destruct H2 as [-> | ->]]; discriminate).
      * discriminate.
    + right. split; [assumption |].
      rewrite (get_theme_time_clock _ _ _ _ Hn) in G.
      destruct (strptime_HM E (time th)); congruence.
  - split; [| eapply get_theme_time_raises; eauto].
    destruct (decide (time th ∈ times_of_sun)) as [Hin | Hn]; [assumption |].
    rewrite (get_theme_time_clock _ _ _ _ Hn) in G.
    destruct (strptime_HM E (time th)); discriminate.
Qed.

(** [get_theme_time] reads the [time] of the entry and the [coordinates]
    of the configuration, nothing else. *)
Lemma get_theme_time_reads E circadian th now_time :
  get_theme_time E circadian th now_time
  = get_theme_time E (mkCircadian (coordinates circadian) None)
                   (mkTheme "" (time th)) now_time.
Proof. reflexivity. Qed.

(** X1: the outcomes of [get_theme_time] on an entry and on coordinates of
    any kind.  It returns a datetime with fields in range, for an entry
    with a string [time] only; or it ends the process, with the
    coordinates message (solar tokens only) or with the time-format
    message (other strings only); or an exception escapes: [KeyError] for
    an entry without [time], [TypeError] for a [time] that is not a string,
    and for a solar token [AttributeError], [TypeError] or [ValueError];
    nothing else happens.  On an entry with a string [name] and [time] and
    with [coordinates] absent or a table it is [get_theme_time] of the
    typed configuration. *)
Theorem X1_get_theme_time_outcomes E coords entry now_time :
  match get_theme_time_untyped E coords entry now_time with
  | Ok r => valid_time r /\ exists s, entry !! "time" = Some (TString s)
  | SysExit msg =>
    exists s,
      entry !! "time" = Some (TString s) /\
      ((s ∈ times_of_sun /\
        msg = MsgCoordinates (coordinate coords "latitude")
                             (coordinate coords "longitude")) \/
       ((s ∉ times_of_sun) /\ msg = MsgTimeFormat s))
  | Raise e =>
    (e = KeyError /\ entry !! "time" = None) \/
    (e = TypeError /\
     exists v, entry !! "time" = Some v /\ forall s, v <> TString s) \/
    (exists s,
        entry !! "time" = Some (TString s) /\ s ∈ times_of_sun /\
        (e = AttributeError \/ e = TypeError \/ e = ValueError))
  end /\
  (forall circadian th,
      get_theme_time_untyped E (TTable <$> coordinates circadian)
        {[ "name" := TString (name th); "time" := TString (time th) ]}
        now_time
      = get_theme_time E circadian th now_time).
Proof.
  split.
  - unfold get_theme_time_untyped.
    destruct (entry !! "time") as [[s | z | a b | bb | text | items | t] |]
      eqn:T;
      try (right; left; split; [reflexivity |];
           eexists; split; [reflexivity | discriminate]);
      [| left; auto].
    destruct (bool_decide (s ∈ times_of_sun)) eqn:B.
    + apply bool_decide_eq_true_1 in B.
      assert (Htyped : forall c,
                 coordinate coords "latitude" = default ∅ c !! "latitude" ->
                 coordinate coords "longitude" = default ∅ c !! "longitude" ->
                 match get_theme_time E (mkCircadian c None) (mkTheme "" s)
                         now_time with
                 | Ok r => valid_time r /\ exists s0, Some (TString s) = Some (TString s0)
                 | SysExit msg =>
                   exists s0,
                     Some (TString s) = Some (TString s0) /\
                     ((s0 ∈ times_of_sun /\
                       msg = MsgCoordinates (coordinate coords "latitude")
                                            (coordinate coords "longitude")) \/
                      ((s0 ∉ times_of_sun) /\ msg = MsgTimeFormat s0))
                 | Raise e =>
                   (e = KeyError /\ Some (TString s) = None) \/
                   (e = TypeError /\
                    exists v, Some (TString s) = Some v /\
                              forall s0, v <> TString s0) \/
                   (exists s0,
                       Some (TString s) = Some (TString s0) /\
                       s0 ∈ times_of_sun /\
                       (e = AttributeError \/ e = TypeError \/ e = ValueError))
                 end).
      { intros c Hlat Hlon.
        pose proof (get_theme_time_outcomes E (mkCircadian c None)
                      (mkTheme "" s) now_time) as H.
        destruct (get_theme_time E (mkCircadian c None) (mkTheme "" s)
                    now_time) as [r | msg | e]; cbn in H.
        - split; [exact H | eauto].
        - exists s. split; [reflexivity |].
          destruct H as [[_ ->] | [Hn _]]; [| contradiction].
          left. split; [exact B |]. now rewrite Hlat, Hlon.
        - right. right. exists s. split; [reflexivity |].
          split; [exact B |]. destruct H as [_ [-> | ->]]; auto. }
      destruct coords as [[x | z | a b | bb | text | items | t] |];
        try (right; right; exists s; auto);
        apply Htyped; reflexivity.
    + assert (Hn : s ∉ times_of_sun).
      { intros Hin. apply (bool_decide_eq_true_2 _) in Hin. congruence. }
      pose proof (get_theme_time_outcomes E (mkCircadian None None)
                    (mkTheme "" s) now_time) as H.
      destruct (get_theme_time E (mkCircadian None None) (mkTheme "" s)
                  now_time) as [r | msg | e]; cbn in H.
      * split; [exact H | eauto].
      * exists s. split; [reflexivity |].
        destruct H as [[Hin _] | [_ ->]]; [contradiction | auto].
      * destruct H as [Hin _]. contradiction.
  - intros circadian th. unfold get_theme_time_untyped.
    rewrite lookup_insert_ne by discriminate. rewrite lookup_singleton_eq.
    transitivity (get_theme_time E (mkCircadian (coordinates circadian) None)
                    (mkTheme "" (time th)) now_time);
      [| symmetry; apply get_theme_time_reads].
    destruct (bool_decide (time th ∈ times_of_sun)) eqn:B.
    + destruct (coordinates circadian); reflexivity.
    + apply bool_decide_eq_false_1 in B.
      rewrite (get_theme_time_clock E (mkCircadian None None)
                 (mkTheme "" (time th)) now_time B).
      rewrite (get_theme_time_clock E (mkCircadian (coordinates circadian) None)
                 (mkTheme "" (time th)) now_time B).
      reflexivity.
Qed.

(** X2: the solar branch, case by case, for a configuration whose
    [coordinates], when present, are a table.  An uncaught [TypeError]
    escapes exactly when a coordinate is absent or is a date or time, an
    array or a table; the process ends with the coordinates message
    exactly when both coordinates are of a kind that [float] takes (a
    string, an integer, a float or a boolean) and one of them is a string
    that is not a number; [ValueError] escapes exactly when both
    coordinates convert and [astral] fails for the date of [now]. *)
Theorem X2_solar_branch_cases E circadian th now_time :
  time th ∈ times_of_sun ->
  let s_lat := default ∅ (coordinates circadian) !! "latitude" in
  let s_lon := default ∅ (coordinates circadian) !! "longitude" in
  (get_theme_time E circadian th now_time = Raise TypeError
   <-> unconvertible s_lat \/ unconvertible s_lon) /\
  (get_theme_time E circadian th now_time
   = SysExit (MsgCoordinates s_lat s_lon)
   <-> ~ unconvertible s_lat /\ ~ unconvertible s_lon /\
       (py_float E s_lat = Raise ValueError \/
        py_float E s_lon = Raise ValueError)) /\
  (get_theme_time E circadian th now_time = Raise ValueError
   <-> exists lat lon,
         py_float E s_lat = Ok lat /\ py_float E s_lon = Ok lon /\
         astral_sun E lat lon (ordinal now_time) (time th) = None).
Proof.
  intros Hin s_lat s_lon. unfold get_theme_time.
  rewrite (bool_decide_eq_true_2 _ Hin). fold s_lat s_lon.
  cbn [convert_coordinates].
  rewrite <- !py_float_type_error with (E := E).
  pose proof (py_float_outcomes E s_lat) as H1.
  pose proof (py_float_outcomes E s_lon) as H2.
  destruct (py_float E s_lat) as [lat | ? | [] ]; try contradiction;
    try (destruct H1; discriminate);
    (destruct (py_float E s_lon) as [lon | ? | [] ]; try contradiction;
     try (destruct H2; discriminate)); cbn;
    try destruct (astral_sun E lat lon (ordinal now_time) (time th)) eqn:A; cbn;
    (split; [| split]); split;
    try discriminate; try reflexivity; try tauto;
    try (intros [? | ?]; discriminate);
    try (intros (_ & _ & [? | ?]); discriminate);
    try (intros (? & _); congruence);
    try (intros (_ & ? & _); congruence);
    try (intros (? & ? & ? & ? & ?); congruence);
    try (intros _; repeat split; try discriminate; auto; fail);
    try (intros _; eauto; fail).
Qed.

Lemma X2_solar_branch_witness :
  get_theme_time utc_zone circadian_no_coordinates (mkTheme "B" "sunset")
                 (mkDT (ymd2ord 2024 6 15) 15 0 0 0)
  = Raise TypeError.
Proof.
  refine (proj2 (proj1 (X2_solar_branch_cases utc_zone
            circadian_no_coordinates (mkTheme "B" "sunset")
            (mkDT (ymd2ord 2024 6 15) 15 0 0 0) _)) _).
  - apply (bool_decide_eq_true_1 _). vm_compute. reflexivity.
  - left. exact I.
Defined.

(** ** What the selector chooses *)

Lemma candidate_valid theme_time now_time :
  valid_time theme_time -> valid_time (candidate theme_time now_time).
Proof.
  intros (? & ? & _). unfold valid_time, candidate; cbn. lia.
Qed.

Lemma candidate_not_after theme_time now_time :
  valid_time now_time -> valid_time theme_time ->
  dt_ltb now_time (candidate theme_time now_time) = false ->
  day_seconds (candidate theme_time now_time) <= day_seconds now_time.
Proof.
  intros Hn Ht Hlt.
  rewrite dt_ltb_to_us in Hlt by auto using candidate_valid.
  apply Z.ltb_ge in Hlt. destruct Hn as (_ & _ & _ & Hu).
  unfold to_us, candidate, replace_time, day_seconds in *;
    cbn [ordinal hour minute second microsecond] in *. lia.
Qed.

Lemma elapsed_seconds_past (theme_time now_time : datetime) :
  valid_time now_time -> valid_time theme_time ->
  dt_ltb now_time (candidate theme_time now_time) = false ->
  elapsed_seconds theme_time now_time
  = day_seconds now_time - day_seconds (candidate theme_time now_time) + 1.
Proof.
  intros Hn Ht Hlt. rewrite elapsed_seconds_mod by assumption.
  pose proof (candidate_not_after _ _ Hn Ht Hlt) as Hle.
  assert (0 <= day_seconds (candidate theme_time now_time)).
  { destruct Ht as (? & ? & _). unfold candidate, day_seconds; cbn. lia. }
  assert (day_seconds now_time < 86400).
  { destruct Hn as (? & ? & ? & _). unfold day_seconds. lia. }
  rewrite Z.mod_small by lia. reflexivity.
Qed.

Lemma select_theme_nearest_past E circadian now_time ths :
  themes circadian = Some ths -> ths <> [] ->
  valid_time now_time ->
  all_resolve E circadian now_time ths ->
  (exists q theme_time_q,
      q ∈ ths /\ get_theme_time E circadian q now_time = Ok theme_time_q /\
      dt_ltb now_time (candidate theme_time_q now_time) = false) ->
  exists p theme_time_p,
    select_theme E circadian now_time = Ok p /\ p ∈ ths /\
    get_theme_time E circadian p now_time = Ok theme_time_p /\
    dt_ltb now_time (candidate theme_time_p now_time) = false /\
    forall q theme_time_q,
      q ∈ ths -> get_theme_time E circadian q now_time = Ok theme_time_q ->
      dt_ltb now_time (candidate theme_time_q now_time) = false ->
      day_seconds (candidate theme_time_q now_time)
      <= day_seconds (candidate theme_time_p now_time).
Proof.
  intros Hth Hne Hv Hall (q0 & t0 & Hq0 & Hg0 & Hpast0).
  destruct (select_theme_first_minimum E circadian now_time ths Hth Hne Hall)
    as (i & p & s & Hsel & Hmin).
  pose proof (first_minimum_elem _ _ _ _ _ Hmin) as Hin.
  destruct (all_resolve_elem _ _ _ _ _ Hall Hin) as (tp & Hp).
  destruct Hmin as (Hi & Hs & Hmin).
  unfold resolve_elapsed in Hs. rewrite Hp in Hs. cbn in Hs.
  injection Hs as <-.
  assert (Hle : forall q tq,
             q ∈ ths -> get_theme_time E circadian q now_time = Ok tq ->
             elapsed_seconds tp now_time <= elapsed_seconds tq now_time).
  { intros q tq Hq Hgq. destruct (list_elem_of_lookup_1 _ _ Hq) as (j & Hj).
    refine (proj1 (Hmin j q _ Hj _)).
    unfold resolve_elapsed. rewrite Hgq. reflexivity. }
  pose proof (get_theme_time_valid _ _ _ _ _ Hp) as Hvp.
  pose proof (get_theme_time_valid _ _ _ _ _ Hg0) as Hv0.
  assert (Hpast : dt_ltb now_time (candidate tp now_time) = false).
  { destruct (dt_ltb now_time (candidate tp now_time)) eqn:F; [| reflexivity].
    exfalso. specialize (Hle q0 t0 Hq0 Hg0).
    rewrite (elapsed_seconds_future tp now_time Hv Hvp F) in Hle.
    rewrite (elapsed_seconds_past t0 now_time Hv Hv0 Hpast0) in Hle.
    destruct Hvp as (? & ? & _). destruct Hv0 as (? & ? & _).
    unfold candidate, day_seconds in Hle; cbn in Hle. lia. }
  exists p, tp. repeat split; try assumption.
  intros q tq Hq Hgq Hpq. specialize (Hle q tq Hq Hgq).
  rewrite (elapsed_seconds_past tp now_time Hv Hvp Hpast) in Hle.
  rewrite (elapsed_seconds_past tq now_time Hv
             (get_theme_time_valid _ _ _ _ _ Hgq) Hpq) in Hle.
  lia.
Qed.

Lemma past_occurrence_candidate theme_time now_time :
  valid_time now_time -> valid_time theme_time ->
  to_us (occurrence theme_time (ordinal now_time)) <= to_us now_time <->
  dt_ltb now_time (candidate theme_time now_time) = false.
Proof.
  intros Hn Ht. rewrite dt_ltb_to_us by auto using candidate_valid.
  rewrite Z.ltb_ge. reflexivity.
Qed.

(** X3: when the hour and minute of at least one entry, on the date of
    [now], do not lie after [now], the selector returns such an entry, and
    no other such entry has a later time of day (hour and minute): the
    nearest past entry.  At 15:00 the schedule A 10:00, B 14:00, C 18:00
    gives B. *)
Theorem X3_selector_nearest_past E circadian now_time ths :
  themes circadian = Some ths -> ths <> [] ->
  valid_time now_time ->
  all_resolve E circadian now_time ths ->
  (exists q theme_time_q,
      q ∈ ths /\ get_theme_time E circadian q now_time = Ok theme_time_q /\
      to_us (occurrence theme_time_q (ordinal now_time)) <= to_us now_time) ->
  (exists p theme_time_p,
      select_theme E circadian now_time = Ok p /\ p ∈ ths /\
      get_theme_time E circadian p now_time = Ok theme_time_p /\
      to_us (occurrence theme_time_p (ordinal now_time)) <= to_us now_time /\
      forall q theme_time_q,
        q ∈ ths -> get_theme_time E circadian q now_time = Ok theme_time_q ->
        to_us (occurrence theme_time_q (ordinal now_time)) <= to_us now_time ->
        hour theme_time_q * 3600 + minute theme_time_q * 60
        <= hour theme_time_p * 3600 + minute theme_time_p * 60) /\
  select_theme utc_zone circadian_ABC (mkDT (ymd2ord 2024 6 15) 15 0 0 0)
  = Ok (mkTheme "B" "14:00").
Proof.
  intros Hth Hne Hv Hall (q0 & t0 & Hq0 & Hg0 & Hpast0).
  split; [| vm_compute; reflexivity].
  destruct (select_theme_nearest_past E circadian now_time ths Hth Hne Hv Hall)
    as (p & tp & Hsel & Hin & Hp & Hpast & Hmax).
  { exists q0, t0. split; [assumption |]. split; [assumption |].
    apply past_occurrence_candidate;
      eauto using get_theme_time_valid. }
  exists p, tp. repeat split; try assumption.
  - apply past_occurrence_candidate; eauto using get_theme_time_valid.
  - intros q tq Hq Hgq Hpq.
    assert (Hle : day_seconds (candidate tq now_time)
                  <= day_seconds (candidate tp now_time)).
    { apply (Hmax q tq Hq Hgq).
      apply past_occurrence_candidate; eauto using get_theme_time_valid. }
    unfold day_seconds, candidate, replace_time in Hle;
      cbn [hour minute second] in Hle.
    lia.
Qed.

(** At 15:00 the entries A 10:00 and B 14:00 lie behind; the selector
    returns B 14:00, the later of the two. *)
Lemma X3_selector_nearest_past_witness :
  let now_time := mkDT (ymd2ord 2024 6 15) 15 0 0 0 in
  select_theme utc_zone circadian_ABC now_time = Ok (mkTheme "B" "14:00") /\
  exists p theme_time_p,
    select_theme utc_zone circadian_ABC now_time = Ok p /\ p ∈ ABC /\
    get_theme_time utc_zone circadian_ABC p now_time = Ok theme_time_p /\
    to_us (occurrence theme_time_p (ordinal now_time)) <= to_us now_time /\
    forall q theme_time_q,
      q ∈ ABC ->
      get_theme_time utc_zone circadian_ABC q now_time = Ok theme_time_q ->
      to_us (occurrence theme_time_q (ordinal now_time)) <= to_us now_time ->
      hour theme_time_q * 3600 + minute theme_time_q * 60
      <= hour theme_time_p * 3600 + minute theme_time_p * 60.
Proof.
  intros now_time.
  destruct (X3_selector_nearest_past utc_zone circadian_ABC now_time ABC
              eq_refl ltac:(discriminate)) as (Hsel & Hc).
  - unfold valid_time; cbn; lia.
  - repeat constructor; eexists; vm_compute; reflexivity.
  - exists (mkTheme "A" "10:00"), (mkDT (ymd2ord 2024 6 15) 10 0 0 0).
    split; [apply list_elem_of_here |].
    split; [vm_compute; reflexivity | vm_compute; discriminate].
  - split; [exact Hc | exact Hsel].
Defined.

(** X4: the value [seconds] of the selection loop, less one, is the number
    of whole seconds since the most recent occurrence of the hour and
    minute of [theme_time], today or yesterday, at or before [now]. *)
Theorem X4_elapsed_is_time_since_last_occurrence theme_time now_time :
  valid_time now_time -> valid_time theme_time ->
  exists day,
    (day = ordinal now_time \/ day = ordinal now_time - 1) /\
    let occ := to_us (occurrence theme_time day) in
    occ <= to_us now_time < occ + 86400 * 1000000 /\
    (elapsed_seconds theme_time now_time - 1) * 1000000
    <= to_us now_time - occ
    < elapsed_seconds theme_time now_time * 1000000.
Proof.
  intros Hn Ht.
  destruct (dt_ltb now_time (candidate theme_time now_time)) eqn:F.
  - exists (ordinal now_time - 1). split; [now right |].
    rewrite (elapsed_seconds_future _ _ Hn Ht F).
    rewrite dt_ltb_to_us in F by auto using candidate_valid.
    apply Z.ltb_lt in F.
    destruct Hn as (? & ? & ? & ?). destruct Ht as (? & ? & _).
    unfold to_us, occurrence, candidate, replace_time, day_seconds in *;
      cbn [ordinal hour minute second microsecond] in *. lia.
  - exists (ordinal now_time). split; [now left |].
    rewrite (elapsed_seconds_past _ _ Hn Ht F).
    pose proof (candidate_not_after _ _ Hn Ht F) as Hle.
    destruct Hn as (? & ? & ? & ?). destruct Ht as (? & ? & _).
    unfold to_us, occurrence, candidate, replace_time, day_seconds in *;
      cbn [ordinal hour minute second microsecond] in *. lia.
Qed.

Lemma X4_elapsed_witness :
  exists day,
    (day = ymd2ord 2024 6 15 \/ day = ymd2ord 2024 6 15 - 1) /\
    to_us (occurrence (mkDT (ymd2ord 2024 6 15) 18 0 0 0) day)
    <= to_us (mkDT (ymd2ord 2024 6 15) 9 0 0 0).
Proof.
  destruct (X4_elapsed_is_time_since_last_occurrence
              (mkDT (ymd2ord 2024 6 15) 18 0 0 0)
              (mkDT (ymd2ord 2024 6 15) 9 0 0 0))
    as (day & Hday & Hocc & _).
  - unfold valid_time; cbn; lia.
  - unfold valid_time; cbn; lia.
  - exists day. split; [exact Hday | exact (proj1 Hocc)].
Defined.

(** ** When an armed timer fires *)

Lemma shifted_seconds (x k : Z) :
  ((x + k * 86400 * 1000000) / 1000000) mod 86400 = (x / 1000000) mod 86400.
Proof.
  replace (x + k * 86400 * 1000000) with (x + (k * 86400) * 1000000) by lia.
  rewrite Z.div_add by lia. now rewrite Z.mod_add by lia.
Qed.

Lemma arm_entry_delay theme_time now_time switch_time seconds :
  arm_entry theme_time now_time = Ok (switch_time, seconds) ->
  seconds
  = ((to_us (candidate theme_time now_time) - to_us now_time) / 1000000)
      mod 86400 + 1.
Proof.
  unfold arm_entry, add_days. fold (candidate theme_time now_time).
  destruct (dt_ltb theme_time now_time).
  - destruct ((1 <=? ordinal (candidate theme_time now_time) + 1)
              && (ordinal (candidate theme_time now_time) + 1 <=? MAXORDINAL));
      cbn -[dt_sub candidate to_us]; [| discriminate].
    intros [= <- <-]. f_equal.
    rewrite <- (shifted_seconds
                  (to_us (candidate theme_time now_time) - to_us now_time) 1).
    f_equal. f_equal.
    unfold to_us, day_seconds, candidate, replace_time;
      cbn [ordinal hour minute second microsecond]. lia.
  - cbn -[dt_sub candidate to_us]. intros [= <- <-].
    f_equal. f_equal. f_equal.
    unfold to_us, day_seconds, candidate, replace_time;
      cbn [ordinal hour minute second microsecond]. lia.
Qed.

Lemma arm_entry_next_occurrence theme_time now_time switch_time seconds :
  valid_time now_time -> valid_time theme_time ->
  arm_entry theme_time now_time = Ok (switch_time, seconds) ->
  exists day,
    (day = ordinal now_time \/ day = ordinal now_time + 1) /\
    let occ := to_us (occurrence theme_time day) in
    to_us now_time <= occ < to_us now_time + 86400 * 1000000 /\
    occ < to_us now_time + seconds * 1000000 <= occ + 1000000.
Proof.
  intros Hn Ht Harm. rewrite (arm_entry_delay _ _ _ _ Harm). clear Harm.
  destruct Hn as (Hh & Hm & Hs & Hu). destruct Ht as (Hh' & Hm' & _).
  unfold to_us, occurrence, candidate, replace_time, day_seconds;
    cbn [ordinal hour minute second microsecond].
  set (n := hour now_time * 3600 + minute now_time * 60 + second now_time).
  set (c := hour theme_time * 3600 + minute theme_time * 60 + 0).
  set (us := microsecond now_time) in *.
  set (o := ordinal now_time).
  assert (Hn : 0 <= n < 86400) by (unfold n; lia).
  assert (Hc : 0 <= c <= 86340) by (unfold c; lia).
  replace ((o * 86400 + c) * 1000000 + 0 - ((o * 86400 + n) * 1000000 + us))
    with ((c - n) * 1000000 - us) by lia.
  set (Q := ((c - n) * 1000000 - us) / 1000000).
  pose proof (Z.div_mod ((c - n) * 1000000 - us) 1000000 ltac:(lia)) as HQ.
  pose proof (Z.mod_pos_bound ((c - n) * 1000000 - us) 1000000 ltac:(lia))
    as HR.
  fold Q in HQ.
  set (R := ((c - n) * 1000000 - us) mod 1000000) in *.
  pose proof (Z.div_mod Q 86400 ltac:(lia)) as HM.
  pose proof (Z.mod_pos_bound Q 86400 ltac:(lia)) as HB.
  set (M := Q mod 86400) in *. set (D := Q / 86400) in *.
  destruct (Z_le_gt_dec (n * 1000000 + us) (c * 1000000)) as [Hfut | Hpast].
  - exists o. split; [now left |]. cbn zeta. lia.
  - exists (o + 1). split; [now right |]. cbn zeta. lia.
Qed.

(** X5: every armed timer fires within the second that follows the first
    occurrence, at or after [now] and less than a day ahead, of the hour
    and minute of [theme_time]: on the date of [now] or on the next one. *)
Theorem X5_timer_fires_after_next_occurrence
    theme_time now_time switch_time seconds :
  valid_time now_time -> valid_time theme_time ->
  arm_entry theme_time now_time = Ok (switch_time, seconds) ->
  exists day,
    (day = ordinal now_time \/ day = ordinal now_time + 1) /\
    let occ := to_us (occurrence theme_time day) in
    to_us now_time <= occ < to_us now_time + 86400 * 1000000 /\
    occ < to_us now_time + seconds * 1000000 <= occ + 1000000.
Proof. exact (arm_entry_next_occurrence theme_time now_time switch_time seconds). Qed.

Lemma X5_timer_fires_witness :
  exists day,
    (day = ymd2ord 2024 6 15 \/ day = ymd2ord 2024 6 15 + 1) /\
    to_us (mkDT (ymd2ord 2024 6 15) 15 0 0 0)
    <= to_us (occurrence (mkDT (ymd2ord 2024 6 15) 10 0 0 0) day).
Proof.
  destruct (X5_timer_fires_after_next_occurrence
              (mkDT (ymd2ord 2024 6 15) 10 0 0 0)
              (mkDT (ymd2ord 2024 6 15) 15 0 0 0)
              (mkDT (ymd2ord 2024 6 16) 10 0 0 0) 68401)
    as (day & Hday & Hocc & _).
  - unfold valid_time; cbn; lia.
  - unfold valid_time; cbn; lia.
  - vm_compute. reflexivity.
  - exists day. split; [exact Hday | exact (proj1 Hocc)].
Defined.

(** X6: the delay of a timer depends on [theme_time] only through its hour
    and minute: its date, its seconds and the branch of the comparison
    [theme_time < now_time] make no difference. *)
Theorem X6_delay_depends_on_hour_and_minute
    theme_time theme_time' now_time switch_time switch_time' seconds seconds' :
  hour theme_time' = hour theme_time ->
  minute theme_time' = minute theme_time ->
  arm_entry theme_time now_time = Ok (switch_time, seconds) ->
  arm_entry theme_time' now_time = Ok (switch_time', seconds') ->
  seconds' = seconds.
Proof.
  intros Hh Hm H1 H2.
  rewrite (arm_entry_delay _ _ _ _ H1), (arm_entry_delay _ _ _ _ H2).
  unfold candidate. now rewrite Hh, Hm.
Qed.

Lemma X6_delay_witness :
  exists switch_time' seconds',
    arm_entry (mkDT (ymd2ord 2024 6 14) 23 0 59 7)
              (mkDT (ymd2ord 2024 6 15) 12 0 0 0)
    = Ok (switch_time', seconds') /\
    seconds' = 39601.
Proof.
  eexists _, _. split; [vm_compute; reflexivity |].
  exact (X6_delay_depends_on_hour_and_minute
           (mkDT (ymd2ord 2024 6 15) 23 0 0 0)
           (mkDT (ymd2ord 2024 6 14) 23 0 59 7)
           (mkDT (ymd2ord 2024 6 15) 12 0 0 0)
           (mkDT (ymd2ord 2024 6 15) 23 0 0 0)
           (mkDT (ymd2ord 2024 6 16) 23 0 0 0) 39601 39601
           eq_refl eq_refl eq_refl eq_refl).
Defined.

Lemma day_seconds_of_us (n : Z) :
  day_seconds (of_us n) = (n / 1000000) mod 86400.
Proof.
  pose proof (of_us_seconds n) as H.
  assert (Ho : ordinal (of_us n) = n / 1000000 / 86400) by reflexivity.
  pose proof (Z.div_mod (n / 1000000) 86400 ltac:(lia)). lia.
Qed.

Lemma of_us_whole_seconds (s : Z) :
  of_us (s * 1000000)
  = mkDT (s / 86400) ((s mod 86400) / 3600) (((s mod 86400) mod 3600) / 60)
         ((s mod 86400) mod 60) 0.
Proof.
  unfold of_us. rewrite Z.div_mul by lia. now rewrite Z.mod_mul by lia.
Qed.

(** The fields of a time of day given in seconds that is a whole number of
    minutes. *)
Lemma whole_minute_fields (h m y : Z) :
  0 <= h < 24 -> 0 <= m < 60 -> y = h * 3600 + m * 60 ->
  y / 3600 = h /\ (y mod 3600) / 60 = m /\ y mod 60 = 0.
Proof.
  intros Hh Hm ->.
  assert (E1 : (h * 3600 + m * 60) / 3600 = h).
  { symmetry. apply (Z.div_unique _ _ _ (m * 60)); lia. }
  assert (E2 : (h * 3600 + m * 60) mod 3600 = m * 60).
  { symmetry. apply (Z.mod_unique _ _ h); lia. }
  assert (E3 : (h * 3600 + m * 60) mod 60 = 0).
  { symmetry. apply (Z.mod_unique _ _ (h * 60 + m)); lia. }
  rewrite E1, E2, E3, Z.div_mul by lia. auto.
Qed.

(** In a zone of constant offset [c], a clock string resolves to the
    instant [c] seconds before its wall-clock reading on the UTC date of
    [now]. *)
Lemma get_theme_time_constant_zone E circadian th now_time h m c :
  (forall u, tm_gmtoff E u = c) -> -86400 < c < 86400 ->
  time th ∉ times_of_sun -> clock_string (time th) h m ->
  get_theme_time E circadian th now_time
  = Ok (of_us ((ordinal now_time * 86400 + h * 3600 + m * 60 - c) * 1000000)).
Proof.
  intros Hz Hc Hn Hs.
  rewrite (get_theme_time_clock_string _ _ _ _ _ _ Hn Hs).
  pose proof (clock_string_range _ _ _ Hs) as [Hh Hm].
  destruct (resolve_clock_constant E (mkDT (ymd2ord 1900 1 1) h m 0 0)
              now_time c) as [-> _]; try assumption.
  - unfold valid_time; cbn. lia.
  - intros u _. apply Hz.
  - unfold add_seconds. f_equal. f_equal.
    unfold to_us, replace_date, day_seconds;
      cbn [ordinal hour minute second microsecond]. lia.
Qed.

(** X7: in a zone of constant offset [c], a clock string [h:m] resolves to
    the instant [c] seconds before [h:m:00] on the UTC date of [now]; its
    local wall-clock reading is [h:m:00] on that date. *)
Theorem X7_clock_string_in_constant_zone E circadian th now_time h m c :
  (forall u, tm_gmtoff E u = c) -> -86400 < c < 86400 ->
  time th ∉ times_of_sun -> clock_string (time th) h m ->
  exists r,
    get_theme_time E circadian th now_time = Ok r /\
    to_us r = to_us (mkDT (ordinal now_time) h m 0 0) - c * 1000000 /\
    to_local_wall E r = mkDT (ordinal now_time) h m 0 0.
Proof.
  intros Hz Hc Hn Hs.
  exists (resolve_clock E (mkDT (ymd2ord 1900 1 1) h m 0 0) now_time).
  split; [now apply get_theme_time_clock_string |].
  pose proof (clock_string_range _ _ _ Hs) as [Hh Hm].
  destruct (resolve_clock_constant E (mkDT (ymd2ord 1900 1 1) h m 0 0)
              now_time c) as [R L]; try assumption.
  - unfold valid_time; cbn. lia.
  - intros u _. apply Hz.
  - split; [| exact L]. rewrite R. unfold add_seconds.
    rewrite to_us_of_us. unfold to_us, replace_date, day_seconds; cbn. lia.
Qed.

Lemma X7_clock_string_witness :
  exists r,
    get_theme_time (fixed_zone 19800) circadian_ABC (mkTheme "A" "10:00")
                   (mkDT (ymd2ord 2024 6 15) 15 0 0 0) = Ok r /\
    to_local_wall (fixed_zone 19800) r = mkDT (ymd2ord 2024 6 15) 10 0 0 0.
Proof.
  destruct (X7_clock_string_in_constant_zone (fixed_zone 19800) circadian_ABC
              (mkTheme "A" "10:00") (mkDT (ymd2ord 2024 6 15) 15 0 0 0)
              10 0 19800) as (r & Hr & _ & Hl).
  - reflexivity.
  - lia.
  - intros H. apply (bool_decide_eq_true_2 _) in H. vm_compute in H.
    discriminate.
  - exists "10", "00". repeat split.
    + exact (digits_two "1" "0" 1 0 eq_refl eq_refl).
    + exact (digits_two "0" "0" 0 0 eq_refl eq_refl).
    + lia.
    + lia.
  - exists r. split; assumption.
Defined.

(** The local reading, in a zone of constant whole-minute offset, of an
    occurrence of the hour and minute to which a clock string resolved. *)
Lemma occurrence_local_reading E circadian th now_time h m c r day :
  (forall u, tm_gmtoff E u = c) -> -86400 < c < 86400 -> c mod 60 = 0 ->
  time th ∉ times_of_sun -> clock_string (time th) h m ->
  get_theme_time E circadian th now_time = Ok r ->
  let w := to_local_wall E (occurrence r day) in
  hour w = h /\ minute w = m /\ second w = 0 /\ microsecond w = 0.
Proof.
  intros Hz Hc Hc60 Hn Hs Hg.
  rewrite (get_theme_time_constant_zone _ _ _ _ _ _ _ Hz Hc Hn Hs) in Hg.
  injection Hg as <-.
  pose proof (clock_string_range _ _ _ Hs) as [Hh Hm].
  rewrite of_us_whole_seconds.
  set (S0 := ordinal now_time * 86400 + h * 3600 + m * 60 - c).
  set (Y := S0 mod 86400).
  assert (HY : 0 <= Y < 86400) by (apply Z.mod_pos_bound; lia).
  assert (HY60 : Y mod 60 = 0).
  { unfold Y. rewrite Z.mod_mod_divide by (exists 1440; lia).
    apply Z.mod_divide in Hc60; [| lia]. destruct Hc60 as [k ->].
    unfold S0. symmetry.
    apply (Z.mod_unique _ _ (ordinal now_time * 1440 + h * 60 + m - k)); lia. }
  assert (HYh : Y / 3600 * 3600 + (Y mod 3600) / 60 * 60 = Y).
  { pose proof (Z.div_mod Y 3600 ltac:(lia)).
    pose proof (Z.div_mod (Y mod 3600) 60 ltac:(lia)).
    assert ((Y mod 3600) mod 60 = Y mod 60)
      by (apply Z.mod_mod_divide; exists 60; lia).
    lia. }
  unfold to_local_wall, astimezone_local, occurrence.
  cbn [fst hour minute second microsecond].
  rewrite add_seconds_add_seconds, Hz. unfold add_seconds.
  match goal with |- context [of_us ?n] =>
    replace n with ((day * 86400 + Y + c) * 1000000)
      by (unfold to_us, day_seconds; cbn; lia) end.
  rewrite of_us_whole_seconds. cbn [hour minute second microsecond].
  assert (HE : (day * 86400 + Y + c) mod 86400 = h * 3600 + m * 60).
  { pose proof (Z.div_mod S0 86400 ltac:(lia)) as HS. fold Y in HS.
    symmetry.
    apply (Z.mod_unique _ _ (day + ordinal now_time - S0 / 86400)); [lia |].
    unfold S0 in HS |- *. lia. }
  rewrite HE.
  destruct (whole_minute_fields h m (h * 3600 + m * 60)) as (-> & -> & ->);
    try lia; auto.
Qed.

(** X8: in a zone of constant whole-minute offset, the timer armed for a
    clock string [h:m] fires within the second that follows the first
    instant, at or after [now] and less than a day ahead, whose local
    wall-clock reading is [h:m:00]. *)
Theorem X8_clock_timer_fires_at_local_time
    E circadian th now_time h m c r switch_time seconds :
  (forall u, tm_gmtoff E u = c) -> -86400 < c < 86400 -> c mod 60 = 0 ->
  time th ∉ times_of_sun -> clock_string (time th) h m ->
  valid_time now_time ->
  get_theme_time E circadian th now_time = Ok r ->
  arm_entry r now_time = Ok (switch_time, seconds) ->
  exists occ,
    to_us now_time <= to_us occ < to_us now_time + 86400 * 1000000 /\
    to_us occ < to_us now_time + seconds * 1000000 <= to_us occ + 1000000 /\
    hour (to_local_wall E occ) = h /\ minute (to_local_wall E occ) = m /\
    second (to_local_wall E occ) = 0 /\ microsecond (to_local_wall E occ) = 0.
Proof.
  intros Hz Hc Hc60 Hn Hs Hv Hg Harm.
  destruct (arm_entry_next_occurrence r now_time switch_time
              seconds Hv (get_theme_time_valid _ _ _ _ _ Hg) Harm)
    as (day & _ & Hocc & Hfire).
  exists (occurrence r day). split; [exact Hocc |]. split; [exact Hfire |].
  exact (occurrence_local_reading E circadian th now_time h m c r day
           Hz Hc Hc60 Hn Hs Hg).
Qed.

Lemma X8_clock_timer_witness :
  let E := fixed_zone 19800 in
  let now_time := mkDT (ymd2ord 2024 6 15) 15 0 0 0 in
  exists occ,
    to_us now_time <= to_us occ < to_us now_time + 86400 * 1000000 /\
    to_us occ < to_us now_time + 48601 * 1000000 <= to_us occ + 1000000 /\
    hour (to_local_wall E occ) = 10 /\ minute (to_local_wall E occ) = 0.
Proof.
  intros E now_time.
  destruct (X8_clock_timer_fires_at_local_time E circadian_ABC
              (mkTheme "A" "10:00") now_time 10 0 19800
              (mkDT (ymd2ord 2024 6 15) 4 30 0 0)
              (mkDT (ymd2ord 2024 6 16) 4 30 0 0) 48601)
    as (occ & H1 & H2 & H3 & H4 & _).
  - reflexivity.
  - lia.
  - reflexivity.
  - intros H. apply (bool_decide_eq_true_2 _) in H. vm_compute in H.
    discriminate.
  - exists "10", "00". repeat split.
    + exact (digits_two "1" "0" 1 0 eq_refl eq_refl).
    + exact (digits_two "0" "0" 0 0 eq_refl eq_refl).
    + lia.
    + lia.
  - unfold valid_time; cbn; lia.
  - vm_compute. reflexivity.
  - vm_compute. reflexivity.
  - exists occ. auto.
Defined.

(** ** [switch_theme] *)

(** X9: the last theme applied wins: applying a theme after another one
    gives the result of applying it alone, outcome and state alike; in
    particular applying the same theme twice is the same as once. *)
Theorem X9_switch_theme_last_writer_wins E theme1 theme2 st colors1 colors2 :
  theme1 !! "colors" = Some colors1 ->
  theme2 !! "colors" = Some colors2 ->
  switch_theme E theme2 (switch_theme E theme1 st).2 = switch_theme E theme2 st.
Proof.
  intros H1 H2. unfold switch_theme. rewrite H1, H2.
  destruct (dest_opens E); cbn; now rewrite insert_insert_eq.
Qed.

Lemma X9_switch_theme_witness :
  let st := mkState {[ "font" := TString "mono" ]} None [] in
  switch_theme utc_zone (colors_of "#000000")
               (switch_theme utc_zone (colors_of "#fdf6e3") st).2
  = switch_theme utc_zone (colors_of "#000000") st.
Proof.
  intros st.
  exact (X9_switch_theme_last_writer_wins utc_zone (colors_of "#fdf6e3")
           (colors_of "#000000") st _ _
           (lookup_singleton_eq "colors" _) (lookup_singleton_eq "colors" _)).
Defined.


(** ** [set_appropriate_theme] *)

Lemma select_loop_exit E circadian now_time ths :
  forall diff preferred_theme msg,
    select_loop E circadian now_time ths diff preferred_theme = SysExit msg ->
    exists th, th ∈ ths /\
               get_theme_time E circadian th now_time = SysExit msg.
Proof.
  induction ths as [| th rest IH]; intros diff pref msg H; cbn in H.
  - discriminate.
  - destruct (get_theme_time E circadian th now_time) as [tt | m | e] eqn:G;
      cbn in H.
    + destruct ((0 <? elapsed_seconds tt now_time)
                && ((elapsed_seconds tt now_time <? diff) || (diff =? -1)));
        apply IH in H as (th' & Hin & Hg); exists th';
        (split; [now apply list_elem_of_further | assumption]).
    + injection H as <-. exists th. split; [apply list_elem_of_here | exact G].
    + discriminate.
Qed.

Lemma get_theme_time_exit_message E circadian th now_time msg :
  get_theme_time E circadian th now_time = SysExit msg ->
  (exists a b, msg = MsgCoordinates a b) \/ (exists s, msg = MsgTimeFormat s).
Proof.
  intros G.
  destruct (decide (time th ∈ times_of_sun)) as [Hin | Hn].
  - left. unfold get_theme_time in G.
    rewrite (bool_decide_eq_true_2 _ Hin) in G.
    destruct (convert_coordinates E _ true) as [[l ok] | m' | e'] eqn:C;
      cbn in G.
    + destruct ok; cbn in G; [| injection G as <-; eauto].
      destruct l as [| [lat |] [| [lon |] [| ? ?]]]; cbn in G;
        try discriminate.
      destruct (astral_sun E lat lon (ordinal now_time) (time th)); discriminate.
    + exfalso. cbn in C.
      pose proof (py_float_outcomes E
        (default ∅ (coordinates circadian) !! "latitude")) as H1.
      pose proof (py_float_outcomes E
        (default ∅ (coordinates circadian) !! "longitude")) as H2.
      destruct (py_float E (default ∅ (coordinates circadian) !! "latitude"))
        as [? | ? | e1]; try contradiction;
        [| destruct e1; try discriminate];
        (destruct (py_float E
                     (default ∅ (coordinates circadian) !! "longitude"))
          as [? | ? | e2]; try contradiction;
         [| destruct e2]; discriminate).
    + discriminate.
  - right. rewrite (get_theme_time_clock _ _ _ _ Hn) in G.
    destruct (strptime_HM E (time th)); try discriminate;
      injection G as <-; eauto.
Qed.

Lemma select_theme_exit E circadian now_time msg :
  select_theme E circadian now_time = SysExit msg ->
  (msg = MsgNoThemeSection /\ themes circadian = None) \/
  (msg = MsgNoThemes /\ themes circadian = Some []) \/
  ((exists a b, msg = MsgCoordinates a b) \/ (exists s, msg = MsgTimeFormat s)).
Proof.
  unfold select_theme.
  destruct (themes circadian) as [[| th rest] |].
  - intros [= <-]. auto.
  - destruct (select_loop E circadian now_time (th :: rest) (-1) None)
      as [[d p] | m | e] eqn:L; cbn.
    + destruct p; discriminate.
    + intros [= <-]. right. right.
      apply select_loop_exit in L as (th' & _ & G).
      eapply get_theme_time_exit_message; eauto.
    + discriminate.
  - intros [= <-]. auto.
Qed.

Lemma switch_theme_no_exit E theme_data st msg :
  (switch_theme E theme_data st).1 <> SysExit msg.
Proof.
  unfold switch_theme.
  destruct (theme_data !! "colors"); [destruct (dest_opens E) |]; discriminate.
Qed.

Lemma select_theme_no_section E circadian now_time :
  select_theme E circadian now_time = SysExit MsgNoThemeSection
  <-> themes circadian = None.
Proof.
  split.
  - intros H. apply select_theme_exit in H.
    destruct H as [[_ ?] | [[? _] | [(? & ? & ?) | (? & ?)]]];
      try assumption; discriminate.
  - intros H. unfold select_theme. now rewrite H.
Qed.

Lemma select_theme_no_themes E circadian now_time :
  select_theme E circadian now_time = SysExit MsgNoThemes
  <-> themes circadian = Some [].
Proof.
  split.
  - intros H. apply select_theme_exit in H.
    destruct H as [[? _] | [[_ ?] | [(? & ? & ?) | (? & ?)]]];
      try assumption; discriminate.
  - intros H. unfold select_theme. now rewrite H.
Qed.

Lemma select_theme_not_installed E circadian now_time n :
  select_theme E circadian now_time <> SysExit (MsgNotInstalled n).
Proof.
  intros H. apply select_theme_exit in H.
  destruct H as [[? _] | [[? _] | [(? & ? & ?) | (? & ?)]]]; discriminate.
Qed.

Lemma set_appropriate_theme_exit_cases E circadian now_time st msg :
  (set_appropriate_theme E circadian now_time st).1 = SysExit msg ->
  (select_theme E circadian now_time = SysExit msg \/
   exists p, select_theme E circadian now_time = Ok p /\
             theme_files E !! name p = None /\
             msg = MsgNotInstalled (name p)) /\
  (set_appropriate_theme E circadian now_time st).2 = st.
Proof.
  unfold set_appropriate_theme.
  destruct (select_theme E circadian now_time) as [p | m | e]; cbn.
  - destruct (theme_files E !! name p) as [td |] eqn:F; cbn.
    + intros H. exfalso. eapply switch_theme_no_exit; eauto.
    + intros [= <-]. split; [right; eauto | reflexivity].
  - intros [= <-]. auto.
  - discriminate.
Qed.

(** X11: how [set_appropriate_theme] ends the process.  The message is
    "theme section not found" exactly when the configuration has no themes
    list, "No themes specified" exactly when the list is empty, and "not
    installed" for a name exactly when the selected theme has that name
    and no file in the theme folder.  Whenever the process ends this way,
    nothing has been written: configuration, destination and timers are as
    before. *)
Theorem X11_set_appropriate_theme_exits E circadian now_time st :
  let result := set_appropriate_theme E circadian now_time st in
  (result.1 = SysExit MsgNoThemeSection <-> themes circadian = None) /\
  (result.1 = SysExit MsgNoThemes <-> themes circadian = Some []) /\
  (forall n,
      result.1 = SysExit (MsgNotInstalled n) <->
      exists p, select_theme E circadian now_time = Ok p /\ name p = n /\
                theme_files E !! n = None) /\
  (forall msg, result.1 = SysExit msg -> result.2 = st).
Proof.
  cbn zeta. split; [| split; [| split]].
  - rewrite <- select_theme_no_section. split.
    + intros H. apply set_appropriate_theme_exit_cases in H as [[H | H] _];
        [exact H |]. destruct H as (? & _ & _ & ?). discriminate.
    + intros H. unfold set_appropriate_theme. now rewrite H.
  - rewrite <- select_theme_no_themes. split.
    + intros H. apply set_appropriate_theme_exit_cases in H as [[H | H] _];
        [exact H |]. destruct H as (? & _ & _ & ?). discriminate.
    + intros H. unfold set_appropriate_theme. now rewrite H.
  - intros n. split.
    + intros H. apply set_appropriate_theme_exit_cases in H as [[H | H] _].
      * exfalso. eapply select_theme_not_installed; eauto.
      * destruct H as (p & Hp & F & [= ->]). eauto.
    + intros (p & Hp & <- & F). unfold set_appropriate_theme.
      now rewrite Hp, F.
  - intros msg H. now apply set_appropriate_theme_exit_cases in H.
Qed.

(** X12: [set_appropriate_theme] succeeds exactly when the selection returns
    a theme whose file is in the theme folder and has a colour block, and
    the destination opens.  In that case the configuration holds the
    colour block of that file under [colors], the destination holds that
    configuration, and the timers are as before. *)
Theorem X12_set_appropriate_theme_success E circadian now_time st :
  let result := set_appropriate_theme E circadian now_time st in
  (result.1 = Ok () <->
   exists p theme_data colors,
     select_theme E circadian now_time = Ok p /\
     theme_files E !! name p = Some theme_data /\
     theme_data !! "colors" = Some colors /\
     dest_opens E = true) /\
  (forall p theme_data colors,
      select_theme E circadian now_time = Ok p ->
      theme_files E !! name p = Some theme_data ->
      theme_data !! "colors" = Some colors ->
      dest_opens E = true ->
      result.1 = Ok () /\
      config result.2 = <["colors" := colors]> (config st) /\
      dest_file result.2 = Some (config result.2) /\
      thread_list result.2 = thread_list st).
Proof.
  cbn zeta. unfold set_appropriate_theme. split.
  - destruct (select_theme E circadian now_time) as [p | m | e] eqn:S; cbn;
      [| split; [discriminate | intros (? & ? & ? & ? & _); discriminate] ..].
    destruct (theme_files E !! name p) as [td |] eqn:F; cbn;
      [| split; [discriminate |];
         intros (p' & td' & c & [= <-] & F' & _); congruence].
    unfold switch_theme.
    destruct (td !! "colors") as [c |] eqn:C;
      [destruct (dest_opens E) eqn:D |]; cbn.
    + split; [| reflexivity]. intros _. exists p, td, c. repeat split; auto.
    + split; [discriminate |].
      intros (p' & td' & c' & _ & _ & _ & ?). discriminate.
    + split; [discriminate |].
      intros (p' & td' & c' & [= <-] & F' & C' & _). congruence.
  - intros p td c -> -> Hc Hd. unfold switch_theme. rewrite Hc, Hd. cbn.
    repeat split.
Qed.

(** ** The arming loop *)

Lemma arm_step E circadian now_time th rest st theme_data tt sw seconds :
  theme_files E !! name th = Some theme_data ->
  get_theme_time E circadian th now_time = Ok tt ->
  arm_entry tt now_time = Ok (sw, seconds) ->
  arm_timers E circadian now_time (th :: rest) st
  = arm_timers E circadian now_time rest
      (mkState (config st) (dest_file st)
               (thread_list st ++ [mkTimer seconds theme_data])).
Proof.
  intros F G A. cbn [arm_timers]. rewrite F, G. cbn. now rewrite A.
Qed.

Lemma arm_stop E circadian now_time th rest st :
  ~ armable E circadian now_time th ->
  (arm_timers E circadian now_time (th :: rest) st).1 <> Ok () /\
  (arm_timers E circadian now_time (th :: rest) st).2 = st /\
  (theme_files E !! name th = None ->
   (arm_timers E circadian now_time (th :: rest) st).1
   = SysExit (MsgNotInstalled (name th))).
Proof.
  intros Hn. cbn [arm_timers].
  destruct (theme_files E !! name th) as [td |] eqn:F.
  - destruct (get_theme_time E circadian th now_time) as [tt | m | e] eqn:G;
      cbn.
    + destruct (arm_entry tt now_time) as [[sw seconds] | m | e] eqn:A.
      * exfalso. apply Hn. split; [eauto |]. eauto 6.
      * repeat split; discriminate.
      * repeat split; discriminate.
    + repeat split; discriminate.
    + repeat split; discriminate.
  - repeat split. discriminate.
Qed.

Lemma armable_dec E circadian now_time th :
  armable E circadian now_time th \/ ~ armable E circadian now_time th.
Proof.
  unfold armable.
  destruct (theme_files E !! name th) as [td |].
  - destruct (get_theme_time E circadian th now_time) as [tt | m | e].
    + destruct (arm_entry tt now_time) as [[sw seconds] | m | e] eqn:A.
      * left. split; eauto 6.
      * right. intros (_ & ? & ? & ? & [= <-] & ?). congruence.
      * right. intros (_ & ? & ? & ? & [= <-] & ?). congruence.
    + right. intros (_ & ? & ? & ? & ? & _). discriminate.
    + right. intros (_ & ? & ? & ? & ? & _). discriminate.
  - right. intros [[? ?] _]. discriminate.
Qed.

(** X13: what a pass of the arming loop has done when it ends, however it
    ends.  Configuration and destination are untouched; the timers armed
    are appended to [thread_list], one for each entry of a prefix of the
    schedule and in the same order; each carries the contents of the theme
    file of its entry and the delay computed for it; and the pass ends
    normally exactly when it armed a timer for every entry. *)
Theorem X13_arming_pass_invariant E circadian now_time ths st :
  let result := arm_timers E circadian now_time ths st in
  config result.2 = config st /\
  dest_file result.2 = dest_file st /\
  exists armed,
    thread_list result.2 = thread_list st ++ armed /\
    (length armed <= length ths)%nat /\
    (result.1 = Ok () <-> length armed = length ths) /\
    forall (i : nat) t,
      armed !! i = Some t ->
      exists th theme_time switch_time,
        ths !! i = Some th /\
        theme_files E !! name th = Some (timer_args t) /\
        get_theme_time E circadian th now_time = Ok theme_time /\
        arm_entry theme_time now_time = Ok (switch_time, interval t).
Proof.
  cbn zeta. revert st. induction ths as [| th rest IH]; intros st.
  - cbn. repeat split. exists []. rewrite app_nil_r.
    repeat split; auto. intros i t H. inversion H.
  - destruct (armable_dec E circadian now_time th) as [Ha | Hn].
    + destruct Ha as [[td F] (tt & sw & seconds & G & A)].
      rewrite (arm_step _ _ _ _ _ _ _ _ _ _ F G A).
      destruct (IH (mkState (config st) (dest_file st)
                      (thread_list st ++ [mkTimer seconds td])))
        as (Hc & Hd & armed & Hl & Hlen & Hok & Hall).
      split; [exact Hc |]. split; [exact Hd |].
      exists (mkTimer seconds td :: armed). repeat split.
      * rewrite Hl. cbn [thread_list]. now rewrite <- app_assoc.
      * cbn [length]. lia.
      * intros H. cbn [length]. f_equal. now apply Hok.
      * intros H. cbn [length] in H. apply Hok. lia.
      * intros [| i] t Hi.
        -- injection Hi as <-. exists th, tt, sw. repeat split; assumption.
        -- apply (Hall i t Hi).
    + destruct (arm_stop E circadian now_time th rest st Hn) as (Hno & -> & _).
      repeat split. exists []. rewrite app_nil_r. repeat split.
      * cbn [length]. lia.
      * intros H. contradiction.
      * intros H. discriminate.
      * intros i t H. inversion H.
Qed.

(** X14: a pass of the arming loop ends normally exactly when every entry of
    the schedule can be armed (its theme file is in the theme folder, its
    time resolves and its occurrence exists).  Otherwise it stops at the
    first entry that cannot, with the timers of the entries before it
    armed; when the file of that entry is missing, the process ends with
    the message "not installed" for its name. *)
Theorem X14_arming_pass_completion E circadian now_time :
  (forall ths st,
      (arm_timers E circadian now_time ths st).1 = Ok () <->
      Forall (armable E circadian now_time) ths) /\
  (forall pre th post st,
      Forall (armable E circadian now_time) pre ->
      ~ armable E circadian now_time th ->
      let result := arm_timers E circadian now_time (pre ++ th :: post) st in
      result.1 <> Ok () /\
      (exists armed, thread_list result.2 = thread_list st ++ armed /\
                     length armed = length pre) /\
      (theme_files E !! name th = None ->
       result.1 = SysExit (MsgNotInstalled (name th)))).
Proof.
  split.
  - intros ths. induction ths as [| th rest IH]; intros st.
    + cbn. split; [constructor | reflexivity].
    + destruct (armable_dec E circadian now_time th) as [Ha | Hn].
      * pose proof Ha as [[td F] (tt & sw & seconds & G & A)].
        rewrite (arm_step _ _ _ _ _ _ _ _ _ _ F G A), IH.
        split; [now constructor | now inversion 1].
      * destruct (arm_stop E circadian now_time th rest st Hn) as (Hno & _).
        split; [contradiction | inversion 1; contradiction].
  - intros pre. induction pre as [| p pre IH]; intros th post st Hpre Hn.
    + cbn [app]. destruct (arm_stop E circadian now_time th post st Hn)
        as (Hno & Hst & Hmiss).
      split; [exact Hno |]. split; [| exact Hmiss].
      exists []. rewrite Hst, app_nil_r. auto.
    + inversion Hpre as [| ? ? Ha Hpre']; subst.
      destruct Ha as [[td F] (tt & sw & seconds & G & A)].
      cbn [app]. rewrite (arm_step _ _ _ _ _ _ _ _ _ _ F G A).
      destruct (IH th post (mkState (config st) (dest_file st)
                              (thread_list st ++ [mkTimer seconds td]))
                  Hpre' Hn) as (Hno & (armed & Hl & Hlen) & Hmiss).
      split; [exact Hno |]. split; [| exact Hmiss].
      exists (mkTimer seconds td :: armed). split.
      * rewrite Hl. cbn [thread_list]. now rewrite <- app_assoc.
      * cbn [length]. now rewrite Hlen.
Qed.

Lemma X14_arming_pass_witness :
  let result :=
    arm_timers folder_without_C circadian_ABC
               (mkDT (ymd2ord 2024 6 15) 15 0 0 0) ABC (mkState ∅ None []) in
  result.1 = SysExit (MsgNotInstalled "C") /\
  exists armed, thread_list result.2 = [] ++ armed /\ length armed = 2%nat.
Proof.
  destruct (proj2 (X14_arming_pass_completion folder_without_C circadian_ABC
                     (mkDT (ymd2ord 2024 6 15) 15 0 0 0))
              [mkTheme "A" "10:00"; mkTheme "B" "14:00"]
              (mkTheme "C" "18:00") [] (mkState ∅ None []))
    as (_ & Harmed & Hmiss).
  - apply Forall_cons_2; [| apply Forall_cons_2; [| apply Forall_nil_2]].
    + split; [exists (colors_of "#fdf6e3"); reflexivity |].
      exists (mkDT (ymd2ord 2024 6 15) 10 0 0 0),
             (mkDT (ymd2ord 2024 6 16) 10 0 0 0), 68401.
      split; reflexivity.
    + split; [exists (colors_of "#002b36"); reflexivity |].
      exists (mkDT (ymd2ord 2024 6 15) 14 0 0 0),
             (mkDT (ymd2ord 2024 6 16) 14 0 0 0), 82801.
      split; reflexivity.
  - intros [[td Htd] _]. vm_compute in Htd. discriminate.
  - split; [apply Hmiss; vm_compute; reflexivity | exact Harmed].
Defined.

(** ** The start of [set_theme_switch_timers] *)

Lemma arm_timers_raises E circadian now_time ths :
  forall st e,
    (arm_timers E circadian now_time ths st).1 = Raise e ->
    e = TypeError \/ e = ValueError \/ e = OverflowError.
Proof.
  induction ths as [| th rest IH]; intros st e H; cbn [arm_timers] in H.
  - discriminate.
  - destruct (theme_files E !! name th) as [td |]; [| discriminate].
    destruct (get_theme_time E circadian th now_time) as [tt | m | e'] eqn:G;
      cbn in H.
    + pose proof (arm_entry_delay_range tt now_time) as Hr.
      destruct (arm_entry tt now_time) as [[sw seconds] | m | e'].
      * eapply IH; eauto.
      * contradiction.
      * cbn in H. injection H as <-. destruct Hr as (-> & _). auto.
    + discriminate.
    + injection H as <-.
      destruct (get_theme_time_raises _ _ _ _ _ G); auto.
Qed.

Lemma select_theme_raises E circadian now_time e :
  select_theme E circadian now_time = Raise e ->
  e = TypeError \/ e = ValueError.
Proof.
  unfold select_theme.
  destruct (themes circadian) as [[| th rest] |]; try discriminate.
  pose proof (select_loop_result E circadian now_time (th :: rest) (-1) None
                ltac:(reflexivity)) as H.
  destruct (select_loop E circadian now_time (th :: rest) (-1) None)
    as [[d p] | msg | e']; cbn.
  - destruct p; [discriminate |]. destruct (H eq_refl). discriminate.
  - discriminate.
  - intros [= <-]. exact H.
Qed.

Lemma select_theme_ok_themes E circadian now_time p :
  select_theme E circadian now_time = Ok p ->
  exists ths, themes circadian = Some ths /\ ths <> [].
Proof.
  unfold select_theme.
  destruct (themes circadian) as [[| th rest] |]; try discriminate.
  intros _. exists (th :: rest). split; [reflexivity | discriminate].
Qed.

(** X15: the start of the daemon, for a configuration whose schedule
    entries each have a string [name] and a string [time] (the
    configurations that [theme] represents; an entry without one of the
    two keys raises a [KeyError] of its own).  When [set_appropriate_theme]
    has succeeded, the configuration has a non-empty themes list, so the
    lookup [circadian["themes"]] of the loop, which no handler guards,
    finds it and the first pass is the arming of that list.  For such a
    configuration the only [KeyError] that can leave the function is that
    of a selected theme whose file has no colour block. *)
Theorem X15_first_pass_after_startup E circadian now0 now1 st :
  let startup := set_appropriate_theme E circadian now0 st in
  let result := set_theme_switch_timers_first_pass E circadian now0 now1 st in
  (startup.1 = Ok () ->
   exists ths,
     themes circadian = Some ths /\ ths <> [] /\
     result = arm_timers E circadian now1 ths startup.2) /\
  (result.1 = Raise KeyError <->
   exists p theme_data,
     select_theme E circadian now0 = Ok p /\
     theme_files E !! name p = Some theme_data /\
     theme_data !! "colors" = None).
Proof.
  cbn zeta. unfold set_theme_switch_timers_first_pass, set_appropriate_theme.
  destruct (select_theme E circadian now0) as [p | m | e] eqn:S.
  - destruct (select_theme_ok_themes _ _ _ _ S) as (ths & Hth & Hne).
    destruct (theme_files E !! name p) as [td |] eqn:F.
    + unfold switch_theme.
      destruct (td !! "colors") as [c |] eqn:C;
        [destruct (dest_opens E) eqn:D |]; cbn.
      * unfold arm_cycle. rewrite Hth. split.
        -- intros _. exists ths. auto.
        -- split.
           ++ intros H. apply arm_timers_raises in H.
              destruct H as [H | [H | H]]; discriminate.
           ++ intros (p' & td' & [= <-] & F' & C'). congruence.
      * split; [discriminate |]. split; [discriminate |].
        intros (p' & td' & [= <-] & F' & C'). congruence.
      * split; [discriminate |]. split; [| reflexivity].
        intros _. exists p, td. auto.
    + cbn. split; [discriminate |]. split; [discriminate |].
      intros (p' & td' & [= <-] & F' & _). congruence.
  - cbn. split; [discriminate |]. split; [discriminate |].
    intros (p' & td' & ? & _). discriminate.
  - cbn. split; [discriminate |]. split.
    + intros [= ->]. apply select_theme_raises in S.
      destruct S; discriminate.
    + intros (p' & td' & ? & _). discriminate.
Qed.

Lemma X15_first_pass_witness :
  let st := mkState {[ "font" := TString "mono" ]} None [] in
  let now0 := mkDT (ymd2ord 2024 6 15) 15 0 0 0 in
  let now1 := mkDT (ymd2ord 2024 6 15) 15 0 0 250000 in
  exists ths,
    themes circadian_ABC = Some ths /\ ths <> [] /\
    set_theme_switch_timers_first_pass utc_zone circadian_ABC now0 now1 st
    = arm_timers utc_zone circadian_ABC now1 ths
        (set_appropriate_theme utc_zone circadian_ABC now0 st).2.
Proof.
  intros st now0 now1.
  apply (proj1 (X15_first_pass_after_startup utc_zone circadian_ABC
                  now0 now1 st)).
  vm_compute. reflexivity.
Defined.

(** ** Selection and arming together *)

(** X16: for one entry at one instant, the value [seconds] of the selection
    (time since the last occurrence, plus one) and the delay of the timer
    (time to the next occurrence, plus one) add up to one day and one
    second, or one day and two seconds when [now] has no microseconds;
    except at the very instant of the candidate, where both are 1. *)
Theorem X16_elapsed_plus_delay theme_time now_time switch_time seconds :
  valid_time now_time -> valid_time theme_time ->
  arm_entry theme_time now_time = Ok (switch_time, seconds) ->
  (to_us now_time = to_us (candidate theme_time now_time) ->
   elapsed_seconds theme_time now_time = 1 /\ seconds = 1) /\
  (to_us now_time <> to_us (candidate theme_time now_time) ->
   elapsed_seconds theme_time now_time + seconds
   = 86401 + (if microsecond now_time =? 0 then 1 else 0)).
Proof.
  intros Hn Ht Harm. rewrite (arm_entry_delay _ _ _ _ Harm). clear Harm.
  rewrite (elapsed_seconds_mod _ _ Hn).
  destruct Hn as (Hh & Hm & Hs & Hu). destruct Ht as (Hh' & Hm' & _).
  unfold to_us, candidate, replace_time, day_seconds;
    cbn [ordinal hour minute second microsecond].
  set (n := hour now_time * 3600 + minute now_time * 60 + second now_time).
  set (c := hour theme_time * 3600 + minute theme_time * 60 + 0).
  set (us := microsecond now_time) in *.
  set (o := ordinal now_time).
  assert (Hn : 0 <= n < 86400) by (unfold n; lia).
  assert (Hc : 0 <= c <= 86340) by (unfold c; lia).
  replace ((o * 86400 + c) * 1000000 + 0 - ((o * 86400 + n) * 1000000 + us))
    with ((c - n) * 1000000 - us) by lia.
  assert (HM' : (n - c) mod 86400
                = if c <=? n then n - c else n - c + 86400).
  { destruct (Z.leb_spec c n); symmetry;
      [apply (Z.mod_unique _ _ 0) | apply (Z.mod_unique _ _ (-1))]; lia. }
  assert (HQ : ((c - n) * 1000000 - us) / 1000000
               = if us =? 0 then c - n else c - n - 1).
  { destruct (Z.eqb_spec us 0); symmetry;
      [apply (Z.div_unique _ _ _ 0)
      | apply (Z.div_unique _ _ _ (1000000 - us))]; lia. }
  rewrite HM', HQ.
  destruct (Z.eqb_spec us 0) as [Hus | Hus].
  - assert (HM : (c - n) mod 86400
                 = if n <? c then c - n
                   else if n =? c then 0 else c - n + 86400).
    { destruct (Z.ltb_spec n c); [| destruct (Z.eqb_spec n c)]; symmetry;
        [apply (Z.mod_unique _ _ 0) | apply (Z.mod_unique _ _ 0)
        | apply (Z.mod_unique _ _ (-1))]; lia. }
    rewrite HM. split.
    + intros Heq. assert (n = c) as -> by lia.
      rewrite Z.leb_refl, Z.ltb_irrefl, Z.eqb_refl. lia.
    + intros Hne.
      destruct (Z.leb_spec c n); destruct (Z.ltb_spec n c);
        try destruct (Z.eqb_spec n c); lia.
  - assert (HM : (c - n - 1) mod 86400
                 = if n <? c then c - n - 1 else c - n - 1 + 86400).
    { destruct (Z.ltb_spec n c); symmetry;
        [apply (Z.mod_unique _ _ 0) | apply (Z.mod_unique _ _ (-1))]; lia. }
    rewrite HM. split.
    + intros Heq. lia.
    + intros _. destruct (Z.leb_spec c n); destruct (Z.ltb_spec n c); lia.
Qed.

Lemma X16_elapsed_plus_delay_witness :
  elapsed_seconds (mkDT (ymd2ord 2024 6 15) 14 0 0 0)
                  (mkDT (ymd2ord 2024 6 15) 15 0 0 0)
  + 82801 = 86402.
Proof.
  refine (proj2 (X16_elapsed_plus_delay
                   (mkDT (ymd2ord 2024 6 15) 14 0 0 0)
                   (mkDT (ymd2ord 2024 6 15) 15 0 0 0)
                   (mkDT (ymd2ord 2024 6 16) 14 0 0 0) 82801 _ _ _) _).
  - unfold valid_time; cbn; lia.
  - unfold valid_time; cbn; lia.
  - vm_compute. reflexivity.
  - vm_compute. discriminate.
Defined.

(** ** The schedule repeats every day *)

Lemma conversions_in_constant_zone E d tz c :
  (forall u, tm_gmtoff E u = c) ->
  astimezone_utc (astimezone_local E d tz).1 (astimezone_local E d tz).2
  = add_seconds d (match tz with Naive => - c | Aware o => - o end).
Proof.
  intros Hz. unfold astimezone_local, astimezone_utc. cbn [fst snd].
  rewrite !Hz. rewrite !add_seconds_add_seconds.
  destruct tz as [| o]; f_equal; lia.
Qed.

Lemma add_seconds_time_of_day d d' k :
  hour d' = hour d -> minute d' = minute d -> second d' = second d ->
  microsecond d' = microsecond d ->
  hour (add_seconds d' k) = hour (add_seconds d k) /\
  minute (add_seconds d' k) = minute (add_seconds d k).
Proof.
  intros Hh Hm Hs Hu.
  assert (Hsod : ((to_us d' + k * 1000000) / 1000000) mod 86400
                 = ((to_us d + k * 1000000) / 1000000) mod 86400).
  { unfold to_us, day_seconds. rewrite Hh, Hm, Hs, Hu.
    set (x := hour d * 3600 + minute d * 60 + second d).
    replace ((ordinal d' * 86400 + x) * 1000000 + microsecond d + k * 1000000)
      with (x * 1000000 + microsecond d + k * 1000000
            + ordinal d' * 86400 * 1000000) by lia.
    replace ((ordinal d * 86400 + x) * 1000000 + microsecond d + k * 1000000)
      with (x * 1000000 + microsecond d + k * 1000000
            + ordinal d * 86400 * 1000000) by lia.
    now rewrite !shifted_seconds. }
  unfold add_seconds, of_us; cbn [hour minute]. now rewrite Hsod.
Qed.

Lemma get_theme_time_other_day E circadian th now_time now_time' c :
  (forall u, tm_gmtoff E u = c) ->
  (time th ∈ times_of_sun ->
   forall lat lon,
     same_time_of_day (astral_sun E lat lon (ordinal now_time') (time th))
                      (astral_sun E lat lon (ordinal now_time) (time th))) ->
  match get_theme_time E circadian th now_time,
        get_theme_time E circadian th now_time' with
  | Ok r, Ok r' => hour r' = hour r /\ minute r' = minute r
  | SysExit m, SysExit m' => m' = m
  | Raise e, Raise e' => e' = e
  | _, _ => False
  end.
Proof.
  intros Hz Hsun. unfold get_theme_time.
  destruct (bool_decide (time th ∈ times_of_sun)) eqn:B.
  - apply bool_decide_eq_true_1 in B. specialize (Hsun B).
    destruct (convert_coordinates E _ true) as [[l ok] | m0 | e0];
      cbn -[astimezone_local astimezone_utc]; [| reflexivity ..].
    destruct ok; cbn -[astimezone_local astimezone_utc]; [| reflexivity].
    destruct l as [| [lat |] [| [lon |] [| ? ?]]];
      cbn -[astimezone_local astimezone_utc]; try reflexivity.
    specialize (Hsun lat lon).
    destruct (astral_sun E lat lon (ordinal now_time') (time th)) as [t' |],
             (astral_sun E lat lon (ordinal now_time) (time th)) as [t |];
      cbn -[astimezone_local astimezone_utc] in *;
      try contradiction; [| reflexivity].
    rewrite !(conversions_in_constant_zone E _ _ c Hz).
    destruct Hsun as (? & ? & ? & ?).
    apply add_seconds_time_of_day; assumption.
  - destruct (strptime_HM E (time th)) as [t | m0 | e0];
      cbn -[astimezone_local astimezone_utc].
    + rewrite !(conversions_in_constant_zone E _ _ c Hz).
      apply add_seconds_time_of_day; reflexivity.
    + reflexivity.
    + destruct e0; reflexivity.
Qed.

Lemma elapsed_seconds_other_day r r' now_time now_time' :
  hour r' = hour r -> minute r' = minute r ->
  hour now_time' = hour now_time -> minute now_time' = minute now_time ->
  second now_time' = second now_time ->
  microsecond now_time' = microsecond now_time ->
  elapsed_seconds r' now_time' = elapsed_seconds r now_time.
Proof.
  intros Hh Hm Hh' Hm' Hs' Hu'.
  unfold elapsed_seconds, candidate, replace_time, dt_sub, day_seconds;
    cbn [ordinal hour minute second microsecond].
  rewrite Hh, Hm, Hh', Hm', Hs', Hu', !Z.sub_diag. reflexivity.
Qed.

(** X17: in a zone of constant offset, and where [astral] gives every
    solar entry of the schedule the same time of day on the two dates (as
    for a schedule of clock entries only), the choice of the selector
    depends on the reference instant only through its time of day: at the
    same time on the other date the selection has the same outcome, the
    same theme or the same failure. *)
Theorem X17_selection_repeats_daily E circadian now_time now_time' c :
  (forall u, tm_gmtoff E u = c) ->
  (forall ths th,
      themes circadian = Some ths -> th ∈ ths -> time th ∈ times_of_sun ->
      forall lat lon,
        same_time_of_day (astral_sun E lat lon (ordinal now_time') (time th))
                         (astral_sun E lat lon (ordinal now_time) (time th))) ->
  hour now_time' = hour now_time -> minute now_time' = minute now_time ->
  second now_time' = second now_time ->
  microsecond now_time' = microsecond now_time ->
  select_theme E circadian now_time' = select_theme E circadian now_time.
Proof.
  intros Hz Hsun Hh Hm Hs Hu. unfold select_theme.
  destruct (themes circadian) as [ths |]; [| reflexivity].
  specialize (Hsun ths).
  assert (Hloop : forall l,
             (forall th, th ∈ l -> th ∈ ths) ->
             forall diff pref,
               select_loop E circadian now_time' l diff pref
               = select_loop E circadian now_time l diff pref).
  { induction l as [| th rest IH]; intros Hl diff pref; cbn [select_loop];
      [reflexivity |].
    pose proof (get_theme_time_other_day E circadian th now_time now_time' c
                  Hz (fun Hin => Hsun th eq_refl (Hl th (list_elem_of_here _ _))
                                   Hin)) as Hg.
    assert (Hrest : forall th', th' ∈ rest -> th' ∈ ths)
      by (intros th' H'; apply Hl; now apply list_elem_of_further).
    destruct (get_theme_time E circadian th now_time) as [r | m | e];
      destruct (get_theme_time E circadian th now_time') as [r' | m' | e'];
      try contradiction; cbn; try (now subst).
    destruct Hg as [Hrh Hrm].
    rewrite (elapsed_seconds_other_day r r' now_time now_time'
               Hrh Hrm Hh Hm Hs Hu).
    destruct ((0 <? elapsed_seconds r now_time)
              && ((elapsed_seconds r now_time <? diff) || (diff =? -1)));
      now apply IH. }
  destruct ths as [| th rest]; [reflexivity |]. now rewrite Hloop.
Qed.

(** Instances: a schedule of clock entries on a summer and a winter date,
    and a schedule of solar entries on two dates of the same season of the
    sample almanac. *)
Lemma X17_selection_repeats_witness :
  select_theme (fixed_zone 7200) circadian_ABC
               (mkDT (ymd2ord 2025 1 1) 13 0 0 0)
  = select_theme (fixed_zone 7200) circadian_ABC
                 (mkDT (ymd2ord 2024 6 15) 13 0 0 0) /\
  select_theme utc_zone circadian_solar (mkDT (ymd2ord 2024 7 1) 13 0 0 0)
  = select_theme utc_zone circadian_solar (mkDT (ymd2ord 2024 6 15) 13 0 0 0).
Proof.
  split.
  - apply (X17_selection_repeats_daily (fixed_zone 7200) circadian_ABC
             (mkDT (ymd2ord 2024 6 15) 13 0 0 0)
             (mkDT (ymd2ord 2025 1 1) 13 0 0 0) 7200);
      try reflexivity.
    intros ths th [= <-] Hth Hin. exfalso.
    apply (bool_decide_eq_true_2 _) in Hin.
    repeat (apply elem_of_cons in Hth as [-> | Hth];
            [vm_compute in Hin; discriminate |]).
    inversion Hth.
  - apply (X17_selection_repeats_daily utc_zone circadian_solar
             (mkDT (ymd2ord 2024 6 15) 13 0 0 0)
             (mkDT (ymd2ord 2024 7 1) 13 0 0 0) 0);
      try reflexivity.
    intros ths th [= <-] Hth _ lat lon.
    repeat (apply elem_of_cons in Hth as [-> | Hth];
            [vm_compute; repeat split |]).
    inversion Hth.
Defined.

(** ** Instances of the statements above *)


Lemma X11_set_appropriate_theme_witness :
  let st := mkState {[ "font" := TString "mono" ]} None [] in
  let result :=
    set_appropriate_theme utc_zone (mkCircadian None (Some []))
                          (mkDT (ymd2ord 2024 6 15) 15 0 0 0) st in
  result.1 = SysExit MsgNoThemes /\ result.2 = st.
Proof.
  intros st result.
  destruct (X11_set_appropriate_theme_exits utc_zone
              (mkCircadian None (Some []))
              (mkDT (ymd2ord 2024 6 15) 15 0 0 0) st)
    as (_ & Hempty & _ & Hstate).
  assert (H : result.1 = SysExit MsgNoThemes) by (apply Hempty; reflexivity).
  split; [exact H | exact (Hstate _ H)].
Defined.

Lemma X12_set_appropriate_theme_witness :
  let st := mkState {[ "font" := TString "mono" ]} None [] in
  let now_time := mkDT (ymd2ord 2024 6 15) 15 0 0 0 in
  let result := set_appropriate_theme utc_zone circadian_ABC now_time st in
  result.1 = Ok () /\
  config result.2
  = <["colors" := TTable {[ "background" := TString "#002b36" ]}]> (config st).
Proof.
  intros st now_time result.
  destruct (proj2 (X12_set_appropriate_theme_success utc_zone circadian_ABC
                     now_time st)
                  (mkTheme "B" "14:00") (colors_of "#002b36")
                  (TTable {[ "background" := TString "#002b36" ]}))
    as (H1 & H2 & _).
  - vm_compute. reflexivity.
  - vm_compute. reflexivity.
  - vm_compute. reflexivity.
  - reflexivity.
  - split; [exact H1 | exact H2].
Defined.

Lemma X13_arming_pass_witness :
  let st := mkState {[ "font" := TString "mono" ]} None [] in
  let result :=
    arm_timers utc_zone circadian_ABC (mkDT (ymd2ord 2024 6 15) 15 0 0 0)
               ABC st in
  config result.2 = config st /\
  exists armed,
    thread_list result.2 = thread_list st ++ armed /\
    length armed = length ABC.
Proof.
  intros st result.
  destruct (X13_arming_pass_invariant utc_zone circadian_ABC
              (mkDT (ymd2ord 2024 6 15) 15 0 0 0) ABC st)
    as (Hc & _ & armed & Hl & _ & Hok & _).
  split; [exact Hc |]. exists armed. split; [exact Hl |].
  apply Hok. vm_compute. reflexivity.
Defined.
